(** * Desmond: session and streaming coordination layer

    A shallow embedding of the conversation repository, the persistent
    store adapter, the session/cache manager, the streaming coordinator and
    the file intake of the Desmond chat client, followed by the properties
    of those components.

    Sources embedded here:
    - [utils/fileValidation.ts]      ([validateFiles], [validateSingleFile])
    - [App.tsx]                      (queries, mutations and handlers of [App])
    - [components/ChatInput.tsx]     ([handleFileChange], [removeFile],
                                      [handleSend])
    - [components/ChatMessage.tsx]   (the comparator of [React.memo])
    - [services/geminiService.ts]    (cache teardown, sessions, streaming,
                                      key verification, titles)
    - [types/types.ts]               (the data model)

    Conventions.  A JavaScript string is modelled as the [string] of its
    UTF-8 bytes; the primitives that look at characters ([trim], the
    classes of a regular expression) read it through that encoding.  An
    optional field [f?: T] is modelled as [option T]; a JS number holding a size, a count or a
    millisecond clock as [Z] or [N].  React state is read and written in
    place (a handler sees the state of the render it was created in, which
    is the current state whenever handlers run one after another).  Every
    call that leaves the process (the Gemini SDK) is appended to a log, and
    what the backend answers is a function of that log, so that theorems
    quantify over every backend. *)

From Stdlib Require Import String Ascii ZArith Lia.
Local Open Scope string_scope.
From stdpp Require Import base option list strings gmap pretty.

(* ================================================================== *)
(** ** JavaScript string primitives *)
(* ================================================================== *)

Module Js.

(** [s.startsWith(p)] *)
Definition startsWith (s p : string) : bool := String.prefix p s.

(** [s.endsWith(p)] *)
Definition endsWith (s p : string) : bool :=
  let n := String.length s in
  let k := String.length p in
  if (k <=? n)%nat then String.eqb (substring (n - k) k s) p else false.

(** [s.includes(p)] *)
Fixpoint includes (s p : string) : bool :=
  String.prefix p s ||
  match s with
  | EmptyString => false
  | String _ s' => includes s' p
  end.

(** Truthiness of a string: only the empty string is falsy. *)
Definition truthy (s : string) : bool := negb (String.eqb s "").

(** Truthiness of an optional string ([undefined] is falsy). *)
Definition truthyO (o : option string) : bool :=
  match o with Some s => truthy s | None => false end.

(** Truthiness of an optional object or array: present means truthy
    (an empty array is truthy). *)
Definition present {A} (o : option A) : bool :=
  match o with Some _ => true | None => false end.

(** [a || b] on strings. *)
Definition orElse (a : option string) (b : string) : string :=
  match a with
  | Some s => if truthy s then s else b
  | None => b
  end.

(** The characters of the class [\s] (the WhiteSpace and LineTerminator
    productions of ECMAScript), by code point.  [trim] removes the same
    characters. *)
Definition spaceCodes : list N :=
  [9; 10; 11; 12; 13; 32; 160; 5760; 8192; 8193; 8194; 8195; 8196; 8197;
   8198; 8199; 8200; 8201; 8202; 8232; 8233; 8239; 8287; 12288; 65279]%N.

(** The class [\s], on UTF-16 code units. *)
Definition isSpace (u : N) : bool := existsb (N.eqb u) spaceCodes.

(** Line terminators, which the regex atom [.] does not match. *)
Definition isLineTerminator (u : N) : bool :=
  existsb (N.eqb u) [10; 13; 8232; 8233]%N.

(** The UTF-8 bytes of a code point. *)
Definition utf8 (cp : N) : list ascii :=
  (if cp <? 128 then [ascii_of_N cp]
   else if cp <? 2048 then
     [ascii_of_N (192 + cp / 64); ascii_of_N (128 + cp mod 64)]
   else if cp <? 65536 then
     [ascii_of_N (224 + cp / 4096); ascii_of_N (128 + (cp / 64) mod 64);
      ascii_of_N (128 + cp mod 64)]
   else
     [ascii_of_N (240 + cp / 262144); ascii_of_N (128 + (cp / 4096) mod 64);
      ascii_of_N (128 + (cp / 64) mod 64); ascii_of_N (128 + cp mod 64)])%N.

(** The text made of the given code points. *)
Definition text (cps : list N) : string :=
  string_of_list_ascii (concat (map utf8 cps)).

(** The payload of a UTF-8 continuation byte. *)
Definition continuation (c : ascii) : option N :=
  let b := N_of_ascii c in
  if ((128 <=? b) && (b <? 192))%N then Some (b - 128)%N else None.

(** The UTF-16 code units of a code point: itself, or a surrogate pair. *)
Definition unitsOf (cp : N) : list N :=
  (if cp <? 65536 then [cp]
   else [55296 + (cp - 65536) / 1024; 56320 + (cp - 65536) mod 1024])%N.

(** The UTF-16 code units of a text, which is what a regular expression
    without the [u] flag reads.  A byte that belongs to no well-formed
    sequence stands for a lone surrogate, a code unit that is neither
    white space nor a line terminator. *)
Fixpoint codeUnits (s : string) : list N :=
  match s with
  | EmptyString => []
  | String a s1 =>
      let b := N_of_ascii a in
      let stray := (56320 + b)%N :: codeUnits s1 in
      if (b <? 128)%N then b :: codeUnits s1
      else
        match s1 with
        | String a2 s2 =>
            match continuation a2 with
            | Some c2 =>
                if ((194 <=? b) && (b <? 224))%N
                then ((b - 192) * 64 + c2)%N :: codeUnits s2
                else
                  match s2 with
                  | String a3 s3 =>
                      match continuation a3 with
                      | Some c3 =>
                          let cp3 := ((b - 224) * 4096 + c2 * 64 + c3)%N in
                          if ((224 <=? b) && (b <? 240) && (2048 <=? cp3)
                              && negb ((55296 <=? cp3) && (cp3 <? 57344)))%N
                          then cp3 :: codeUnits s3
                          else
                            match s3 with
                            | String a4 s4 =>
                                match continuation a4 with
                                | Some c4 =>
                                    let cp4 := ((b - 240) * 262144 + c2 * 4096
                                                + c3 * 64 + c4)%N in
                                    if ((240 <=? b) && (b <? 245)
                                        && (65536 <=? cp4)
                                        && (cp4 <? 1114112))%N
                                    then unitsOf cp4 ++ codeUnits s4
                                    else stray
                                | None => stray
                                end
                            | EmptyString => stray
                            end
                      | None => stray
                      end
                  | EmptyString => stray
                  end
            | None => stray
            end
        | EmptyString => stray
        end
  end.

Fixpoint hasPrefix (p l : list ascii) : bool :=
  match p, l with
  | [], _ => true
  | a :: p', b :: l' => Ascii.eqb a b && hasPrefix p' l'
  | _ :: _, [] => false
  end.

(** What is left of [l] once the sequence of [ws] it starts with is
    removed. *)
Definition stripOne (ws : list (list ascii)) (l : list ascii)
  : option (list ascii) :=
  match List.find (fun w => hasPrefix w l) ws with
  | Some w => Some (drop (length w) l)
  | None => None
  end.

(** [stripOne] repeated, at most [n] times. *)
Fixpoint stripAll (ws : list (list ascii)) (n : nat) (l : list ascii)
  : list ascii :=
  match n with
  | O => l
  | S n' => match stripOne ws l with
            | Some r => stripAll ws n' r
            | None => l
            end
  end.

Definition dropSpaces (ws : list (list ascii)) (l : list ascii) : list ascii :=
  stripAll ws (length l) l.

(** The white-space characters as they occur in a text. *)
Definition whiteSpaces : list (list ascii) := map utf8 spaceCodes.

(** [s.trimStart()] *)
Definition trimStart (s : string) : string :=
  string_of_list_ascii (dropSpaces whiteSpaces (list_ascii_of_string s)).

(** [s.trimEnd()]: the same, read from the end. *)
Definition trimEnd (s : string) : string :=
  string_of_list_ascii
    (rev (dropSpaces (map (@rev ascii) whiteSpaces)
                     (rev (list_ascii_of_string s)))).

(** [s.trim()] *)
Definition trim (s : string) : string := trimEnd (trimStart s).

(** [s.trim() === ''] *)
Definition isBlank (s : string) : bool := String.eqb (trim s) "".

(** ASCII lower-casing, for the [i] flag of a regex. *)
Definition lower (c : ascii) : ascii :=
  let n := nat_of_ascii c in
  if ((65 <=? n) && (n <=? 90))%nat then ascii_of_nat (n + 32) else c.

Fixpoint lowerS (s : string) : string :=
  match s with
  | EmptyString => EmptyString
  | String c s' => String (lower c) (lowerS s')
  end.

(** [xs.join('')] *)
Definition join (xs : list string) : string :=
  foldr String.append "" xs.

End Js.

(* ================================================================== *)
(** ** Data model ([types/types.ts]) *)
(* ================================================================== *)

Inductive Sender := user | ai.

Inductive ModelId :=
| gemini_2_5_pro
| gemini_2_5_flash
| gemini_2_5_flash_lite
| gemini_2_5_flash_lite_maps
| gemini_2_5_flash_image.

Definition modelName (m : ModelId) : string :=
  match m with
  | gemini_2_5_pro => "gemini-2.5-pro"
  | gemini_2_5_flash => "gemini-2.5-flash"
  | gemini_2_5_flash_lite => "gemini-2.5-flash-lite"
  | gemini_2_5_flash_lite_maps => "gemini-2.5-flash-lite-maps"
  | gemini_2_5_flash_image => "gemini-2.5-flash-image"
  end.

(** [Object.keys(MODELS)], in declaration order. *)
Definition MODELS : list ModelId :=
  [gemini_2_5_pro; gemini_2_5_flash; gemini_2_5_flash_lite;
   gemini_2_5_flash_lite_maps; gemini_2_5_flash_image].

Definition modelOfName (s : string) : option ModelId :=
  List.find (fun m => String.eqb (modelName m) s) MODELS.

Record TokensDetail := {
  td_modality : option string;
  td_tokenCount : option Z;
}.

Record UsageMetadata := {
  promptTokenCount : option Z;
  candidatesTokenCount : option Z;
  totalTokenCount : option Z;
  thoughtsTokenCount : option Z;
  cachedContentTokenCount : option Z;
  toolUsePromptTokenCount : option Z;
  promptTokensDetails : option (list TokensDetail);
  toolUsePromptTokensDetails : option (list TokensDetail);
}.

(** An attached-file descriptor of a message. *)
Record FileDesc := {
  fd_base64 : string;
  fd_mimeType : string;
  fd_name : string;
}.

(** A citation. *)
Record Source := {
  uri : string;
  title : string;
  placeId : option string;
}.

Record Image := {
  base64 : string;
  mimeType : string;
}.

(** [Message].  [timestamp] is the completion timestamp: empty while the
    message is streaming.  [thinkingTime] is in milliseconds. *)
Record Message := {
  msg_id : string;
  sender : Sender;
  text : string;
  timestamp : string;
  thoughts : option string;
  thinkingTime : option Z;
  imagePreviews : option (list string);
  files : option (list FileDesc);
  sources : option (list Source);
  suggestions : option (list string);
  fullText : option string;
  usageMetadata : option UsageMetadata;
  executableCode : option string;
  codeExecutionResult : option string;
  codeExecutionImages : option (list Image);
  generatedImages : option (list Image);
}.

Record Conversation := {
  conv_id : string;
  conv_title : string;
  messages : list Message;
  model : ModelId;
}.

(** [Content]: one turn of the history replayed into a backend session. *)
Record Content := {
  role : string;
  parts_text : list string;
}.

(** A browser [File]: its name, size in bytes, declared MIME type, and
    what [FileReader.readAsDataURL] yields ([None]: the read fails). *)
Record File := {
  file_name : string;
  file_size : Z;
  file_type : string;
  file_data : option string;
}.

(** The streaming delta accepted by [updateStreamingMessage]. *)
Record Chunk := {
  ch_text : option string;
  ch_thought : option string;
  ch_sources : option (list Source);
  ch_executableCode : option string;
  ch_codeExecutionResult : option string;
  ch_codeExecutionImages : option (list Image);
  ch_generatedImages : option (list Image);
}.

Definition emptyChunk : Chunk :=
  {| ch_text := None; ch_thought := None; ch_sources := None;
     ch_executableCode := None; ch_codeExecutionResult := None;
     ch_codeExecutionImages := None; ch_generatedImages := None |}.

Definition textChunk (s : string) : Chunk :=
  {| ch_text := Some s; ch_thought := None; ch_sources := None;
     ch_executableCode := None; ch_codeExecutionResult := None;
     ch_codeExecutionImages := None; ch_generatedImages := None |}.

(** [{ thought: t }], where [t] may be [undefined]. *)
Definition thoughtChunk (t : option string) : Chunk :=
  {| ch_text := None; ch_thought := t; ch_sources := None;
     ch_executableCode := None; ch_codeExecutionResult := None;
     ch_codeExecutionImages := None; ch_generatedImages := None |}.

Definition codeChunk (s : string) : Chunk :=
  {| ch_text := None; ch_thought := None; ch_sources := None;
     ch_executableCode := Some s; ch_codeExecutionResult := None;
     ch_codeExecutionImages := None; ch_generatedImages := None |}.

Definition codeResultChunk (s : string) : Chunk :=
  {| ch_text := None; ch_thought := None; ch_sources := None;
     ch_executableCode := None; ch_codeExecutionResult := Some s;
     ch_codeExecutionImages := None; ch_generatedImages := None |}.

Definition codeImagesChunk (l : list Image) : Chunk :=
  {| ch_text := None; ch_thought := None; ch_sources := None;
     ch_executableCode := None; ch_codeExecutionResult := None;
     ch_codeExecutionImages := Some l; ch_generatedImages := None |}.

Definition sourcesChunk (l : list Source) : Chunk :=
  {| ch_text := None; ch_thought := None; ch_sources := Some l;
     ch_executableCode := None; ch_codeExecutionResult := None;
     ch_codeExecutionImages := None; ch_generatedImages := None |}.

(** [{ generatedImages, text }] *)
Definition generatedChunk (l : list Image) (s : string) : Chunk :=
  {| ch_text := Some s; ch_thought := None; ch_sources := None;
     ch_executableCode := None; ch_codeExecutionResult := None;
     ch_codeExecutionImages := None; ch_generatedImages := Some l |}.

(** Functional record updates on messages ([{ ...msg, f: v }]). *)
Definition with_text (v : string) (m : Message) : Message :=
  {| msg_id := msg_id m; sender := sender m; text := v;
     timestamp := timestamp m; thoughts := thoughts m;
     thinkingTime := thinkingTime m; imagePreviews := imagePreviews m;
     files := files m; sources := sources m; suggestions := suggestions m;
     fullText := fullText m; usageMetadata := usageMetadata m;
     executableCode := executableCode m;
     codeExecutionResult := codeExecutionResult m;
     codeExecutionImages := codeExecutionImages m;
     generatedImages := generatedImages m |}.

Definition with_timestamp (v : string) (m : Message) : Message :=
  {| msg_id := msg_id m; sender := sender m; text := text m;
     timestamp := v; thoughts := thoughts m;
     thinkingTime := thinkingTime m; imagePreviews := imagePreviews m;
     files := files m; sources := sources m; suggestions := suggestions m;
     fullText := fullText m; usageMetadata := usageMetadata m;
     executableCode := executableCode m;
     codeExecutionResult := codeExecutionResult m;
     codeExecutionImages := codeExecutionImages m;
     generatedImages := generatedImages m |}.

Definition with_thoughts (v : option string) (m : Message) : Message :=
  {| msg_id := msg_id m; sender := sender m; text := text m;
     timestamp := timestamp m; thoughts := v;
     thinkingTime := thinkingTime m; imagePreviews := imagePreviews m;
     files := files m; sources := sources m; suggestions := suggestions m;
     fullText := fullText m; usageMetadata := usageMetadata m;
     executableCode := executableCode m;
     codeExecutionResult := codeExecutionResult m;
     codeExecutionImages := codeExecutionImages m;
     generatedImages := generatedImages m |}.

Definition with_thinkingTime (v : option Z) (m : Message) : Message :=
  {| msg_id := msg_id m; sender := sender m; text := text m;
     timestamp := timestamp m; thoughts := thoughts m;
     thinkingTime := v; imagePreviews := imagePreviews m;
     files := files m; sources := sources m; suggestions := suggestions m;
     fullText := fullText m; usageMetadata := usageMetadata m;
     executableCode := executableCode m;
     codeExecutionResult := codeExecutionResult m;
     codeExecutionImages := codeExecutionImages m;
     generatedImages := generatedImages m |}.

Definition with_files (v : option (list FileDesc)) (m : Message) : Message :=
  {| msg_id := msg_id m; sender := sender m; text := text m;
     timestamp := timestamp m; thoughts := thoughts m;
     thinkingTime := thinkingTime m; imagePreviews := imagePreviews m;
     files := v; sources := sources m; suggestions := suggestions m;
     fullText := fullText m; usageMetadata := usageMetadata m;
     executableCode := executableCode m;
     codeExecutionResult := codeExecutionResult m;
     codeExecutionImages := codeExecutionImages m;
     generatedImages := generatedImages m |}.

Definition with_sources (v : option (list Source)) (m : Message) : Message :=
  {| msg_id := msg_id m; sender := sender m; text := text m;
     timestamp := timestamp m; thoughts := thoughts m;
     thinkingTime := thinkingTime m; imagePreviews := imagePreviews m;
     files := files m; sources := v; suggestions := suggestions m;
     fullText := fullText m; usageMetadata := usageMetadata m;
     executableCode := executableCode m;
     codeExecutionResult := codeExecutionResult m;
     codeExecutionImages := codeExecutionImages m;
     generatedImages := generatedImages m |}.

Definition with_usageMetadata (v : option UsageMetadata) (m : Message)
  : Message :=
  {| msg_id := msg_id m; sender := sender m; text := text m;
     timestamp := timestamp m; thoughts := thoughts m;
     thinkingTime := thinkingTime m; imagePreviews := imagePreviews m;
     files := files m; sources := sources m; suggestions := suggestions m;
     fullText := fullText m; usageMetadata := v;
     executableCode := executableCode m;
     codeExecutionResult := codeExecutionResult m;
     codeExecutionImages := codeExecutionImages m;
     generatedImages := generatedImages m |}.

Definition with_executableCode (v : option string) (m : Message) : Message :=
  {| msg_id := msg_id m; sender := sender m; text := text m;
     timestamp := timestamp m; thoughts := thoughts m;
     thinkingTime := thinkingTime m; imagePreviews := imagePreviews m;
     files := files m; sources := sources m; suggestions := suggestions m;
     fullText := fullText m; usageMetadata := usageMetadata m;
     executableCode := v;
     codeExecutionResult := codeExecutionResult m;
     codeExecutionImages := codeExecutionImages m;
     generatedImages := generatedImages m |}.

Definition with_codeExecutionResult (v : option string) (m : Message)
  : Message :=
  {| msg_id := msg_id m; sender := sender m; text := text m;
     timestamp := timestamp m; thoughts := thoughts m;
     thinkingTime := thinkingTime m; imagePreviews := imagePreviews m;
     files := files m; sources := sources m; suggestions := suggestions m;
     fullText := fullText m; usageMetadata := usageMetadata m;
     executableCode := executableCode m;
     codeExecutionResult := v;
     codeExecutionImages := codeExecutionImages m;
     generatedImages := generatedImages m |}.

Definition with_codeExecutionImages (v : option (list Image)) (m : Message)
  : Message :=
  {| msg_id := msg_id m; sender := sender m; text := text m;
     timestamp := timestamp m; thoughts := thoughts m;
     thinkingTime := thinkingTime m; imagePreviews := imagePreviews m;
     files := files m; sources := sources m; suggestions := suggestions m;
     fullText := fullText m; usageMetadata := usageMetadata m;
     executableCode := executableCode m;
     codeExecutionResult := codeExecutionResult m;
     codeExecutionImages := v;
     generatedImages := generatedImages m |}.

Definition with_generatedImages (v : option (list Image)) (m : Message)
  : Message :=
  {| msg_id := msg_id m; sender := sender m; text := text m;
     timestamp := timestamp m; thoughts := thoughts m;
     thinkingTime := thinkingTime m; imagePreviews := imagePreviews m;
     files := files m; sources := sources m; suggestions := suggestions m;
     fullText := fullText m; usageMetadata := usageMetadata m;
     executableCode := executableCode m;
     codeExecutionResult := codeExecutionResult m;
     codeExecutionImages := codeExecutionImages m;
     generatedImages := v |}.

Definition with_messages (v : list Message) (c : Conversation)
  : Conversation :=
  {| conv_id := conv_id c; conv_title := conv_title c; messages := v;
     model := model c |}.

Definition with_title (v : string) (c : Conversation) : Conversation :=
  {| conv_id := conv_id c; conv_title := v; messages := messages c;
     model := model c |}.

Definition with_model (v : ModelId) (c : Conversation) : Conversation :=
  {| conv_id := conv_id c; conv_title := conv_title c;
     messages := messages c; model := v |}.

(** A message carrying only the four mandatory fields. *)
Definition plainMessage (i : string) (s : Sender) (t ts : string) : Message :=
  {| msg_id := i; sender := s; text := t; timestamp := ts;
     thoughts := None; thinkingTime := None; imagePreviews := None;
     files := None; sources := None; suggestions := None; fullText := None;
     usageMetadata := None; executableCode := None;
     codeExecutionResult := None; codeExecutionImages := None;
     generatedImages := None |}.

(* ================================================================== *)
(** ** File intake ([utils/fileValidation.ts]) *)
(* ================================================================== *)

Definition MAX_FILE_SIZE : Z := 50 * 1024 * 1024.

Definition ALLOWED_FILE_TYPES : list string := ["image/"; "application/pdf"].

Definition sizeError (f : File) : string :=
  file_name f +:+ " exceeds 50MB limit".

Definition typeError (f : File) : string :=
  file_name f +:+
  " is not an allowed file type (only images and PDFs are supported)".

(** [ALLOWED_TYPES.some(type => file.type.startsWith(type))] *)
Definition typeAllowed (f : File) : bool :=
  existsb (fun ty => Js.startsWith (file_type f) ty) ALLOWED_FILE_TYPES.

Record FileValidationResult := {
  valid : list File;
  errors : list string;
}.

(** The body of the [forEach] callback of [validateFiles]: push onto
    [errors] and return, or push onto [valid]. *)
Definition validateStep (acc : FileValidationResult) (f : File)
  : FileValidationResult :=
  if (file_size f >? MAX_FILE_SIZE)%Z then
    {| valid := valid acc; errors := errors acc ++ [sizeError f] |}
  else if negb (typeAllowed f) then
    {| valid := valid acc; errors := errors acc ++ [typeError f] |}
  else
    {| valid := valid acc ++ [f]; errors := errors acc |}.

Definition validateFiles (fs : list File) : FileValidationResult :=
  fold_left validateStep fs {| valid := []; errors := [] |}.

(** [validateSingleFile]: the error message, or [None] ([null]) if valid. *)
Definition validateSingleFile (f : File) : option string :=
  if (file_size f >? MAX_FILE_SIZE)%Z then Some (sizeError f)
  else if negb (typeAllowed f) then Some (typeError f)
  else None.

(** [ChatInput.handleFileChange]: newly picked files are added to the
    staged ones, skipping names already staged and files that fail
    [validateSingleFile]. *)
Definition handleFileChange (prevFiles newFiles : list File) : list File :=
  prevFiles ++
  filter (fun f =>
            negb (existsb (fun g => String.eqb (file_name g) (file_name f))
                          prevFiles)
            && negb (Js.present (validateSingleFile f)) = true)
         newFiles.

(* ================================================================== *)
(** ** The backend and the browser, as seen from the client *)
(* ================================================================== *)

(** What a fallible operation produces: a value, a thrown [Error] with its
    message, or nothing at all (the awaited promise never settles). *)
Inductive Outcome (A : Type) :=
| Ok (a : A)
| Throw (msg : string)
| Hang.
Arguments Ok {A} a.
Arguments Throw {A} msg.
Arguments Hang {A}.

Inductive FileState := PROCESSING | ACTIVE | FAILED.

(** The file resource returned by [ai.files.upload] and [ai.files.get]. *)
Record FileInfo := {
  fi_name : option string;
  fi_state : FileState;
  fi_mimeType : option string;
  fi_uri : option string;
}.

(** [CachedContent]: the handle of a server-side context cache. *)
Record CachedContent := {
  cache_name : option string;
}.

Record InlineData := {
  id_data : string;
  id_mimeType : option string;
}.

(** One part of a streamed candidate.  [p_executableCode] and
    [p_codeExecutionResult] are objects holding an optional string. *)
Record RawPart := {
  p_text : option string;
  p_thought : bool;
  p_executableCode : option (option string);
  p_codeExecutionResult : option (option string);
  p_inlineData : option InlineData;
}.

Record UrlMeta := {
  retrievedUrl : option string;
}.

Record MapsGround := {
  maps_uri : option string;
  maps_title : option string;
  maps_placeId : option string;
}.

Record WebGround := {
  web_uri : option string;
  web_title : option string;
}.

Record GroundingChunk := {
  g_maps : option MapsGround;
  g_web : option WebGround;
}.

(** One chunk of [chat.sendMessageStream], reduced to
    [chunk.candidates?.[0]] and [chunk.usageMetadata]. *)
Record RawChunk := {
  rc_usageMetadata : option UsageMetadata;
  rc_parts : option (list RawPart);
  rc_urlMetadata : option (list UrlMeta);
  rc_groundingChunks : option (list GroundingChunk);
}.

(** A stream: the chunks it delivers, then either its end or an error. *)
Record StreamAnswer := {
  sa_chunks : list RawChunk;
  sa_error : option string;
}.

(** The answer of the single-shot image generation call. *)
Record ImageAnswer := {
  ia_parts : option (list RawPart);
  ia_usageMetadata : option UsageMetadata;
}.

Inductive Tool := googleMaps | googleSearch | urlContext | codeExecution.

(** A message part sent to the backend. *)
Inductive Part :=
| PText (t : string)
| PFileData (mime : option string) (fileUri : option string)
| PInlineData (data : string) (mime : string).

(** A backend session ([Chat]) as configured by [ai.chats.create].
    [cs_systemInstruction] holds the flag given to [getSystemInstruction]. *)
Record ChatSession := {
  cs_model : string;
  cs_tools : list Tool;
  cs_cachedContent : option string;
  cs_systemInstruction : option bool;
  cs_history : list Content;
}.

(** The transport operations the client issues. *)
Inductive Call :=
| CachesDelete (name : option string)
| CachesCreate (model : string) (isMaps : bool)
               (mime : option string) (fileUri : option string)
| ChatsCreate (session : ChatSession)
| FilesUpload (f : File)
| FilesGet (name : option string)
| SendMessageStream (parts : list Part)
| GenerateImage (parts : list Part) (ratio : string).

(** A conversation as [JSON.parse] returns it: every field may be absent,
    and the model is any string. *)
Record RawConversation := {
  raw_id : option string;
  raw_title : option string;
  raw_messages : option (list Message);
  raw_model : option string;
}.

(** The content of the [chatHistory] slot of [localStorage], through
    [JSON.parse]: text that does not parse, a value that is not an array,
    or an array of conversation-shaped records.  [JSON.stringify] followed
    by [JSON.parse] is taken to return the tree it was given. *)
Inductive StoredPayload :=
| Unparseable
| ParsedOther
| ParsedArray (l : list RawConversation).

Inductive StorageOutcome := WriteOk | QuotaExceeded | WriteFails.

(** The environment.  Each backend answer depends on the log of calls
    issued so far (the call being answered is its last entry). *)
Record Backend := {
  deleteAnswer : list Call -> Outcome unit;
  uploadAnswer : list Call -> Outcome FileInfo;
  getAnswer : list Call -> Outcome FileInfo;
  createCacheAnswer : list Call -> Outcome CachedContent;
  streamAnswer : list Call -> Outcome StreamAnswer;
  imageAnswer : list Call -> Outcome ImageAnswer;
  setItemOutcome : StoredPayload -> StorageOutcome;
  removeItemThrows : bool;
}.

(** The clock readings a handler takes: [Date.now()],
    [getFormattedTimestamp()] and [performance.now()]. *)
Record Clock := {
  dateNow : N;
  formattedTimestamp : string;
  performanceNow : Z;
}.

(** The variables of one [sendMessageMutation.mutate] call. *)
Record SendVars := {
  sv_text : string;
  sv_files : list File;
  sv_userMessage : Message;
  sv_aiMessagePlaceholder : Message;
  sv_targetConversationId : string;
}.

(** Mutations handed to the mutation system by a handler. *)
Inductive Started :=
| GenerateChatTitle (text : string) (conversationId : string)
| UpdateConversations (newConversations : list Conversation)
| SendMessage (vars : SendVars).

(* ================================================================== *)
(** ** The state of the client *)
(* ================================================================== *)

(** The query cache under [conversationKeys.all], the [chatHistory] slot,
    the state and refs of [App], the module variables of [geminiService],
    the log of transport calls, the mutations started, and every value the
    query cache has held (what a subscriber has been shown). *)
Record World := {
  queryData : option (list Conversation);
  chatHistoryItem : option StoredPayload;
  activeConversationId : option string;
  isLoading : bool;
  selectedModel : ModelId;
  activeModel : ModelId;
  isProSession : bool;
  aspectRatio : string;
  apiKey : option string;
  showApiKeyModal : bool;
  fileErrors : list string;
  storageError : option string;
  activeStreamingRef : option string;
  aiClient : option string;
  chat : option ChatSession;
  activeCache : option CachedContent;
  currentModelName : string;
  calls : list Call;
  started : list Started;
  observed : list (list Conversation);
}.

Definition set_queryData (v : option (list Conversation)) (w : World) : World :=
  {| queryData := v; chatHistoryItem := chatHistoryItem w;
     activeConversationId := activeConversationId w;
     isLoading := isLoading w; selectedModel := selectedModel w;
     activeModel := activeModel w; isProSession := isProSession w;
     aspectRatio := aspectRatio w; apiKey := apiKey w;
     showApiKeyModal := showApiKeyModal w; fileErrors := fileErrors w;
     storageError := storageError w;
     activeStreamingRef := activeStreamingRef w; aiClient := aiClient w;
     chat := chat w; activeCache := activeCache w;
     currentModelName := currentModelName w; calls := calls w;
     started := started w; observed := observed w |}.

Definition set_chatHistoryItem (v : option StoredPayload) (w : World) : World :=
  {| queryData := queryData w; chatHistoryItem := v;
     activeConversationId := activeConversationId w;
     isLoading := isLoading w; selectedModel := selectedModel w;
     activeModel := activeModel w; isProSession := isProSession w;
     aspectRatio := aspectRatio w; apiKey := apiKey w;
     showApiKeyModal := showApiKeyModal w; fileErrors := fileErrors w;
     storageError := storageError w;
     activeStreamingRef := activeStreamingRef w; aiClient := aiClient w;
     chat := chat w; activeCache := activeCache w;
     currentModelName := currentModelName w; calls := calls w;
     started := started w; observed := observed w |}.

Definition set_activeConversationId (v : option string) (w : World) : World :=
  {| queryData := queryData w; chatHistoryItem := chatHistoryItem w;
     activeConversationId := v; isLoading := isLoading w;
     selectedModel := selectedModel w; activeModel := activeModel w;
     isProSession := isProSession w; aspectRatio := aspectRatio w;
     apiKey := apiKey w; showApiKeyModal := showApiKeyModal w;
     fileErrors := fileErrors w; storageError := storageError w;
     activeStreamingRef := activeStreamingRef w; aiClient := aiClient w;
     chat := chat w; activeCache := activeCache w;
     currentModelName := currentModelName w; calls := calls w;
     started := started w; observed := observed w |}.

Definition set_isLoading (v : bool) (w : World) : World :=
  {| queryData := queryData w; chatHistoryItem := chatHistoryItem w;
     activeConversationId := activeConversationId w; isLoading := v;
     selectedModel := selectedModel w; activeModel := activeModel w;
     isProSession := isProSession w; aspectRatio := aspectRatio w;
     apiKey := apiKey w; showApiKeyModal := showApiKeyModal w;
     fileErrors := fileErrors w; storageError := storageError w;
     activeStreamingRef := activeStreamingRef w; aiClient := aiClient w;
     chat := chat w; activeCache := activeCache w;
     currentModelName := currentModelName w; calls := calls w;
     started := started w; observed := observed w |}.

Definition set_selectedModel (v : ModelId) (w : World) : World :=
  {| queryData := queryData w; chatHistoryItem := chatHistoryItem w;
     activeConversationId := activeConversationId w;
     isLoading := isLoading w; selectedModel := v;
     activeModel := activeModel w; isProSession := isProSession w;
     aspectRatio := aspectRatio w; apiKey := apiKey w;
     showApiKeyModal := showApiKeyModal w; fileErrors := fileErrors w;
     storageError := storageError w;
     activeStreamingRef := activeStreamingRef w; aiClient := aiClient w;
     chat := chat w; activeCache := activeCache w;
     currentModelName := currentModelName w; calls := calls w;
     started := started w; observed := observed w |}.

Definition set_activeModel (v : ModelId) (w : World) : World :=
  {| queryData := queryData w; chatHistoryItem := chatHistoryItem w;
     activeConversationId := activeConversationId w;
     isLoading := isLoading w; selectedModel := selectedModel w;
     activeModel := v; isProSession := isProSession w;
     aspectRatio := aspectRatio w; apiKey := apiKey w;
     showApiKeyModal := showApiKeyModal w; fileErrors := fileErrors w;
     storageError := storageError w;
     activeStreamingRef := activeStreamingRef w; aiClient := aiClient w;
     chat := chat w; activeCache := activeCache w;
     currentModelName := currentModelName w; calls := calls w;
     started := started w; observed := observed w |}.

Definition set_isProSession (v : bool) (w : World) : World :=
  {| queryData := queryData w; chatHistoryItem := chatHistoryItem w;
     activeConversationId := activeConversationId w;
     isLoading := isLoading w; selectedModel := selectedModel w;
     activeModel := activeModel w; isProSession := v;
     aspectRatio := aspectRatio w; apiKey := apiKey w;
     showApiKeyModal := showApiKeyModal w; fileErrors := fileErrors w;
     storageError := storageError w;
     activeStreamingRef := activeStreamingRef w; aiClient := aiClient w;
     chat := chat w; activeCache := activeCache w;
     currentModelName := currentModelName w; calls := calls w;
     started := started w; observed := observed w |}.

Definition set_apiKey (v : option string) (w : World) : World :=
  {| queryData := queryData w; chatHistoryItem := chatHistoryItem w;
     activeConversationId := activeConversationId w;
     isLoading := isLoading w; selectedModel := selectedModel w;
     activeModel := activeModel w; isProSession := isProSession w;
     aspectRatio := aspectRatio w; apiKey := v;
     showApiKeyModal := showApiKeyModal w; fileErrors := fileErrors w;
     storageError := storageError w;
     activeStreamingRef := activeStreamingRef w; aiClient := aiClient w;
     chat := chat w; activeCache := activeCache w;
     currentModelName := currentModelName w; calls := calls w;
     started := started w; observed := observed w |}.

Definition set_showApiKeyModal (v : bool) (w : World) : World :=
  {| queryData := queryData w; chatHistoryItem := chatHistoryItem w;
     activeConversationId := activeConversationId w;
     isLoading := isLoading w; selectedModel := selectedModel w;
     activeModel := activeModel w; isProSession := isProSession w;
     aspectRatio := aspectRatio w; apiKey := apiKey w;
     showApiKeyModal := v; fileErrors := fileErrors w;
     storageError := storageError w;
     activeStreamingRef := activeStreamingRef w; aiClient := aiClient w;
     chat := chat w; activeCache := activeCache w;
     currentModelName := currentModelName w; calls := calls w;
     started := started w; observed := observed w |}.

Definition set_fileErrors (v : list string) (w : World) : World :=
  {| queryData := queryData w; chatHistoryItem := chatHistoryItem w;
     activeConversationId := activeConversationId w;
     isLoading := isLoading w; selectedModel := selectedModel w;
     activeModel := activeModel w; isProSession := isProSession w;
     aspectRatio := aspectRatio w; apiKey := apiKey w;
     showApiKeyModal := showApiKeyModal w; fileErrors := v;
     storageError := storageError w;
     activeStreamingRef := activeStreamingRef w; aiClient := aiClient w;
     chat := chat w; activeCache := activeCache w;
     currentModelName := currentModelName w; calls := calls w;
     started := started w; observed := observed w |}.

Definition set_storageError (v : option string) (w : World) : World :=
  {| queryData := queryData w; chatHistoryItem := chatHistoryItem w;
     activeConversationId := activeConversationId w;
     isLoading := isLoading w; selectedModel := selectedModel w;
     activeModel := activeModel w; isProSession := isProSession w;
     aspectRatio := aspectRatio w; apiKey := apiKey w;
     showApiKeyModal := showApiKeyModal w; fileErrors := fileErrors w;
     storageError := v; activeStreamingRef := activeStreamingRef w;
     aiClient := aiClient w; chat := chat w; activeCache := activeCache w;
     currentModelName := currentModelName w; calls := calls w;
     started := started w; observed := observed w |}.

Definition set_activeStreamingRef (v : option string) (w : World) : World :=
  {| queryData := queryData w; chatHistoryItem := chatHistoryItem w;
     activeConversationId := activeConversationId w;
     isLoading := isLoading w; selectedModel := selectedModel w;
     activeModel := activeModel w; isProSession := isProSession w;
     aspectRatio := aspectRatio w; apiKey := apiKey w;
     showApiKeyModal := showApiKeyModal w; fileErrors := fileErrors w;
     storageError := storageError w; activeStreamingRef := v;
     aiClient := aiClient w; chat := chat w; activeCache := activeCache w;
     currentModelName := currentModelName w; calls := calls w;
     started := started w; observed := observed w |}.

Definition set_aiClient (v : option string) (w : World) : World :=
  {| queryData := queryData w; chatHistoryItem := chatHistoryItem w;
     activeConversationId := activeConversationId w;
     isLoading := isLoading w; selectedModel := selectedModel w;
     activeModel := activeModel w; isProSession := isProSession w;
     aspectRatio := aspectRatio w; apiKey := apiKey w;
     showApiKeyModal := showApiKeyModal w; fileErrors := fileErrors w;
     storageError := storageError w;
     activeStreamingRef := activeStreamingRef w; aiClient := v;
     chat := chat w; activeCache := activeCache w;
     currentModelName := currentModelName w; calls := calls w;
     started := started w; observed := observed w |}.

Definition set_chat (v : option ChatSession) (w : World) : World :=
  {| queryData := queryData w; chatHistoryItem := chatHistoryItem w;
     activeConversationId := activeConversationId w;
     isLoading := isLoading w; selectedModel := selectedModel w;
     activeModel := activeModel w; isProSession := isProSession w;
     aspectRatio := aspectRatio w; apiKey := apiKey w;
     showApiKeyModal := showApiKeyModal w; fileErrors := fileErrors w;
     storageError := storageError w;
     activeStreamingRef := activeStreamingRef w; aiClient := aiClient w;
     chat := v; activeCache := activeCache w;
     currentModelName := currentModelName w; calls := calls w;
     started := started w; observed := observed w |}.

Definition set_activeCache (v : option CachedContent) (w : World) : World :=
  {| queryData := queryData w; chatHistoryItem := chatHistoryItem w;
     activeConversationId := activeConversationId w;
     isLoading := isLoading w; selectedModel := selectedModel w;
     activeModel := activeModel w; isProSession := isProSession w;
     aspectRatio := aspectRatio w; apiKey := apiKey w;
     showApiKeyModal := showApiKeyModal w; fileErrors := fileErrors w;
     storageError := storageError w;
     activeStreamingRef := activeStreamingRef w; aiClient := aiClient w;
     chat := chat w; activeCache := v;
     currentModelName := currentModelName w; calls := calls w;
     started := started w; observed := observed w |}.

Definition set_currentModelName (v : string) (w : World) : World :=
  {| queryData := queryData w; chatHistoryItem := chatHistoryItem w;
     activeConversationId := activeConversationId w;
     isLoading := isLoading w; selectedModel := selectedModel w;
     activeModel := activeModel w; isProSession := isProSession w;
     aspectRatio := aspectRatio w; apiKey := apiKey w;
     showApiKeyModal := showApiKeyModal w; fileErrors := fileErrors w;
     storageError := storageError w;
     activeStreamingRef := activeStreamingRef w; aiClient := aiClient w;
     chat := chat w; activeCache := activeCache w; currentModelName := v;
     calls := calls w; started := started w; observed := observed w |}.

Definition set_calls (v : list Call) (w : World) : World :=
  {| queryData := queryData w; chatHistoryItem := chatHistoryItem w;
     activeConversationId := activeConversationId w;
     isLoading := isLoading w; selectedModel := selectedModel w;
     activeModel := activeModel w; isProSession := isProSession w;
     aspectRatio := aspectRatio w; apiKey := apiKey w;
     showApiKeyModal := showApiKeyModal w; fileErrors := fileErrors w;
     storageError := storageError w;
     activeStreamingRef := activeStreamingRef w; aiClient := aiClient w;
     chat := chat w; activeCache := activeCache w;
     currentModelName := currentModelName w; calls := v;
     started := started w; observed := observed w |}.

Definition set_started (v : list Started) (w : World) : World :=
  {| queryData := queryData w; chatHistoryItem := chatHistoryItem w;
     activeConversationId := activeConversationId w;
     isLoading := isLoading w; selectedModel := selectedModel w;
     activeModel := activeModel w; isProSession := isProSession w;
     aspectRatio := aspectRatio w; apiKey := apiKey w;
     showApiKeyModal := showApiKeyModal w; fileErrors := fileErrors w;
     storageError := storageError w;
     activeStreamingRef := activeStreamingRef w; aiClient := aiClient w;
     chat := chat w; activeCache := activeCache w;
     currentModelName := currentModelName w; calls := calls w;
     started := v; observed := observed w |}.

Definition set_observed (v : list (list Conversation)) (w : World) : World :=
  {| queryData := queryData w; chatHistoryItem := chatHistoryItem w;
     activeConversationId := activeConversationId w;
     isLoading := isLoading w; selectedModel := selectedModel w;
     activeModel := activeModel w; isProSession := isProSession w;
     aspectRatio := aspectRatio w; apiKey := apiKey w;
     showApiKeyModal := showApiKeyModal w; fileErrors := fileErrors w;
     storageError := storageError w;
     activeStreamingRef := activeStreamingRef w; aiClient := aiClient w;
     chat := chat w; activeCache := activeCache w;
     currentModelName := currentModelName w; calls := calls w;
     started := started w; observed := v |}.
#[global] Instance Sender_eq_dec : EqDecision Sender.
Proof. solve_decision. Defined.

#[global] Instance ModelId_eq_dec : EqDecision ModelId.
Proof. solve_decision. Defined.

#[global] Instance FileState_eq_dec : EqDecision FileState.
Proof. solve_decision. Defined.

(** [conversations]: [data = []] by default in [useQuery]. *)
Definition conversations (w : World) : list Conversation :=
  default [] (queryData w).

(** [queryClient.setQueryData(conversationKeys.all, v)] *)
Definition setQueryData (v : list Conversation) (w : World) : World :=
  set_observed (observed w ++ [v]) (set_queryData (Some v) w).

(** [new Map(conversations.map(c => [c.id, c]))]: a later entry replaces an
    earlier one with the same key. *)
Definition conversationsMap (w : World) : gmap string Conversation :=
  list_to_map (reverse (map (fun c => (conv_id c, c)) (conversations w))).

(** [conversationsMap.get(activeConversationId || '')] *)
Definition activeConversation (w : World) : option Conversation :=
  conversationsMap w !! default "" (activeConversationId w).

(* ================================================================== *)
(** ** A state-and-exception monad for the effectful code *)
(* ================================================================== *)

Definition M (A : Type) : Type := World -> Outcome A * World.

#[global] Instance M_ret : MRet M := fun A a w => (Ok a, w).

#[global] Instance M_bind : MBind M := fun A B f m w =>
  match m w with
  | (Ok a, w') => f a w'
  | (Throw e, w') => (Throw e, w')
  | (Hang, w') => (Hang, w')
  end.

Definition getW : M World := fun w => (Ok w, w).

Definition modify (f : World -> World) : M unit := fun w => (Ok tt, f w).

Definition throw {A} (msg : string) : M A := fun w => (Throw msg, w).

(** Lift an answer of the environment into the monad. *)
Definition answer {A} (o : Outcome A) : M A := fun w => (o, w).

(** [if (b) { m }] *)
Definition when (b : bool) (m : M unit) : M unit :=
  if b then m else mret tt.

(** [try { body } catch (e) { handler(e) } finally { fin }] for a handler
    that does not rethrow. *)
Definition tryCatchFinally (body : M unit) (handler : string -> M unit)
  (fin : M unit) : M unit := fun w =>
  match body w with
  | (Ok _, w') => fin w'
  | (Throw e, w') => (handler e ≫= fun _ => fin) w'
  | (Hang, w') => (Hang, w')
  end.

(** [for (const x of xs) { body(x) }] *)
Fixpoint forEachM {A} (body : A -> M unit) (xs : list A) : M unit :=
  match xs with
  | [] => mret tt
  | x :: xs' => body x ≫= fun _ => forEachM body xs'
  end.

Definition logCall (c : Call) : M unit :=
  modify (fun w => set_calls (calls w ++ [c]) w).

(* ================================================================== *)
(** ** Persistent store adapter ([fetchConversations], [saveConversations]) *)
(* ================================================================== *)

Definition toRaw (c : Conversation) : RawConversation :=
  {| raw_id := Some (conv_id c); raw_title := Some (conv_title c);
     raw_messages := Some (messages c);
     raw_model := Some (modelName (model c)) |}.

(** The [parsed.map] callback of [fetchConversations]. *)
Definition coerceConversation (now : Clock) (convo : RawConversation)
  : Conversation :=
  let model :=
    match raw_model convo with
    | Some s =>
        if Js.truthy s then default gemini_2_5_pro (modelOfName s)
        else gemini_2_5_pro
    | None => gemini_2_5_pro
    end in
  {| conv_id := Js.orElse (raw_id convo) (pretty (dateNow now));
     conv_title := Js.orElse (raw_title convo) "Untitled Chat";
     messages := default [] (raw_messages convo);
     model := model |}.

(** [fetchConversations]: the loaded list, and the store afterwards (a
    payload that does not parse is removed). *)
Definition fetchConversations (now : Clock) (w : World)
  : list Conversation * World :=
  match chatHistoryItem w with
  | None => ([], w)
  | Some Unparseable => ([], set_chatHistoryItem None w)
  | Some ParsedOther => ([], w)
  | Some (ParsedArray l) =>
      match l with
      | [] => ([], w)
      | _ => (map (coerceConversation now) l, w)
      end
  end.

(** The [msg => ...] callback of [saveConversations]. *)
Definition stripGeneratedImages (msg : Message) : Message :=
  if Js.present (generatedImages msg) then with_generatedImages None msg
  else msg.

Definition conversationsToSave (cs : list Conversation) : list Conversation :=
  map (fun convo => with_messages (map stripGeneratedImages (messages convo))
                                  convo) cs.

Section Store.
Variable B : Backend.

Definition saveConversations (cs : list Conversation)
  : M (list Conversation) :=
  if (0 <? length cs)%nat then
    let payload := ParsedArray (map toRaw (conversationsToSave cs)) in
    match setItemOutcome B payload with
    | WriteOk =>
        modify (set_chatHistoryItem (Some payload)) ≫= fun _ => mret cs
    | QuotaExceeded =>
        throw ("Storage quota exceeded. Your chat history could not be " +:+
               "saved. Please clear some browser data.")
    | WriteFails =>
        throw ("Failed to save chat history. " +:+
               "Please check your browser settings.")
    end
  else
    if removeItemThrows B then throw "Failed to clear chat history."
    else modify (set_chatHistoryItem None) ≫= fun _ => mret cs.

(** [updateConversationsMutation], from [onMutate] to [onSuccess] or
    [onError].  The result is what [mutateAsync] settles to; [mutate]
    drops it. *)
Definition updateConversationsMutation (newConversations : list Conversation)
  : M (list Conversation) := fun w =>
  let previousConversations := queryData w in
  let w1 := setQueryData newConversations w in
  match saveConversations newConversations w1 with
  | (Ok saved, w2) => (Ok saved, setQueryData saved w2)
  | (Throw err, w2) =>
      let w3 := match previousConversations with
                | Some prev => setQueryData prev w2
                | None => w2
                end in
      (Throw err, set_storageError (Some err) w3)
  | (Hang, w2) => (Hang, w2)
  end.

(** The same mutation in two steps, for a write that runs beside another
    mutation: [onMutate] (the snapshot and the optimistic write), and what
    follows it ([mutationFn], then [onSuccess] or [onError]). *)
Definition writeOnMutate (newConversations : list Conversation) (w : World)
  : option (list Conversation) * World :=
  (queryData w, setQueryData newConversations w).

Definition writeSettle (newConversations : list Conversation)
  (previousConversations : option (list Conversation)) (w : World) : World :=
  match saveConversations newConversations w with
  | (Ok saved, w2) => setQueryData saved w2
  | (Throw err, w2) =>
      set_storageError (Some err)
        (match previousConversations with
         | Some prev => setQueryData prev w2
         | None => w2
         end)
  | (Hang, w2) => w2
  end.

(** [updateConversationsMutation.mutate(...)]: fire and forget. *)
Definition mutateConversations (cs : list Conversation) : M unit := fun w =>
  (Ok tt, snd (updateConversationsMutation cs w)).

End Store.

(* ================================================================== *)
(** ** Conversation repository ([updateStreamingMessage]) *)
(* ================================================================== *)

(** [msg.id.endsWith('-ai') && !msg.timestamp]: the test every handler
    uses to find the streaming placeholder. *)
Definition isStreamingPlaceholder (msg : Message) : bool :=
  Js.endsWith (msg_id msg) "-ai" && negb (Js.truthy (timestamp msg)).

Definition sameUri (a b : Source) : bool := String.eqb (uri a) (uri b).

(** [chunk.sources.filter(sNew => !existing.some(sOld => sOld.uri === sNew.uri))] *)
Definition newSources (existing incoming : list Source) : list Source :=
  List.filter (fun sNew => negb (existsb (fun sOld => sameUri sOld sNew)
                                         existing))
              incoming.

(** The body applied to the placeholder: [updatedMsg = { ...msg }] and the
    seven conditional merges, in source order. *)
Definition applyChunk (chunk : Chunk) (msg : Message) : Message :=
  let m1 :=
    if Js.truthyO (ch_text chunk)
    then with_text (text msg +:+ default "" (ch_text chunk)) msg
    else msg in
  let m2 :=
    if Js.truthyO (ch_thought chunk)
    then
      let base := if Js.truthyO (thoughts m1) then default "" (thoughts m1)
                  else "" in
      with_thoughts (Some (base +:+ default "" (ch_thought chunk))) m1
    else m1 in
  let m3 :=
    if Js.truthyO (ch_executableCode chunk)
    then with_executableCode
           (Some (Js.orElse (executableCode m2) "" +:+
                  default "" (ch_executableCode chunk))) m2
    else m2 in
  let m4 :=
    if Js.truthyO (ch_codeExecutionResult chunk)
    then with_codeExecutionResult
           (Some (Js.orElse (codeExecutionResult m3) "" +:+
                  default "" (ch_codeExecutionResult chunk))) m3
    else m3 in
  let m5 :=
    match ch_codeExecutionImages chunk with
    | Some imgs => with_codeExecutionImages (Some imgs) m4
    | None => m4
    end in
  let m6 :=
    match ch_sources chunk with
    | Some incoming =>
        let existing := default [] (sources m5) in
        with_sources (Some (existing ++ newSources existing incoming)) m5
    | None => m5
    end in
  match ch_generatedImages chunk with
  | Some imgs => with_generatedImages (Some imgs) m6
  | None => m6
  end.

(** The [convo.messages.map] of [updateStreamingMessage]. *)
Definition patchMessages (chunk : Chunk) (ms : list Message) : list Message :=
  map (fun msg => if isStreamingPlaceholder msg then applyChunk chunk msg
                  else msg) ms.

Definition patchConversations (conversationId : string) (chunk : Chunk)
  (cs : list Conversation) : list Conversation :=
  map (fun convo =>
         if String.eqb (conv_id convo) conversationId
         then with_messages (patchMessages chunk (messages convo)) convo
         else convo) cs.

Definition updateStreamingMessage (conversationId : string) (chunk : Chunk)
  (w : World) : World :=
  let currentConversations := default [] (queryData w) in
  setQueryData (patchConversations conversationId chunk currentConversations)
               w.

(* ================================================================== *)
(** ** Session manager and streaming ([services/geminiService.ts]) *)
(* ================================================================== *)

(** [s.split('//').pop()]: what follows the last separator found when
    scanning from the left. *)
Fixpoint afterLastSep (s acc : string) : string :=
  match s with
  | String "/"%char (String "/"%char rest) => afterLastSep rest ""
  | String c rest => afterLastSep rest (acc +:+ String c "")
  | EmptyString => acc
  end.

Definition hasUri (sources : list Source) (u : string) : bool :=
  existsb (fun s => String.eqb (uri s) u) sources.

(** The body of the loop over [urlMetadata.urlMetadata]. *)
Definition pushUrl (sources : list Source) (meta : UrlMeta) : list Source :=
  match retrievedUrl meta with
  | Some u =>
      if Js.truthy u && negb (hasUri sources u) then
        sources ++ [{| uri := u;
                       title := Js.orElse (Some (afterLastSep u "")) u;
                       placeId := None |}]
      else sources
  | None => sources
  end.

(** The body of the loop over [groundingMetadata.groundingChunks]: the
    Maps entry if it has a uri and a title, else the web entry. *)
Definition pushGround (sources : list Source) (g : GroundingChunk)
  : list Source :=
  let mapsOk := match g_maps g with
                | Some m => Js.truthyO (maps_uri m) && Js.truthyO (maps_title m)
                | None => false
                end in
  let webOk := match g_web g with
               | Some x => Js.truthyO (web_uri x) && Js.truthyO (web_title x)
               | None => false
               end in
  if mapsOk then
    match g_maps g with
    | Some m =>
        let u := default "" (maps_uri m) in
        if negb (hasUri sources u) then
          sources ++ [{| uri := u; title := default "" (maps_title m);
                         placeId := maps_placeId m |}]
        else sources
    | None => sources
    end
  else if webOk then
    match g_web g with
    | Some x =>
        let u := default "" (web_uri x) in
        if negb (hasUri sources u) then
          sources ++ [{| uri := u; title := default "" (web_title x);
                         placeId := None |}]
        else sources
    | None => sources
    end
  else sources.

(** The [sources] array built for one stream chunk. *)
Definition extractSources (rc : RawChunk) : list Source :=
  fold_left pushGround (default [] (rc_groundingChunks rc))
            (fold_left pushUrl (default [] (rc_urlMetadata rc)) []).

(** The [onChunk] calls made for one part, in order. *)
Definition partEvents (part : RawPart) : list Chunk :=
  (if p_thought part then [thoughtChunk (p_text part)] else []) ++
  (match p_executableCode part with
   | Some (Some code) => if Js.truthy code then [codeChunk code] else []
   | _ => []
   end) ++
  (match p_codeExecutionResult part with
   | Some (Some out) => if Js.truthy out then [codeResultChunk out] else []
   | _ => []
   end).

(** The inline image a part contributes to [codeExecutionImages]. *)
Definition partImage (part : RawPart) : list Image :=
  match p_inlineData part with
  | Some d =>
      match id_mimeType d with
      | Some mt => if Js.startsWith mt "image/"
                   then [{| base64 := id_data d; mimeType := mt |}] else []
      | None => []
      end
  | None => []
  end.

(** [part.text && !part.thought && !part.executableCode && !part.codeExecutionResult] *)
Definition isTextPart (part : RawPart) : bool :=
  Js.truthyO (p_text part) && negb (p_thought part)
  && negb (Js.present (p_executableCode part))
  && negb (Js.present (p_codeExecutionResult part)).

(** [textParts.map(part => part.text).join('')] *)
Definition textContent (ps : list RawPart) : string :=
  Js.join (map (fun p => default "" (p_text p)) (List.filter isTextPart ps)).

(** Every [onChunk] call made by the body of [for await (const chunk of
    stream)], in order: per part, then images, then text, then sources. *)
Definition chunkEvents (rc : RawChunk) : list Chunk :=
  let ps := default [] (rc_parts rc) in
  let images := concat (map partImage ps) in
  let srcs := extractSources rc in
  concat (map partEvents ps) ++
  (if (0 <? length images)%nat then [codeImagesChunk images] else []) ++
  (match rc_parts rc with
   | Some ps' =>
       if (0 <? length (List.filter isTextPart ps'))%nat
          && Js.truthy (textContent ps')
       then [textChunk (textContent ps')] else []
   | None => []
   end) ++
  (if (0 <? length srcs)%nat then [sourcesChunk srcs] else []).

(** [finalUsageMetadata]: the last truthy [chunk.usageMetadata]. *)
Definition finalUsage (chunks : list RawChunk) : option UsageMetadata :=
  fold_left (fun acc rc => match rc_usageMetadata rc with
                           | Some u => Some u
                           | None => acc
                           end) chunks None.

Definition MAX_INLINE_SIZE_BYTES : Z := 19 * 1024 * 1024.

Section Service.
Variable B : Backend.

(** [ai.caches.delete({ name })] *)
Definition cachesDelete (name : option string) : M unit :=
  logCall (CachesDelete name) ≫= fun _ =>
  getW ≫= fun w => answer (deleteAnswer B (calls w)).

(** The guarded teardown shared by every site that drops the active
    cache: [try { delete } catch { log } finally { activeCache = null }]. *)
Definition deleteAndClear (c : CachedContent) : M unit :=
  tryCatchFinally (cachesDelete (cache_name c))
                  (fun _ => mret tt)
                  (modify (set_activeCache None)).

(** [initializeAiClient] *)
Definition initializeAiClient (key : string) : M unit :=
  getW ≫= fun w =>
  (match activeCache w, aiClient w with
   | Some c, Some _ => deleteAndClear c
   | _, _ => mret tt
   end) ≫= fun _ =>
  modify (fun w => set_chat None (set_aiClient (Some key) w)).

(** [cleanupActiveCache] *)
Definition cleanupActiveCache : M unit :=
  getW ≫= fun w =>
  match aiClient w, activeCache w with
  | Some _, Some c => deleteAndClear c
  | _, _ => mret tt
  end.

(** [getActiveCacheName] *)
Definition getActiveCacheName (w : World) : option string :=
  match activeCache w with
  | Some c => cache_name c
  | None => None
  end.

(** [startNewChatSession(modelName, cachedContentName, history)] *)
Definition startNewChatSession (modelName : string)
  (cachedContentName : option string) (history : list Content) : M unit :=
  getW ≫= fun w =>
  match aiClient w with
  | None => mret tt
  | Some _ =>
      modify (set_currentModelName modelName) ≫= fun _ =>
      let isMapsModel := Js.includes modelName "-maps" in
      let actualModelName :=
        if isMapsModel then "gemini-2.5-flash-lite" else modelName in
      (match activeCache w with
       | Some c => if negb (Js.truthyO cachedContentName)
                   then deleteAndClear c else mret tt
       | None => mret tt
       end) ≫= fun _ =>
      let tools := if isMapsModel then [googleMaps]
                   else [googleSearch; urlContext; codeExecution] in
      let session :=
        {| cs_model := actualModelName;
           cs_tools := tools;
           cs_cachedContent :=
             if Js.truthyO cachedContentName then cachedContentName
             else None;
           cs_systemInstruction :=
             if Js.truthyO cachedContentName then None
             else if (length history =? 0)%nat then Some isMapsModel
             else None;
           cs_history := history |} in
      logCall (ChatsCreate session) ≫= fun _ =>
      modify (set_chat (Some session))
  end.

Definition filesUpload (f : File) : M FileInfo :=
  logCall (FilesUpload f) ≫= fun _ =>
  getW ≫= fun w => answer (uploadAnswer B (calls w)).

Definition filesGet (name : option string) : M FileInfo :=
  logCall (FilesGet name) ≫= fun _ =>
  getW ≫= fun w => answer (getAnswer B (calls w)).

(** [while (getFile.state === 'PROCESSING') { sleep; getFile = get }];
    [fuel] bounds the number of polls the model follows. *)
Fixpoint pollFile (fuel : nat) (getFile : FileInfo) : M FileInfo :=
  match fi_state getFile with
  | PROCESSING =>
      match fuel with
      | O => answer Hang
      | S fuel' => filesGet (fi_name getFile) ≫= pollFile fuel'
      end
  | _ => mret getFile
  end.

(** [fileToBase64] *)
Definition fileToBase64 (f : File) : M string :=
  match file_data f with
  | Some d => mret d
  | None => throw "FileReader error"
  end.

(** The [if (activeCache) { try ... finally { activeCache = null } }]
    block that precedes [activeCache = cache]. *)
Definition deleteOldCache : M unit :=
  getW ≫= fun w =>
  match activeCache w with
  | Some old => deleteAndClear old
  | None => mret tt
  end.

(** Cache supersession: drop the old handle, then install the new one. *)
Definition replaceActiveCache (cache : CachedContent) : M unit :=
  deleteOldCache ≫= fun _ => modify (set_activeCache (Some cache)).

(** What [streamGeminiResponse] does once [ai.caches.create] has
    returned [cache]. *)
Definition afterCacheCreated (onFileProcessing : string -> M unit)
  (cache : CachedContent) : M unit :=
  replaceActiveCache cache ≫= fun _ =>
  onFileProcessing "Starting new cached session..." ≫= fun _ =>
  getW ≫= fun w =>
  startNewChatSession (currentModelName w) (cache_name cache) [].

(** The single-large-PDF branch: upload, poll, create the cache,
    supersede, start the cached session; the message is the prompt. *)
Definition cachedPdfBranch (fuel : nat) (prompt : string) (file : File)
  (onFileProcessing : string -> M unit) : M (list Part) :=
  onFileProcessing "Uploading file..." ≫= fun _ =>
  filesUpload file ≫= fun uploadedFile =>
  onFileProcessing "Processing file..." ≫= fun _ =>
  filesGet (fi_name uploadedFile) ≫= fun first =>
  pollFile fuel first ≫= fun getFile =>
  if decide (fi_state getFile = FAILED) then
    throw ("File processing failed: " +:+ default "undefined" (fi_name getFile))
  else
    onFileProcessing "Creating context cache for PDF..." ≫= fun _ =>
    getW ≫= fun w =>
    let isMapsModel := Js.includes (currentModelName w) "-maps" in
    let actualModelName :=
      if isMapsModel then "gemini-2.5-flash-lite" else currentModelName w in
    logCall (CachesCreate actualModelName isMapsModel
                          (fi_mimeType getFile) (fi_uri getFile)) ≫= fun _ =>
    getW ≫= fun w' =>
    answer (createCacheAnswer B (calls w')) ≫= fun cache =>
    afterCacheCreated onFileProcessing cache ≫= fun _ =>
    mret [PText prompt].

(** The body of [for (const file of files)] in the other branch. *)
Definition attachFile (fuel : nat) (onFileProcessing : string -> M unit)
  (file : File) : M Part :=
  if (file_size file >? MAX_INLINE_SIZE_BYTES)%Z then
    onFileProcessing ("Uploading " +:+ file_name file +:+ "...") ≫= fun _ =>
    filesUpload file ≫= fun uploadedFile =>
    onFileProcessing ("Processing " +:+ file_name file +:+ "...") ≫= fun _ =>
    filesGet (fi_name uploadedFile) ≫= fun first =>
    pollFile fuel first ≫= fun getFile =>
    if decide (fi_state getFile = FAILED) then
      throw ("File processing failed: " +:+ file_name file)
    else
      onFileProcessing (file_name file +:+ " processed.") ≫= fun _ =>
      mret (PFileData (fi_mimeType getFile) (fi_uri getFile))
  else
    fileToBase64 file ≫= fun data =>
    mret (PInlineData data (file_type file)).

Fixpoint attachFiles (fuel : nat) (onFileProcessing : string -> M unit)
  (fs : list File) : M (list Part) :=
  match fs with
  | [] => mret []
  | f :: fs' =>
      attachFile fuel onFileProcessing f ≫= fun p =>
      attachFiles fuel onFileProcessing fs' ≫= fun ps =>
      mret (p :: ps)
  end.

(** [streamGeminiResponse] *)
Definition streamGeminiResponse (fuel : nat) (prompt : string)
  (fs : list File) (onChunk : Chunk -> M unit)
  (onFileProcessing : string -> M unit) : M (option UsageMetadata) :=
  getW ≫= fun w0 =>
  match aiClient w0 with
  | None =>
      throw ("AI client not initialized. " +:+
             "Please provide an API key in the settings.")
  | Some _ =>
      when (negb (Js.present (chat w0)))
           (startNewChatSession (currentModelName w0) None []) ≫= fun _ =>
      getW ≫= fun w1 =>
      match chat w1 with
      | None =>
          throw ("Chat session could not be started. " +:+
                 "Please check your API key and try again.")
      | Some _ =>
          (match fs with
           | [file] =>
               if (file_size file >? MAX_INLINE_SIZE_BYTES)%Z
                  && String.eqb (file_type file) "application/pdf"
               then cachedPdfBranch fuel prompt file onFileProcessing
               else attachFiles fuel onFileProcessing fs ≫= fun ps =>
                    mret (ps ++ [PText prompt])
           | _ => attachFiles fuel onFileProcessing fs ≫= fun ps =>
                  mret (ps ++ [PText prompt])
           end) ≫= fun parts =>
          logCall (SendMessageStream parts) ≫= fun _ =>
          getW ≫= fun w2 =>
          answer (streamAnswer B (calls w2)) ≫= fun stream =>
          forEachM (fun rc => forEachM onChunk (chunkEvents rc))
                   (sa_chunks stream) ≫= fun _ =>
          match sa_error stream with
          | Some e => throw e
          | None => mret (finalUsage (sa_chunks stream))
          end
      end
  end.

(** The images extracted from the answer of the image model. *)
Definition responseImages (ps : list RawPart) : list Image :=
  concat (map (fun part =>
                 match p_inlineData part with
                 | Some d => [{| base64 := id_data d;
                                 mimeType := Js.orElse (id_mimeType d)
                                                       "image/png" |}]
                 | None => []
                 end) ps).

(** The [try { generateContent ... } catch { throw new Error(...) }] of
    [generateImage]. *)
Definition requestImages (parts : list Part) (ratio : string)
  : M (list Image * option UsageMetadata) := fun w0 =>
  let w := set_calls (calls w0 ++ [GenerateImage parts ratio]) w0 in
  match imageAnswer B (calls w) with
  | Ok r => (Ok (responseImages (default [] (ia_parts r)),
                 ia_usageMetadata r), w)
  | Throw _ => (Throw "Failed to generate image. Please try again.", w)
  | Hang => (Hang, w)
  end.

Fixpoint imageInputs (onFileProcessing : string -> M unit) (l : list File)
  : M (list Part) :=
  match l with
  | [] => mret []
  | f :: l' =>
      onFileProcessing ("Processing " +:+ file_name f +:+ "...") ≫= fun _ =>
      fileToBase64 f ≫= fun data =>
      imageInputs onFileProcessing l' ≫= fun ps =>
      mret (PInlineData data (file_type f) :: ps)
  end.

(** [generateImage] *)
Definition generateImage (prompt : string) (fs : list File)
  (onFileProcessing : string -> M unit) (ratio : string)
  : M (list Image * option UsageMetadata) :=
  getW ≫= fun w0 =>
  match aiClient w0 with
  | None =>
      throw ("AI client not initialized. " +:+
             "Please provide an API key in the settings.")
  | Some _ =>
      imageInputs onFileProcessing fs ≫= fun ps =>
      requestImages (ps ++ [PText prompt]) ratio
  end.

End Service.

(* ================================================================== *)
(** ** The streaming coordinator ([App.tsx]) *)
(* ================================================================== *)

Fixpoint dropS (n : nat) (s : string) : string :=
  match n, s with
  | S n', String _ s' => dropS n' s'
  | _, _ => s
  end.

(** [[^\s/$.?#]] followed by [.]: the two code units a URL needs after
    its scheme. *)
Definition urlTail (s : string) : bool :=
  match Js.codeUnits s with
  | c1 :: c2 :: _ =>
      negb (Js.isSpace c1) &&
      negb (existsb (N.eqb c1) [47; 36; 46; 63; 35]%N) &&
      negb (Js.isLineTerminator c2)
  | _ => false
  end.

(** The regex [/https?:\/\/[^\s/$.?#].[^\s]*/gi] matched at the start of [s]. *)
Definition urlAt (s : string) : bool :=
  let l := Js.lowerS s in
  (String.prefix "http://" l && urlTail (dropS 7 s)) ||
  (String.prefix "https://" l && urlTail (dropS 8 s)).

(** [urlRegex.test(text)] on a fresh regex. *)
Fixpoint hasUrl (s : string) : bool :=
  urlAt s ||
  match s with
  | EmptyString => false
  | String _ s' => hasUrl s'
  end.

(** [mapMessagesToHistory] *)
Definition mapMessagesToHistory (ms : list Message) : list Content :=
  map (fun msg => {| role := match sender msg with
                             | user => "user"
                             | ai => "model"
                             end;
                     parts_text := [text msg] |})
      (List.filter (fun m => negb (Js.startsWith (msg_id m) "initial-")
                             && Js.truthy (text m)
                             && negb (Js.isBlank (text m))) ms).

(** The greeting of [INITIAL_MESSAGE_WITH_KEY] and of
    [INITIAL_MESSAGE_WITHOUT_KEY]. *)
Definition INITIAL_TEXT_WITH_KEY : string :=
  "Hello! I'm **Desmond**, your AI assistant.

I can help you with research, document analysis, coding, math problems, and much more. Ready when you are!

What can I help you with today?".

Definition INITIAL_TEXT_WITHOUT_KEY : string :=
  "Hello! I'm **Desmond**, your AI assistant.

To get started, please enter your License Key by clicking the settings icon in the top-right corner.

What can I help you with today?".

(** [createInitialMessages].  The long-form variant of the greeting and
    the list of suggested prompts are display data; they are abbreviated
    to their first sentence and first entry. *)
Definition createInitialMessages (hasApiKey : bool) (now : Clock)
  : list Message :=
  [{| msg_id := "initial-" +:+ pretty (dateNow now);
      sender := ai;
      text := if hasApiKey then INITIAL_TEXT_WITH_KEY
              else INITIAL_TEXT_WITHOUT_KEY;
      timestamp := formattedTimestamp now;
      thoughts := None; thinkingTime := None; imagePreviews := None;
      files := None; sources := None;
      suggestions :=
        Some ["Provide a summary of the top 10 most significant news stories in the Philippines as of today, focusing on political, economic, and social developments."];
      fullText :=
        Some "Hello! I'm Desmond, your AI assistant. I can help you with a variety of tasks, and I'll even show you my thought process as I work.";
      usageMetadata := None; executableCode := None;
      codeExecutionResult := None; codeExecutionImages := None;
      generatedImages := None |}].

(** What [onMutate] of [sendMessageMutation] returns. *)
Record OnMutateResult := {
  startTime : Z;
  ctx_conversationId : option string;
  previousConversations : option (list Conversation);
}.

Definition PLEASE_WAIT : string :=
  "Please wait for the current message to finish before sending another.".

Definition GENERIC_ERROR : string :=
  "Sorry, I encountered an unexpected error. Please try again.".

Definition KEY_ERROR : string :=
  "The License Key you provided is not valid. Please go to settings to update it.".

(** [a === b] for a [string | null] against a [string]. *)
Definition refIs (r : option string) (s : string) : bool :=
  match r with
  | Some x => String.eqb x s
  | None => false
  end.

(** [findIndex] *)
Fixpoint findIndex {A} (p : A -> bool) (l : list A) : option nat :=
  match l with
  | [] => None
  | x :: l' => if p x then Some O
               else match findIndex p l' with
                    | Some i => Some (S i)
                    | None => None
                    end
  end.

Section App.
Variable B : Backend.

(** [handleNewChat], closed over the [conversations] and [selectedModel]
    of the render it was created in. *)
Definition handleNewChatIn (closureConversations : list Conversation)
  (closureModel : ModelId) (now : Clock) (w : World) : World :=
  if negb (Js.truthyO (apiKey w)) then set_showApiKeyModal true w
  else
    let newId := pretty (dateNow now) in
    let newConversation :=
      {| conv_id := newId; conv_title := "New Chat";
         messages := createInitialMessages (Js.truthyO (apiKey w)) now;
         model := closureModel |} in
    let updatedConversations := newConversation :: closureConversations in
    let w1 := snd (mutateConversations B updatedConversations w) in
    let w2 := set_isProSession false
                (set_activeConversationId (Some newId) w1) in
    let w3 := snd (startNewChatSession B (modelName closureModel) None []
                                       w2) in
    set_activeModel closureModel w3.

Definition handleNewChat (now : Clock) (w : World) : World :=
  handleNewChatIn (conversations w) (selectedModel w) now w.

(** [handleSelectConversation] *)
Definition handleSelectConversation (id : string) (w : World) : World :=
  match conversationsMap w !! id with
  | Some c =>
      let w1 := set_selectedModel (model c)
                  (set_activeConversationId (Some id) w) in
      let w2 := snd (startNewChatSession B (modelName (model c)) None
                       (mapMessagesToHistory (messages c)) w1) in
      set_activeModel (model c) w2
  | None => w
  end.

(** [handleModelChange] *)
Definition handleModelChange (newModel : ModelId) (now : Clock) (w : World)
  : World :=
  match activeConversation w with
  | Some currentConvo =>
      let chatHistory := mapMessagesToHistory (messages currentConvo) in
      let updatedConversations :=
        map (fun c => if refIs (activeConversationId w) (conv_id c)
                      then with_model newModel c else c)
            (conversations w) in
      let w1 := set_selectedModel newModel w in
      let w2 := snd (mutateConversations B updatedConversations w1) in
      let isInitialPlaceholder :=
        match messages currentConvo with
        | m :: _ => Js.startsWith (msg_id m) "initial-"
        | [] => false
        end in
      let w3 := snd (startNewChatSession B (modelName newModel) None
                       (if isInitialPlaceholder then [] else chatHistory)
                       w2) in
      set_activeModel newModel w3
  | None =>
      set_selectedModel newModel
        (handleNewChatIn (conversations w) (selectedModel w) now w)
  end.

(** [handleDeleteConversation]; [confirmed] is the answer to
    [window.confirm]. *)
Definition handleDeleteConversation (id : string) (confirmed : bool)
  (now : Clock) (w : World) : World :=
  if negb confirmed then w
  else
    let updatedConversations :=
      List.filter (fun c => negb (String.eqb (conv_id c) id))
                  (conversations w) in
    let w1 := snd (mutateConversations B updatedConversations w) in
    if refIs (activeConversationId w) id then
      match updatedConversations with
      | nextActiveConvo :: _ =>
          let w2 := set_selectedModel (model nextActiveConvo)
                      (set_activeConversationId
                         (Some (conv_id nextActiveConvo)) w1) in
          let w3 := snd (startNewChatSession B
                           (modelName (model nextActiveConvo)) None
                           (mapMessagesToHistory (messages nextActiveConvo))
                           w2) in
          set_activeModel (model nextActiveConvo) w3
      | [] => handleNewChatIn (conversations w) (selectedModel w) now w1
      end
    else w1.

(** The user message and the streaming placeholder built by
    [handleSendMessage]. *)
Definition mkUserMessage (now : Clock) (txt : string) (validFiles : list File)
  : Message :=
  with_files
    (if (0 <? length validFiles)%nat
     then Some (map (fun f => {| fd_base64 := ""; fd_mimeType := file_type f;
                                 fd_name := file_name f |}) validFiles)
     else None)
    (plainMessage (pretty (dateNow now)) user txt (formattedTimestamp now)).

Definition mkPlaceholder (now : Clock) : Message :=
  with_thoughts (Some "")
    (plainMessage (pretty (dateNow now) +:+ "-ai") ai "" "").

(** [handleSendMessage].  Returns the mutation it hands to
    [sendMessageMutation.mutate] together with the [chatHistory] that
    [mutationFn] is closed over, or [None] when it returns early.  The
    mutations it starts ([mutate] returns at once) are recorded in
    [started], in the order of the calls; the handler itself asks nothing
    of the environment [env]. *)
Definition handleSendMessage (env : Backend) (txt : string) (fs : list File)
  (now : Clock) (w : World) : option (SendVars * list Content) * World :=
  if negb (Js.truthyO (apiKey w)) then (None, set_showApiKeyModal true w)
  else
    let v := validateFiles fs in
    if (0 <? length (errors v))%nat then (None, set_fileErrors (errors v) w)
    else
      let w1 := set_fileErrors [] w in
      match activeConversation w with
      | None => (None, w1)
      | Some currentConvo =>
          match activeConversationId w with
          | None => (None, w1)
          | Some targetConversationId =>
              if negb (Js.truthy targetConversationId) then (None, w1)
              else if Js.present (activeStreamingRef w)
                      && negb (refIs (activeStreamingRef w)
                                     targetConversationId)
              then (None, set_fileErrors [PLEASE_WAIT] w1)
              else
                let userMessage := mkUserMessage now txt (valid v) in
                let aiMessagePlaceholder := mkPlaceholder now in
                let isFirstUserMessage :=
                  (length (List.filter
                             (fun m => bool_decide (sender m = user))
                             (messages currentConvo)) =? 0)%nat in
                let hasText := Js.truthy txt && negb (Js.isBlank txt) in
                let w2 :=
                  if isFirstUserMessage
                     && (hasText || (0 <? length (valid v))%nat)
                  then
                    if hasText then
                      set_started
                        (started w1 ++
                         [GenerateChatTitle txt targetConversationId]) w1
                    else
                      set_started
                        (started w1 ++
                         [UpdateConversations
                            (map (fun c =>
                                    if String.eqb (conv_id c)
                                                  targetConversationId
                                    then with_title "Chat with Files" c
                                    else c) (conversations w))]) w1
                  else w1 in
                let vars :=
                  {| sv_text := txt; sv_files := valid v;
                     sv_userMessage := userMessage;
                     sv_aiMessagePlaceholder := aiMessagePlaceholder;
                     sv_targetConversationId := targetConversationId |} in
                let w3 := set_activeStreamingRef (Some targetConversationId)
                            (set_isLoading true w2) in
                (Some (vars, mapMessagesToHistory (messages currentConvo)),
                 set_started (started w3 ++ [SendMessage vars]) w3)
          end
      end.

(** [sendMessageMutation.onMutate] *)
Definition onMutate (vars : SendVars) (now : Clock) (w : World)
  : OnMutateResult * World :=
  let prev := queryData w in
  let conversationId := activeConversationId w in
  let ctx := {| startTime := performanceNow now;
                ctx_conversationId := conversationId;
                previousConversations := prev |} in
  match conversationId, prev with
  | Some cid, Some previous =>
      if negb (Js.truthy cid) then (ctx, w)
      else
        match findIndex (fun c => String.eqb (conv_id c) cid) previous with
        | None => (ctx, w)
        | Some currentConvoIndex =>
            match previous !! currentConvoIndex with
            | None => (ctx, w)
            | Some convoToUpdate =>
                let isInitialState :=
                  match messages convoToUpdate with
                  | m :: _ => Js.startsWith (msg_id m) "initial"
                  | [] => false
                  end in
                let newMessages :=
                  if isInitialState
                  then [sv_userMessage vars; sv_aiMessagePlaceholder vars]
                  else messages convoToUpdate ++
                       [sv_userMessage vars; sv_aiMessagePlaceholder vars] in
                let updatedItem := with_messages newMessages convoToUpdate in
                let newConversations :=
                  updatedItem :: delete currentConvoIndex previous in
                (ctx, setQueryData newConversations w)
            end
        end
  | _, _ => (ctx, w)
  end.

(** The guarded [onChunk] and [onFileProcessing] callbacks. *)
Definition guardedUpdate (streamingConversationId : string) (chunk : Chunk)
  : M unit := fun w =>
  if refIs (activeStreamingRef w) streamingConversationId
  then (Ok tt, updateStreamingMessage streamingConversationId chunk w)
  else (Ok tt, w).

Definition statusUpdate (streamingConversationId : string) (status : string)
  : M unit :=
  guardedUpdate streamingConversationId (thoughtChunk (Some status)).

(** The model [mutationFn] resolves for this turn. *)
Definition targetModelOf (w : World) (txt : string) (fs : list File)
  : ModelId :=
  let requiresProModelNow := (0 <? length fs)%nat || hasUrl txt in
  let shouldBeProSession := isProSession w || requiresProModelNow in
  if bool_decide (selectedModel w = gemini_2_5_flash_image)
  then gemini_2_5_flash_image
  else if shouldBeProSession then gemini_2_5_pro else selectedModel w.

(** [sendMessageMutation.mutationFn] *)
Definition mutationFn (fuel : nat) (vars : SendVars)
  (chatHistory : list Content) : M (option UsageMetadata * string) :=
  getW ≫= fun w =>
  let targetConversationId := sv_targetConversationId vars in
  match conversationsMap w !! targetConversationId with
  | None => throw "No active conversation"
  | Some _ =>
      if Js.present (activeStreamingRef w)
         && negb (refIs (activeStreamingRef w) targetConversationId)
      then throw "Another conversation is currently streaming"
      else
        let requiresProModelNow :=
          (0 <? length (sv_files vars))%nat || hasUrl (sv_text vars) in
        when (requiresProModelNow && negb (isProSession w))
             (modify (set_isProSession true)) ≫= fun _ =>
        let isImageModel :=
          bool_decide (selectedModel w = gemini_2_5_flash_image) in
        let targetModel := targetModelOf w (sv_text vars) (sv_files vars) in
        when (negb isImageModel
              && negb (bool_decide (activeModel w = targetModel)))
             (startNewChatSession B (modelName targetModel) None chatHistory
                ≫= fun _ => modify (set_activeModel targetModel))
          ≫= fun _ =>
        let streamingConversationId := targetConversationId in
        if isImageModel then
          generateImage B (sv_text vars) (sv_files vars)
                        (statusUpdate streamingConversationId)
                        (aspectRatio w) ≫= fun r =>
          (if (0 <? length (fst r))%nat then
             modify (updateStreamingMessage streamingConversationId
                       (generatedChunk (fst r)
                          ("Generated " +:+ pretty (length (fst r)) +:+
                           " image" +:+
                           (if (1 <? length (fst r))%nat then "s" else "")
                           +:+ " successfully.")))
           else
             modify (updateStreamingMessage streamingConversationId
                       (textChunk ("Image generation completed but no " +:+
                                   "images were returned. Please try " +:+
                                   "again with a different prompt."))))
            ≫= fun _ => mret (snd r, streamingConversationId)
        else
          streamGeminiResponse B fuel (sv_text vars) (sv_files vars)
                               (guardedUpdate streamingConversationId)
                               (statusUpdate streamingConversationId)
            ≫= fun usage => mret (usage, streamingConversationId)
  end.

(** The [msg => ...] callback of [onSuccess]. *)
Definition finalizeMessage (usage : option UsageMetadata) (elapsed : Z)
  (stamp : string) (msg : Message) : Message :=
  if isStreamingPlaceholder msg
  then with_timestamp stamp
         (with_thinkingTime (Some elapsed) (with_usageMetadata usage msg))
  else msg.

(** The [msg => ...] callback of [onError]. *)
Definition errorMessageInto (errorMessage stamp : string) (msg : Message)
  : Message :=
  if isStreamingPlaceholder msg
  then with_timestamp stamp
         (with_text errorMessage (with_thoughts (Some "") msg))
  else msg.

Definition mapConversation (cid : string) (f : Message -> Message)
  (cs : list Conversation) : list Conversation :=
  map (fun convo => if String.eqb (conv_id convo) cid
                    then with_messages (map f (messages convo)) convo
                    else convo) cs.

(** [sendMessageMutation.onSuccess]; it throws when the awaited
    [mutateAsync] rejects. *)
Definition onSuccess (res : option UsageMetadata * string)
  (ctx : OnMutateResult) (now : Clock) : M unit :=
  match ctx_conversationId ctx with
  | Some cid =>
      if Js.truthy cid && Js.present (fst res) && String.eqb (snd res) cid
      then
        getW ≫= fun w =>
        let elapsed :=
          (performanceNow now -
           (if (startTime ctx =? 0)%Z then performanceNow now
            else startTime ctx))%Z in
        updateConversationsMutation B
          (mapConversation cid
             (finalizeMessage (fst res) elapsed (formattedTimestamp now))
             (default [] (queryData w))) ≫= fun _ => mret tt
      else mret tt
  | None => mret tt
  end.

(** The user-facing text chosen by [onError]. *)
Definition errorTextFor (msg : string) : string :=
  if Js.includes msg "API_KEY_INVALID" || Js.includes msg "API key not valid"
  then KEY_ERROR else GENERIC_ERROR.

(** [sendMessageMutation.onError] *)
Definition onError (error : string) (ctx : OnMutateResult) (now : Clock)
  (w : World) : World :=
  let w1 := match previousConversations ctx with
            | Some prev => setQueryData prev w
            | None => w
            end in
  let errorMessage := errorTextFor error in
  match ctx_conversationId ctx with
  | Some cid =>
      if Js.truthy cid then
        snd (updateConversationsMutation B
               (mapConversation cid
                  (errorMessageInto errorMessage (formattedTimestamp now))
                  (default [] (queryData w1))) w1)
      else w1
  | None => w1
  end.

(** [sendMessageMutation.onSettled] *)
Definition onSettled (ctx : OnMutateResult) (w : World) : World :=
  let w1 :=
    match ctx_conversationId ctx with
    | Some cid =>
        if Js.truthy cid && refIs (activeStreamingRef w) cid
        then set_activeStreamingRef None w else w
    | None => w
    end in
  set_isLoading false w1.

(** What [sendMessageMutation] does once [onMutate] has returned [ctx]:
    [mutationFn], then [onSuccess] or [onError], then [onSettled].  A
    callback that throws during the success path is followed by the error
    path, as the mutation runner does.  [clk1] is read when the mutation
    completes. *)
Definition sendAfterMutate (fuel : nat) (vars : SendVars)
  (chatHistory : list Content) (ctx : OnMutateResult) (clk1 : Clock)
  (w1 : World) : World :=
  match mutationFn fuel vars chatHistory w1 with
  | (Ok res, w2) =>
      match onSuccess res ctx clk1 w2 with
      | (Ok _, w3) => onSettled ctx w3
      | (Throw e, w3) => onSettled ctx (onError e ctx clk1 w3)
      | (Hang, w3) => w3
      end
  | (Throw e, w2) => onSettled ctx (onError e ctx clk1 w2)
  | (Hang, w2) => w2
  end.

(** What happens from the call of [sendMessageMutation.mutate] to the
    start of its [mutationFn].  Alone, that is [onMutate].  When
    [handleSendMessage] has started the title write
    [updateConversationsMutation.mutate(write)] just before, the two
    mutations run side by side and neither waits for the other: both
    [onMutate] callbacks resume after the same [await cancelQueries], the
    one of the write first; the write then saves and settles within a few
    microtasks, which is before anything the send awaits from the
    transport or from a file reader comes back.  So the write takes its
    snapshot and stores its list, the send inserts the user message and
    the placeholder into that list, and the write stores its own list
    again ([onSuccess]) or restores its snapshot ([onError]); the model
    places that last step before the first step of [mutationFn]. *)
Definition sendStart (write : option (list Conversation)) (vars : SendVars)
  (clk0 : Clock) (w : World) : OnMutateResult * World :=
  match write with
  | Some newConversations =>
      let (previousConversations, wa) := writeOnMutate newConversations w in
      let (ctx, wb) := onMutate vars clk0 wa in
      (ctx, writeSettle B newConversations previousConversations wb)
  | None => onMutate vars clk0 w
  end.

(** One run of [sendMessageMutation], beside the title write [write] when
    there is one.  [clk0] is read when the mutation starts. *)
Definition sendMessageMutation (fuel : nat)
  (write : option (list Conversation)) (vars : SendVars)
  (chatHistory : list Content) (clk0 clk1 : Clock) (w : World) : World :=
  let (ctx, w1) := sendStart write vars clk0 w in
  sendAfterMutate fuel vars chatHistory ctx clk1 w1.

(** The list of the [updateConversationsMutation] found among the
    mutations [ms]. *)
Definition writeStarted (ms : list Started) : option (list Conversation) :=
  head (omap (fun m => match m with
                       | UpdateConversations cs => Some cs
                       | _ => None
                       end) ms).

(** [ChatInput.handleSend] wired to [handleSendMessage] and followed by
    the send it starts, run beside the title write when the handler has
    started one in the same call. *)
Definition sendFromInput (fuel : nat) (txt : string) (fs : list File)
  (clk0 clk1 : Clock) (w : World) : World :=
  let isInputDisabled := isLoading w || negb (Js.truthyO (apiKey w)) in
  if ((Js.truthy txt && negb (Js.isBlank txt)) || (0 <? length fs)%nat)
     && negb isInputDisabled
  then
    match handleSendMessage B txt fs clk0 w with
    | (Some (vars, chatHistory), w1) =>
        sendMessageMutation fuel
          (writeStarted (drop (length (started w)) (started w1)))
          vars chatHistory clk0 clk1 w1
    | (None, w1) => w1
    end
  else w.

End App.

(** User actions, each followed to completion before the next. *)
Inductive Event :=
| EvSend (txt : string) (fs : list File) (clk0 clk1 : Clock)
| EvNewChat (now : Clock)
| EvSelect (id : string)
| EvModelChange (m : ModelId) (now : Clock)
| EvDelete (id : string) (confirmed : bool) (now : Clock).

Definition step (B : Backend) (fuel : nat) (e : Event) (w : World) : World :=
  match e with
  | EvSend txt fs clk0 clk1 => sendFromInput B fuel txt fs clk0 clk1 w
  | EvNewChat now => handleNewChat B now w
  | EvSelect id => handleSelectConversation B id w
  | EvModelChange m now => handleModelChange B m now w
  | EvDelete id confirmed now => handleDeleteConversation B id confirmed now w
  end.

Definition run (B : Backend) (fuel : nat) (es : list Event) (w : World)
  : World :=
  fold_left (fun w e => step B fuel e w) es w.

(* ================================================================== *)
(** ** Vocabulary of the specification *)
(* ================================================================== *)

(** A file passes intake: within the size ceiling and of an allowed type. *)
Definition fileAccepted (f : File) : bool :=
  negb (file_size f >? MAX_FILE_SIZE)%Z && typeAllowed f.

(** The streaming placeholder as the specification names it: an [ai]
    message whose completion timestamp is empty. *)
Definition isPending (m : Message) : bool :=
  bool_decide (sender m = ai) && String.eqb (timestamp m) "".

(** The identifier discipline of the data model: an identifier carrying
    the [-ai] tag belongs to an [ai] message. *)
Definition idTagged (m : Message) : Prop :=
  Js.endsWith (msg_id m) "-ai" = true -> sender m = ai.

(** The messages of the conversations named [cid]. *)
Definition messagesOf (cid : string) (cs : list Conversation) : list Message :=
  concat (map messages
              (List.filter (fun c => String.eqb (conv_id c) cid) cs)).

(** The number of pending messages in conversation [cid]. *)
Definition pendingCount (cid : string) (cs : list Conversation) : nat :=
  length (List.filter isPending (messagesOf cid cs)).

(** Folding deltas into a message, in arrival order. *)
Definition foldChunks (chunks : list Chunk) (m : Message) : Message :=
  fold_left (fun acc c => applyChunk c acc) chunks m.

(** All [onChunk] deltas of a stream, in arrival order. *)
Definition streamEvents (rcs : list RawChunk) : list Chunk :=
  concat (map chunkEvents rcs).

Definition chunkText (c : Chunk) : string := default "" (ch_text c).

Definition chunkThought (c : Chunk) : string := default "" (ch_thought c).


(** The URI a grounding entry carries: the Maps uri when the entry has a
    Maps uri and title, else the web uri when it has a web uri and title. *)
Definition groundUri (g : GroundingChunk) : option string :=
  match g_maps g with
  | Some m =>
      if Js.truthyO (maps_uri m) && Js.truthyO (maps_title m)
      then Some (default "" (maps_uri m))
      else match g_web g with
           | Some x => if Js.truthyO (web_uri x) && Js.truthyO (web_title x)
                       then Some (default "" (web_uri x)) else None
           | None => None
           end
  | None =>
      match g_web g with
      | Some x => if Js.truthyO (web_uri x) && Js.truthyO (web_title x)
                  then Some (default "" (web_uri x)) else None
      | None => None
      end
  end.

(** The URIs a stream chunk carries: every non-empty retrieved URL and
    the URI of every grounding entry. *)
Definition carriedUris (rc : RawChunk) : list string :=
  concat (map (fun meta => match retrievedUrl meta with
                           | Some u => if Js.truthy u then [u] else []
                           | None => []
                           end) (default [] (rc_urlMetadata rc))) ++
  concat (map (fun g => match groundUri g with
                        | Some u => [u]
                        | None => []
                        end) (default [] (rc_groundingChunks rc))).

(** The citation list after one merge. *)
Definition mergeSources (existing incoming : list Source) : list Source :=
  existing ++ newSources existing incoming.

(** Per message, what a patch may change. *)
Definition patched (chunk : Chunk) (m m' : Message) : Prop :=
  (isStreamingPlaceholder m = false -> m' = m) /\
  msg_id m' = msg_id m /\ sender m' = sender m /\ timestamp m' = timestamp m.

(** The state once the guarded teardown of [c] has run. *)
Definition afterTeardown (c : CachedContent) (w : World) : World :=
  set_activeCache None (set_calls (calls w ++ [CachesDelete (cache_name c)]) w).

(** The escalation flag is set. *)
Definition escalated (w : World) : Prop := isProSession w = true.

(** A computation that keeps the state predicate [P]: if [P] holds when
    it starts, [P] holds in the state it leaves, however it ends. *)
Definition preserves (P : World -> Prop) {A} (m : M A) : Prop :=
  forall w, P w -> P (snd (m w)).

(** The [-ai] tag and the sender agree on which messages are streaming:
    a message is an [ai] message with an empty timestamp exactly when it is
    what the handlers look for. *)
Definition wellTagged (m : Message) : Prop :=
  isPending m = isStreamingPlaceholder m.

(** The function [updateStreamingMessage] maps over the messages. *)
Definition patchOne (chunk : Chunk) (m : Message) : Message :=
  if isStreamingPlaceholder m then applyChunk chunk m else m.

(** Conversation [cid] of the list [cs] is well tagged and holds at most
    one pending message. *)
Definition tidy (cid : string) (cs : list Conversation) : Prop :=
  Forall wellTagged (messagesOf cid cs) /\ pendingCount cid cs <= 1.

(** In the state [w], conversation [cid] is well tagged and holds [n]
    pending messages, and every list the query cache has held was tidy. *)
Definition tidyState (cid : string) (n : nat) (w : World) : Prop :=
  Forall wellTagged (messagesOf cid (conversations w)) /\
  pendingCount cid (conversations w) = n /\
  Forall (tidy cid) (observed w).

(** An event that runs [handleNewChat] from the state [w]. *)
Definition startsNewChat (e : Event) (w : World) : bool :=
  match e with
  | EvNewChat _ => true
  | EvModelChange _ _ => negb (Js.present (activeConversation w))
  | EvDelete id confirmed _ =>
      confirmed && refIs (activeConversationId w) id
      && (length (List.filter (fun c => negb (String.eqb (conv_id c) id))
                              (conversations w)) =? 0)%nat
  | _ => false
  end.

(** No event of the run starts a new chat. *)
Fixpoint noNewChat (B : Backend) (fuel : nat) (es : list Event) (w : World)
  : Prop :=
  match es with
  | [] => True
  | e :: es' =>
      startsNewChat e w = false /\ noNewChat B fuel es' (step B fuel e w)
  end.

(* ================================================================== *)
(** ** Further string primitives *)
(* ================================================================== *)

Module JsText.

(** [s.replace(/c/g, '')] for a pattern of one character. *)
Fixpoint removeAll (c : ascii) (s : string) : string :=
  match s with
  | String d s' =>
      if Ascii.eqb d c then removeAll c s' else String d (removeAll c s')
  | EmptyString => EmptyString
  end.

(** [s.split(sep)] for a separator of one character; [acc] is the piece
    being read. *)
Fixpoint splitFrom (sep : ascii) (s acc : string) : list string :=
  match s with
  | String c s' =>
      if Ascii.eqb c sep then acc :: splitFrom sep s' ""
      else splitFrom sep s' (acc +:+ String c "")
  | EmptyString => [acc]
  end.

Definition split (sep : ascii) (s : string) : list string :=
  splitFrom sep s "".

(** [xs.join(sep)] *)
Fixpoint joinWith (sep : string) (xs : list string) : string :=
  match xs with
  | [] => ""
  | x :: xs' =>
      match xs' with
      | [] => x
      | _ => x +:+ sep +:+ joinWith sep xs'
      end
  end.

End JsText.

(* ================================================================== *)
(** ** Single-shot requests ([services/geminiService.ts]) *)
(* ================================================================== *)

(** The system instruction a single-shot request carries. *)
Inductive Instruction :=
| TitleGeneration
| TitleGenerationFromHistory.

(** One [models.generateContent] request made outside the chat session:
    the key of the client that sends it, the model, the contents and the
    system instruction. *)
Record GenRequest := {
  gr_apiKey : string;
  gr_model : string;
  gr_contents : string;
  gr_instruction : option Instruction;
}.

(** What the backend answers to a single-shot request: [response.text],
    which may be absent, or a rejection.  A request cut short by its abort
    signal is a rejected request. *)
Definition Generate : Type := GenRequest -> Outcome (option string).

Definition QUOTE : ascii := ascii_of_nat 34.

Definition NEWLINE : string := String (ascii_of_nat 10) "".

(** [response.text!.trim()] with every double quote removed. *)
Definition cleanTitle (t : string) : string :=
  JsText.removeAll QUOTE (Js.trim t).

(** [s.split(' ').slice(0, 5).join(' ')] *)
Definition firstWords (s : string) : string :=
  JsText.joinWith " " (take 5 (JsText.split " "%char s)).

(** [verifyApiKey]: the verdict and the requests made.  The inner
    [catch] returns [false] after an abort and rethrows otherwise; the
    outer [catch] returns [false]. *)
Definition verifyApiKey (gen : Generate) (apiKey : string)
  : Outcome bool * list GenRequest :=
  if negb (Js.truthy apiKey) || negb (Js.truthy (Js.trim apiKey))
  then (Ok false, [])
  else
    let req := {| gr_apiKey := Js.trim apiKey;
                  gr_model := "gemini-2.5-flash-lite";
                  gr_contents := "test";
                  gr_instruction := None |} in
    match gen req with
    | Ok _ => (Ok true, [req])
    | Throw _ => (Ok false, [req])
    | Hang => (Hang, [req])
    end.

(** [generateChatTitle] *)
Definition generateChatTitle (gen : Generate) (prompt : string) (w : World)
  : Outcome string * list GenRequest :=
  match aiClient w with
  | None => (Throw "AI client not initialized. Cannot generate title.", [])
  | Some key =>
      let req := {| gr_apiKey := key;
                    gr_model := "gemini-2.5-flash-lite";
                    gr_contents := prompt;
                    gr_instruction := Some TitleGeneration |} in
      let fallback :=
        Js.orElse (Some (firstWords prompt)) "Untitled Chat" in
      match gen req with
      | Ok (Some t) => (Ok (cleanTitle t), [req])
      | Ok None => (Ok fallback, [req])
      | Throw _ => (Ok fallback, [req])
      | Hang => (Hang, [req])
      end
  end.

(** [!m.id.startsWith('initial-') && (m.text?.trim() || m.files)] *)
Definition usableForTitle (m : Message) : bool :=
  negb (Js.startsWith (msg_id m) "initial-")
  && (Js.truthy (Js.trim (text m)) || Js.present (files m)).

(** The [.map] callback of [generateTitleFromHistory]. *)
Definition contextLine (m : Message) : string :=
  let textPart := if Js.truthy (text m) then Js.trim (text m) else "" in
  let filePart :=
    match files m with
    | Some fl => "[" +:+ pretty (length fl) +:+ " file(s) attached]"
    | None => ""
    end in
  let content :=
    JsText.joinWith " " (List.filter Js.truthy [textPart; filePart]) in
  (match sender m with user => "User" | ai => "AI" end) +:+ ": " +:+ content.

Definition conversationContext (ms : list Message) : string :=
  JsText.joinWith (NEWLINE +:+ NEWLINE)
    (map contextLine (take 4 (List.filter usableForTitle ms))).

(** [generateTitleFromHistory] *)
Definition generateTitleFromHistory (gen : Generate) (ms : list Message)
  (w : World) : Outcome string * list GenRequest :=
  match aiClient w with
  | None => (Throw "AI client not initialized. Cannot generate title.", [])
  | Some key =>
      if negb (Js.truthy (conversationContext ms))
      then (Ok "Untitled Chat", [])
      else
        let req := {| gr_apiKey := key;
                      gr_model := "gemini-2.5-flash-lite";
                      gr_contents := conversationContext ms;
                      gr_instruction := Some TitleGenerationFromHistory |} in
        let fallback :=
          match List.find (fun m => bool_decide (sender m = user)) ms with
          | Some m => Js.orElse (Some (firstWords (text m))) "Untitled Chat"
          | None => "Untitled Chat"
          end in
        match gen req with
        | Ok (Some t) => (Ok (cleanTitle t), [req])
        | Ok None => (Ok fallback, [req])
        | Throw _ => (Ok fallback, [req])
        | Hang => (Hang, [req])
        end
  end.

(* ================================================================== *)
(** ** The message input ([components/ChatInput.tsx]) *)
(* ================================================================== *)

(** The state of [ChatInput]. *)
Record InputState := {
  in_text : string;
  in_files : list File;
  isOptimizing : bool;
  fileInputKey : nat;
}.

(** [prevFiles.filter((_, index) => index !== indexToRemove)] *)
Definition removeFile (indexToRemove : nat) (prevFiles : list File)
  : list File :=
  map snd (List.filter (fun p => negb (Nat.eqb (fst p) indexToRemove))
                       (imap pair prevFiles)).

(** The guard of [handleSend]; the [isLoading] prop is [isInputDisabled]. *)
Definition canSend (st : InputState) (w : World) : bool :=
  ((Js.truthy (in_text st) && negb (Js.isBlank (in_text st)))
   || (0 <? length (in_files st))%nat)
  && negb (isLoading w || negb (Js.truthyO (apiKey w))).

(** [handleSend]: hand the draft to [handleSendMessage], then clear it. *)
Definition handleSend (B : Backend) (fuel : nat) (clk0 clk1 : Clock)
  (st : InputState) (w : World) : InputState * World :=
  if canSend st w then
    ({| in_text := ""; in_files := []; isOptimizing := isOptimizing st;
        fileInputKey := S (fileInputKey st) |},
     sendFromInput B fuel (in_text st) (in_files st) clk0 clk1 w)
  else (st, w).

(* ================================================================== *)
(** ** The message view ([components/ChatMessage.tsx]) *)
(* ================================================================== *)

(** The comparator given to [React.memo]: [true] skips the re-render. *)
Definition arePropsEqual (prev next : Message) (prevShow nextShow : bool)
  : bool :=
  String.eqb (msg_id prev) (msg_id next)
  && String.eqb (text prev) (text next)
  && bool_decide (fullText prev = fullText next)
  && bool_decide (thoughts prev = thoughts next)
  && bool_decide (thinkingTime prev = thinkingTime next)
  && bool_decide (executableCode prev = executableCode next)
  && bool_decide (codeExecutionResult prev = codeExecutionResult next)
  && bool_decide (length <$> codeExecutionImages prev
                  = length <$> codeExecutionImages next)
  && bool_decide (prevShow = nextShow).

(* ================================================================== *)
(** ** Keys, titles and start-up ([App.tsx]) *)
(* ================================================================== *)

(** The client state together with the state of [App] that the key
    dialog, the title mutations and the start-up effect use: the
    [GEMINI_API_KEY] slot of [localStorage], the dialog fields, the rename
    marker, the start-up flag and the single-shot requests made. *)
Record Shell := {
  sh_world : World;
  storedApiKey : option string;
  tempApiKey : string;
  isVerifyingApiKey : bool;
  apiKeyError : option string;
  renamingConversationId : option string;
  isInitialized : bool;
  requests : list GenRequest;
}.

Definition with_world (w : World) (sh : Shell) : Shell :=
  {| sh_world := w; storedApiKey := storedApiKey sh;
     tempApiKey := tempApiKey sh; isVerifyingApiKey := isVerifyingApiKey sh;
     apiKeyError := apiKeyError sh;
     renamingConversationId := renamingConversationId sh;
     isInitialized := isInitialized sh; requests := requests sh |}.

Definition with_requests (l : list GenRequest) (sh : Shell) : Shell :=
  {| sh_world := sh_world sh; storedApiKey := storedApiKey sh;
     tempApiKey := tempApiKey sh; isVerifyingApiKey := isVerifyingApiKey sh;
     apiKeyError := apiKeyError sh;
     renamingConversationId := renamingConversationId sh;
     isInitialized := isInitialized sh; requests := requests sh ++ l |}.


Definition STALE_KEY_ERROR : string :=
  "Your stored license key is no longer valid. Please enter a new one.".

Section Shell.
Variable B : Backend.
Variable gen : Generate.


(** What [initializeApp] does once the stored key is verified. *)
Definition startSession (now : Clock) (key : string) (w : World)
  : Outcome unit * World :=
  match initializeAiClient B key w with
  | (Ok _, w1) =>
      match conversations w with
      | lastActiveConvo :: _ =>
          let w2 := set_selectedModel (model lastActiveConvo)
                      (set_activeConversationId
                         (Some (conv_id lastActiveConvo)) w1) in
          match startNewChatSession B (modelName (model lastActiveConvo))
                  None (mapMessagesToHistory (messages lastActiveConvo)) w2
          with
          | (Ok _, w3) => (Ok tt, set_activeModel (model lastActiveConvo) w3)
          | (o, w3) => (o, w3)
          end
      | [] =>
          (Ok tt, handleNewChatIn B (conversations w) (selectedModel w) now w1)
      end
  | (o, w1) => (o, w1)
  end.

(** The [initializeApp] effect, once the conversations are loaded. *)
Definition initializeApp (now : Clock) (sh : Shell) : Shell :=
  if isInitialized sh then sh
  else
    let w := sh_world sh in
    match apiKey w with
    | None => sh
    | Some key =>
        if negb (Js.truthy key) then sh
        else
          let r := verifyApiKey gen key in
          match fst r with
          | Ok true =>
              match startSession now key w with
              | (Ok _, w') =>
                  {| sh_world := w'; storedApiKey := storedApiKey sh;
                     tempApiKey := tempApiKey sh;
                     isVerifyingApiKey := isVerifyingApiKey sh;
                     apiKeyError := apiKeyError sh;
                     renamingConversationId := renamingConversationId sh;
                     isInitialized := true;
                     requests := requests sh ++ snd r |}
              | (_, w') => with_requests (snd r) (with_world w' sh)
              end
          | Ok false | Throw _ =>
              {| sh_world := set_showApiKeyModal true (set_apiKey None w);
                 storedApiKey := None;
                 tempApiKey := tempApiKey sh;
                 isVerifyingApiKey := isVerifyingApiKey sh;
                 apiKeyError := Some STALE_KEY_ERROR;
                 renamingConversationId := renamingConversationId sh;
                 isInitialized := isInitialized sh;
                 requests := requests sh ++ snd r |}
          | Hang => with_requests (snd r) sh
          end
    end.

(** [conversations.map(c => c.id === id ? { ...c, title } : c)] *)
Definition retitle (id : string) (newTitle : string)
  (cs : list Conversation) : list Conversation :=
  map (fun c => if String.eqb (conv_id c) id then with_title newTitle c
                else c) cs.

(** The [onSuccess] shared by the two title mutations: the awaited write
    with its [.catch]. *)
Definition saveTitle (id : string) (newTitle : string) (w : World) : World :=
  snd (updateConversationsMutation B (retitle id newTitle (conversations w))
                                   w).

(** [generateChatTitleMutation], as started by [handleSendMessage]. *)
Definition generateChatTitleMutation (txt : string) (conversationId : string)
  (sh : Shell) : Shell :=
  let r := generateChatTitle gen txt (sh_world sh) in
  match fst r with
  | Ok title =>
      with_requests (snd r)
        (with_world (saveTitle conversationId title (sh_world sh)) sh)
  | _ => with_requests (snd r) sh
  end.

Definition set_renaming (v : option string) (sh : Shell) : Shell :=
  {| sh_world := sh_world sh; storedApiKey := storedApiKey sh;
     tempApiKey := tempApiKey sh; isVerifyingApiKey := isVerifyingApiKey sh;
     apiKeyError := apiKeyError sh;
     renamingConversationId := v;
     isInitialized := isInitialized sh; requests := requests sh |}.

(** [handleGenerateTitle] followed by [generateTitleMutation] to
    completion. *)
Definition handleGenerateTitle (id : string) (sh : Shell) : Shell :=
  if Js.truthyO (renamingConversationId sh) then sh
  else
    let sh1 := set_renaming (Some id) sh in
    let w := sh_world sh in
    match conversationsMap w !! id with
    | Some conversation =>
        if (length (messages conversation) =? 0)%nat
        then set_renaming None sh1
        else
          let r := generateTitleFromHistory gen (messages conversation) w in
          match fst r with
          | Ok newTitle =>
              set_renaming None
                (with_requests (snd r)
                   (with_world (saveTitle id newTitle w) sh1))
          | Throw _ => set_renaming None (with_requests (snd r) sh1)
          | Hang => with_requests (snd r) sh1
          end
    | None => set_renaming None sh1
    end.

End Shell.

(* ================================================================== *)
(** ** Vocabulary of the further properties *)
(* ================================================================== *)


(** The code fragment and the code output a delta carries. *)
Definition chunkCode (c : Chunk) : string :=
  default "" (ch_executableCode c).

Definition chunkCodeResult (c : Chunk) : string :=
  default "" (ch_codeExecutionResult c).

(** A citation with a uri and a title. *)
Definition complete (s : Source) : Prop := uri s <> "" /\ title s <> "".

(** What the user does to the staged files: pick a batch, or remove the
    file at an index. *)
Inductive Staging :=
| Pick (newFiles : list File)
| Remove (indexToRemove : nat).

Definition stage (staged : list File) (a : Staging) : list File :=
  match a with
  | Pick newFiles => handleFileChange staged newFiles
  | Remove i => removeFile i staged
  end.

(** No batch of the picks holds two files of the same name. *)
Definition distinctBatches (acts : list Staging) : Prop :=
  Forall (fun a => match a with
                   | Pick newFiles => NoDup (map file_name newFiles)
                   | Remove _ => True
                   end) acts.

(** [w'] differs from [w] in the query cache and in what subscribers were
    shown, and in nothing else. *)
Definition sameButConversations (w w' : World) : Prop :=
  w' = set_observed (observed w') (set_queryData (queryData w') w).

(** A call of the Files API. *)
Definition fileCall (c : Call) : bool :=
  match c with
  | FilesUpload _ | FilesGet _ => true
  | _ => false
  end.

(** [w'] is [w] with the calls [pre] added to the log, and whatever the
    query cache was given meanwhile. *)
Definition processed (w : World) (pre : list Call) (w' : World) : Prop :=
  sameButConversations (set_calls (calls w ++ pre) w) w'.

(** The message part made of a file sent inline. *)
Definition inlinePart (f : File) : Part :=
  PInlineData (default "" (file_data f)) (file_type f).

(** A file small enough to be sent inline, and readable. *)
Definition inlineable (f : File) : Prop :=
  (file_size f >? MAX_INLINE_SIZE_BYTES)%Z = false /\ file_data f <> None.

(** The call that tears the active cache down, if there is one. *)
Definition teardownCalls (w : World) : list Call :=
  match activeCache w with
  | Some c => [CachesDelete (cache_name c)]
  | None => []
  end.

(** The backend model a logical model name stands for. *)
Definition backendModel (name : string) : string :=
  if Js.includes name "-maps" then "gemini-2.5-flash-lite" else name.

(** The one file of the send is a PDF (the send then takes the
    context-cache path when that file is large). *)
Definition singlePdf (f : File) (rest : list File) : bool :=
  match rest with
  | [] => String.eqb (file_type f) "application/pdf"
  | _ => false
  end.

(** The store accepts every write and every removal. *)
Definition storageAccepts (B : Backend) : Prop :=
  (forall p, setItemOutcome B p = WriteOk) /\ removeItemThrows B = false.

(** What an accepted write of [cs] leaves in the [chatHistory] slot. *)
Definition storedPayload (cs : list Conversation) : option StoredPayload :=
  if (0 <? length cs)%nat
  then Some (ParsedArray (map toRaw (conversationsToSave cs)))
  else None.

(** The teardown of a cache always answers, with success or a failure. *)
Definition teardownSettles (B : Backend) : Prop :=
  forall l, deleteAnswer B l <> Hang.

(** The conversation [handleNewChat] creates. *)
Definition freshConversation (now : Clock) (m : ModelId) : Conversation :=
  {| conv_id := pretty (dateNow now); conv_title := "New Chat";
     messages := createInitialMessages true now; model := m |}.

(** The token is held only while the loading flag is raised. *)
Definition tokenUnderLoading (w : World) : Prop :=
  activeStreamingRef w = None \/ isLoading w = true.

(** The conversation has not had a message of the user yet. *)
Definition noUserMessage (c : Conversation) : bool :=
  (length (List.filter (fun m => bool_decide (sender m = user)) (messages c))
   =? 0)%nat.

(** The number of occurrences of a character in a string. *)
Fixpoint countChar (c : ascii) (s : string) : nat :=
  match s with
  | String d s' => (if Ascii.eqb d c then 1 else 0) + countChar c s'
  | EmptyString => 0
  end.

(** The request [generateChatTitle] makes for [prompt] with the client of
    key [key]. *)
Definition titleRequest (key prompt : string) : GenRequest :=
  {| gr_apiKey := key; gr_model := "gemini-2.5-flash-lite";
     gr_contents := prompt; gr_instruction := Some TitleGeneration |}.

(** The request [verifyApiKey] makes for a key. *)
Definition verifyRequest (key : string) : GenRequest :=
  {| gr_apiKey := Js.trim key; gr_model := "gemini-2.5-flash-lite";
     gr_contents := "test"; gr_instruction := None |}.

(** No message of any conversation of the list is a streaming
    placeholder. *)
Definition quiet (cs : list Conversation) : Prop :=
  Forall (fun c => Forall (fun m => isStreamingPlaceholder m = false)
                          (messages c)) cs.

(* ================================================================== *)
(** ** Sample data for the worked examples *)
(* ================================================================== *)

Module Sample.

Definition clockA : Clock :=
  {| dateNow := 1000; formattedTimestamp := "Mon, Nov 2, 2026, 09:00:00 AM";
     performanceNow := 5000 |}.

Definition clockB : Clock :=
  {| dateNow := 2000; formattedTimestamp := "Mon, Nov 2, 2026, 09:00:05 AM";
     performanceNow := 9000 |}.

Definition clockC : Clock :=
  {| dateNow := 3000; formattedTimestamp := "Mon, Nov 2, 2026, 09:01:00 AM";
     performanceNow := 60000 |}.

Definition clockD : Clock :=
  {| dateNow := 4000; formattedTimestamp := "Mon, Nov 2, 2026, 09:01:05 AM";
     performanceNow := 65000 |}.

Definition usage : UsageMetadata :=
  {| promptTokenCount := Some 3%Z; candidatesTokenCount := Some 4%Z;
     totalTokenCount := Some 7%Z; thoughtsTokenCount := None;
     cachedContentTokenCount := None; toolUsePromptTokenCount := None;
     promptTokensDetails := None; toolUsePromptTokensDetails := None |}.

Definition textPart (s : string) : RawPart :=
  {| p_text := Some s; p_thought := false; p_executableCode := None;
     p_codeExecutionResult := None; p_inlineData := None |}.

Definition thoughtPart (s : string) : RawPart :=
  {| p_text := Some s; p_thought := true; p_executableCode := None;
     p_codeExecutionResult := None; p_inlineData := None |}.

Definition rawOf (ps : list RawPart) (u : option UsageMetadata) : RawChunk :=
  {| rc_usageMetadata := u; rc_parts := Some ps; rc_urlMetadata := None;
     rc_groundingChunks := None |}.


Definition readyFile : FileInfo :=
  {| fi_name := Some "files/1"; fi_state := ACTIVE;
     fi_mimeType := Some "application/pdf";
     fi_uri := Some "https://files/1" |}.

(** A backend that answers every call, streaming [chunks] and then
    ending the stream with [err]. *)
Definition backend (chunks : list RawChunk) (err : option string)
  (deleteOk : bool) : Backend :=
  {| deleteAnswer := fun _ => if deleteOk then Ok tt
                              else Throw "cache not found";
     uploadAnswer := fun _ => Ok readyFile;
     getAnswer := fun _ => Ok readyFile;
     createCacheAnswer :=
       fun _ => Ok {| cache_name := Some "cachedContents/new" |};
     streamAnswer := fun _ => Ok {| sa_chunks := chunks; sa_error := err |};
     imageAnswer :=
       fun _ => Ok {| ia_parts := Some []; ia_usageMetadata := None |};
     setItemOutcome := fun _ => WriteOk;
     removeItemThrows := false |}.

Definition greeting : Message :=
  plainMessage "900-ai" ai "Welcome back." "Mon, Nov 2, 2026, 08:00:00 AM".

Definition question : Message :=
  plainMessage "900" user "Hi" "Mon, Nov 2, 2026, 08:00:00 AM".

Definition convA : Conversation :=
  {| conv_id := "A"; conv_title := "First"; messages := [question; greeting];
     model := gemini_2_5_flash |}.

Definition convB : Conversation :=
  {| conv_id := "B"; conv_title := "Second"; messages := [];
     model := gemini_2_5_flash |}.

(** A running client: key set, conversation [A] active, nothing
    streaming, a flash session open. *)
Definition world : World :=
  {| queryData := Some [convA; convB];
     chatHistoryItem := Some (ParsedArray (map toRaw [convA; convB]));
     activeConversationId := Some "A";
     isLoading := false;
     selectedModel := gemini_2_5_flash;
     activeModel := gemini_2_5_flash;
     isProSession := false;
     aspectRatio := "16:9";
     apiKey := Some "key";
     showApiKeyModal := false;
     fileErrors := [];
     storageError := None;
     activeStreamingRef := None;
     aiClient := Some "key";
     chat := Some {| cs_model := "gemini-2.5-flash";
                     cs_tools := [googleSearch; urlContext; codeExecution];
                     cs_cachedContent := None;
                     cs_systemInstruction := None;
                     cs_history := mapMessagesToHistory [question; greeting]
                  |};
     activeCache := None;
     currentModelName := "gemini-2.5-flash";
     calls := [];
     started := [];
     observed := [] |}.

Definition photo : File :=
  {| file_name := "cat.png"; file_size := 1024; file_type := "image/png";
     file_data := Some "aGVsbG8=" |}.

Definition hugeVideo : File :=
  {| file_name := "film.png"; file_size := 60 * 1024 * 1024;
     file_type := "image/png"; file_data := Some "" |}.

Definition note : File :=
  {| file_name := "notes.txt"; file_size := 10; file_type := "text/plain";
     file_data := Some "" |}.

End Sample.

(* ================================================================== *)
(** * Properties *)
(* ================================================================== *)

(* ------------------------------------------------------------------ *)
(** ** The string primitives on small inputs *)
(* ------------------------------------------------------------------ *)

Example endsWith_samples :
  Js.endsWith "1000-ai" "-ai" = true /\ Js.endsWith "1000" "-ai" = false /\
  Js.endsWith "ai" "-ai" = false /\ Js.endsWith "initial-7" "-ai" = false.
Proof. repeat split. Qed.

Example includes_samples :
  Js.includes "gemini-2.5-flash-lite-maps" "-maps" = true /\
  Js.includes "gemini-2.5-flash-lite" "-maps" = false /\
  Js.includes "400 API key not valid. Please pass a valid API key."
              "API key not valid" = true.
Proof. repeat split. Qed.

Example hasUrl_samples :
  hasUrl "see https://example.org/a" = true /\
  hasUrl "HTTP://Ab" = true /\
  hasUrl "http://" = false /\
  hasUrl "http:///x" = false /\
  hasUrl "https://a" = false /\
  hasUrl "no link here" = false /\
  hasUrl ("http://" +:+ Js.text [160; 120]%N) = false /\
  hasUrl ("http://" +:+ Js.text [233]%N) = false /\
  hasUrl ("http://" +:+ Js.text [233; 97]%N) = true /\
  hasUrl ("http://a" +:+ Js.text [8232]%N) = false /\
  hasUrl ("http://" +:+ Js.text [128512]%N) = true.
Proof. repeat split. Qed.

(** The decoder reads every white-space character as one code unit of
    the class [\s], and [trim] removes them at both ends only. *)
Example trim_samples :
  map (fun cp => Js.codeUnits (Js.text [cp])) Js.spaceCodes
    = map (fun cp => [cp]) Js.spaceCodes /\
  forallb Js.isSpace Js.spaceCodes = true /\
  Js.trim (Js.text [32; 160; 104; 32; 105; 12288; 10; 65279]%N) = "h i" /\
  Js.isBlank (Js.text [32; 160; 12288; 10; 65279]%N) = true /\
  Js.isBlank "" = true /\
  Js.isBlank " a " = false.
Proof. repeat split. Qed.

Example afterLastSep_samples :
  afterLastSep "https://example.org/a" "" = "example.org/a" /\
  afterLastSep "a///b" "" = "/b" /\
  afterLastSep "plain" "" = "plain" /\
  afterLastSep "https://" "" = "".
Proof. repeat split. Qed.

Example modelOfName_samples :
  modelOfName "gemini-2.5-flash" = Some gemini_2_5_flash /\
  modelOfName "gpt-4" = None.
Proof. repeat split. Qed.

(* ------------------------------------------------------------------ *)
(** ** File intake *)
(* ------------------------------------------------------------------ *)

Lemma validateSingleFile_None f :
  validateSingleFile f = None <-> fileAccepted f = true.
Proof.
  unfold validateSingleFile, fileAccepted.
  destruct (file_size f >? MAX_FILE_SIZE)%Z; simpl; [split; discriminate|].
  destruct (typeAllowed f); simpl; split; congruence.
Qed.

Lemma validateStep_spec acc f :
  validateStep acc f =
  {| valid := valid acc ++ (if fileAccepted f then [f] else []);
     errors := errors acc ++
               from_option (fun e => [e]) [] (validateSingleFile f) |}.
Proof.
  unfold validateStep, validateSingleFile, fileAccepted.
  destruct (file_size f >? MAX_FILE_SIZE)%Z; simpl.
  - by rewrite app_nil_r.
  - destruct (typeAllowed f); simpl; by rewrite app_nil_r.
Qed.

Lemma validateFiles_fold fs acc :
  fold_left validateStep fs acc =
  {| valid := valid acc ++ List.filter fileAccepted fs;
     errors := errors acc ++ omap validateSingleFile fs |}.
Proof.
  revert acc. induction fs as [|f fs IH]; intros acc; simpl.
  - rewrite !app_nil_r. by destruct acc.
  - rewrite IH, validateStep_spec. simpl. rewrite <- !app_assoc. f_equal.
    + f_equal. by destruct (fileAccepted f).
    + f_equal. by destruct (validateSingleFile f).
Qed.

Lemma validateFiles_valid fs :
  valid (validateFiles fs) = List.filter fileAccepted fs.
Proof. unfold validateFiles. by rewrite validateFiles_fold. Qed.

Lemma validateFiles_errors fs :
  errors (validateFiles fs) = omap validateSingleFile fs.
Proof. unfold validateFiles. by rewrite validateFiles_fold. Qed.

Lemma prefix_append (a b : string) : String.prefix a (a +:+ b) = true.
Proof.
  induction a as [|c a IH]; simpl.
  - by destruct b.
  - destruct (ascii_dec c c); [done | congruence].
Qed.

Lemma validateSingleFile_names f e :
  validateSingleFile f = Some e -> Js.startsWith e (file_name f) = true.
Proof.
  unfold validateSingleFile, Js.startsWith.
  destruct (file_size f >? MAX_FILE_SIZE)%Z.
  - intros [= <-]. apply prefix_append.
  - destruct (typeAllowed f); simpl; [discriminate|].
    intros [= <-]. apply prefix_append.
Qed.

Lemma fileAccepted_spec f :
  fileAccepted f = true <->
  (file_size f <= 50 * 1024 * 1024)%Z /\
  (Js.startsWith (file_type f) "image/" = true \/
   Js.startsWith (file_type f) "application/pdf" = true).
Proof.
  unfold fileAccepted, typeAllowed, ALLOWED_FILE_TYPES, MAX_FILE_SIZE.
  cbn [existsb]. rewrite orb_false_r.
  rewrite andb_true_iff, negb_true_iff, orb_true_iff, Z.gtb_ltb, Z.ltb_ge.
  reflexivity.
Qed.

Lemma handleFileChange_fresh fs :
  handleFileChange [] fs = valid (validateFiles fs).
Proof.
  rewrite validateFiles_valid. unfold handleFileChange. simpl.
  induction fs as [|f fs IH]; [done|].
  rewrite filter_cons. simpl.
  destruct (validateSingleFile f) eqn:E; simpl.
  - assert (fileAccepted f = false) as ->.
    { destruct (fileAccepted f) eqn:A; [|done].
      apply validateSingleFile_None in A. congruence. }
    exact IH.
  - apply validateSingleFile_None in E. rewrite E. simpl. by rewrite IH.
Qed.

Lemma errors_nil_all_valid fs :
  errors (validateFiles fs) = [] -> valid (validateFiles fs) = fs.
Proof.
  rewrite validateFiles_errors, validateFiles_valid.
  induction fs as [|f fs IH]; [done|]. simpl.
  destruct (validateSingleFile f) eqn:E; [discriminate|].
  apply validateSingleFile_None in E. rewrite E. intros H. by rewrite IH.
Qed.
Lemma accepted_pass fs :
  Forall (fun f => fileAccepted f = true) fs ->
  errors (validateFiles fs) = [] /\ valid (validateFiles fs) = fs.
Proof.
  intros H. assert (errors (validateFiles fs) = []) as He.
  { rewrite validateFiles_errors. induction H as [|f fs Hf _ IH]; [done|].
    simpl. apply validateSingleFile_None in Hf. by rewrite Hf. }
  split; [done | by apply errors_nil_all_valid].
Qed.

(** C10.  [validateFiles] decides file by file: the accepted files are
    exactly those within 50MB whose declared type starts with [image/] or
    [application/pdf], in their order, and every other file yields one
    message that starts with its name.  The file picker of the input
    decides by the same test, so that of a mixed batch it stages exactly
    the files [validateFiles] accepts; on the staged files the validation
    of [handleSendMessage] reports no error, and the send it starts (a key
    is set, the active conversation exists, no other conversation is
    streaming) carries every accepted file of the batch. *)
Theorem valid_files_of_a_batch_are_sent
  (B : Backend) (txt : string) (picked : list File) (now : Clock) (w : World)
  (c : Conversation) (cid : string) :
  let staged := handleFileChange [] picked in
  valid (validateFiles picked) = List.filter fileAccepted picked /\
  errors (validateFiles picked) = omap validateSingleFile picked /\
  (forall f, fileAccepted f = true <->
             (file_size f <= 50 * 1024 * 1024)%Z /\
             (Js.startsWith (file_type f) "image/" = true \/
              Js.startsWith (file_type f) "application/pdf" = true)) /\
  (forall f, fileAccepted f = false ->
             exists e, validateSingleFile f = Some e /\
                       Js.startsWith e (file_name f) = true) /\
  staged = valid (validateFiles picked) /\
  errors (validateFiles staged) = [] /\
  (Js.truthyO (apiKey w) = true ->
   activeConversation w = Some c ->
   activeConversationId w = Some cid -> cid <> "" ->
   activeStreamingRef w = None \/ activeStreamingRef w = Some cid ->
   exists vars h w',
     handleSendMessage B txt staged now w = (Some (vars, h), w') /\
     sv_files vars = valid (validateFiles picked) /\
     last (started w') = Some (SendMessage vars) /\
     fileErrors w' = []).
Proof.
  intros staged.
  assert (staged = valid (validateFiles picked)) as Hstaged
    by apply handleFileChange_fresh.
  assert (errors (validateFiles staged) = [] /\
          valid (validateFiles staged) = staged) as [Herr Hvalid].
  { apply accepted_pass. rewrite Hstaged, validateFiles_valid.
    apply Forall_forall. intros f Hf. apply list_elem_of_In in Hf.
    apply filter_In in Hf. tauto. }
  split; [apply validateFiles_valid|].
  split; [apply validateFiles_errors|].
  split; [apply fileAccepted_spec|].
  split.
  { intros f Hf. destruct (validateSingleFile f) as [e|] eqn:E.
    - exists e. split; [done|]. by apply validateSingleFile_names.
    - apply validateSingleFile_None in E. congruence. }
  split; [exact Hstaged|]. split; [exact Herr|].
  intros Hkey Hc Hid Hne Href. unfold handleSendMessage.
  rewrite Hkey, Herr, Hvalid, Hc, Hid. cbn [negb length Nat.ltb Nat.leb].
  assert (Js.truthy cid = true) as ->.
  { unfold Js.truthy. by destruct (String.eqb_spec cid ""). }
  assert (Js.present (activeStreamingRef w)
          && negb (refIs (activeStreamingRef w) cid) = false) as ->.
  { destruct Href as [-> | ->]; [done|]. cbn. by rewrite String.eqb_refl. }
  cbn [negb]. eexists _, _, _. split; [reflexivity|].
  cbn [sv_files started set_started fileErrors set_activeStreamingRef
       set_isLoading]. rewrite last_snoc.
  split; [exact Hstaged|]. split; [done|].
  destruct (_ && (_ || _)); [|done].
  by destruct (_ && negb (Js.isBlank txt)).
Qed.

Lemma valid_files_of_a_batch_are_sent_witness :
  let picked := [Sample.photo; Sample.hugeVideo; Sample.note] in
  handleFileChange [] picked = [Sample.photo] /\
  exists vars h w',
    handleSendMessage (Sample.backend [] None true) "look"
                      (handleFileChange [] picked) Sample.clockA Sample.world
    = (Some (vars, h), w') /\
    sv_files vars = [Sample.photo] /\
    last (started w') = Some (SendMessage vars).
Proof.
  intros picked.
  destruct (valid_files_of_a_batch_are_sent
              (Sample.backend [] None true) "look" picked Sample.clockA
              Sample.world Sample.convA "A")
    as (_ & _ & _ & _ & H1 & _ & H2).
  split; [exact H1|].
  destruct H2 as (vars & h & w' & E1 & E2 & E3 & _);
    [reflexivity | reflexivity | reflexivity | discriminate | by left|].
  exists vars, h, w'. split; [exact E1|]. split; [exact E2 | exact E3].
Defined.

(* ------------------------------------------------------------------ *)
(** ** Conversation repository *)
(* ------------------------------------------------------------------ *)

Lemma append_nil_r (s : string) : s +:+ "" = s.
Proof.
  induction s as [|x s IH]; [done|].
  change (String x (s +:+ "") = String x s). by rewrite IH.
Qed.

Lemma append_assoc (a b c : string) : (a +:+ b) +:+ c = a +:+ (b +:+ c).
Proof.
  induction a as [|x a IH]; [done|].
  change (String x ((a +:+ b) +:+ c) = String x (a +:+ (b +:+ c))).
  by rewrite IH.
Qed.

Lemma truthyO_default (o : option string) :
  Js.truthyO o = false -> default "" o = "".
Proof.
  destruct o as [s|]; simpl; [|done]. unfold Js.truthy.
  destruct (String.eqb_spec s ""); [done | discriminate].
Qed.

(** [applyChunk] touches neither the identifier, the sender nor the
    completion timestamp. *)
Lemma applyChunk_frame chunk m :
  msg_id (applyChunk chunk m) = msg_id m /\
  sender (applyChunk chunk m) = sender m /\
  timestamp (applyChunk chunk m) = timestamp m.
Proof.
  unfold applyChunk.
  destruct (Js.truthyO (ch_text chunk)), (Js.truthyO (ch_thought chunk)),
    (Js.truthyO (ch_executableCode chunk)),
    (Js.truthyO (ch_codeExecutionResult chunk)),
    (ch_codeExecutionImages chunk), (ch_sources chunk),
    (ch_generatedImages chunk); done.
Qed.

Lemma applyChunk_placeholder chunk m :
  isStreamingPlaceholder (applyChunk chunk m) = isStreamingPlaceholder m.
Proof.
  unfold isStreamingPlaceholder.
  destruct (applyChunk_frame chunk m) as (-> & _ & ->). done.
Qed.

Lemma with_messages_id c : with_messages (messages c) c = c.
Proof. by destruct c. Qed.

(** Where no message is a placeholder, patching changes nothing. *)
Lemma patchMessages_none chunk ms :
  Forall (fun m => isStreamingPlaceholder m = false) ms ->
  patchMessages chunk ms = ms.
Proof.
  induction 1 as [|m ms Hm _ IH]; [done|].
  unfold patchMessages in *. simpl. by rewrite Hm, IH.
Qed.

Lemma placeholder_pending m :
  idTagged m -> isStreamingPlaceholder m = true -> isPending m = true.
Proof.
  unfold idTagged, isStreamingPlaceholder, isPending, Js.truthy.
  intros Htag [Hid Hts]%andb_true_iff.
  rewrite negb_involutive in Hts. rewrite Hts, (Htag Hid).
  by rewrite bool_decide_eq_true_2.
Qed.

Lemma patchConversations_none cid chunk cs :
  Forall (fun m => isStreamingPlaceholder m = false) (messagesOf cid cs) ->
  patchConversations cid chunk cs = cs.
Proof.
  unfold messagesOf, patchConversations.
  induction cs as [|c cs IH]; [done|]. simpl.
  destruct (String.eqb (conv_id c) cid); simpl.
  - intros [H1 H2]%Forall_app. rewrite IH by done.
    by rewrite patchMessages_none, with_messages_id.
  - intros H. by rewrite IH.
Qed.

Lemma patchMessages_patched chunk ms :
  Forall2 (patched chunk) ms (patchMessages chunk ms).
Proof.
  unfold patchMessages.
  induction ms as [|m ms IH]; simpl; constructor; [|exact IH].
  unfold patched. destruct (isStreamingPlaceholder m) eqn:E.
  - split; [discriminate|]. apply applyChunk_frame.
  - done.
Qed.

Lemma patchConversations_frame cid chunk cs :
  Forall2 (fun c c' =>
             conv_id c' = conv_id c /\ conv_title c' = conv_title c /\
             model c' = model c /\
             (conv_id c <> cid -> c' = c) /\
             Forall2 (patched chunk) (messages c) (messages c'))
          cs (patchConversations cid chunk cs).
Proof.
  unfold patchConversations.
  induction cs as [|c cs IH]; simpl; constructor; [|exact IH].
  destruct (String.eqb_spec (conv_id c) cid) as [E|E]; simpl.
  - repeat split; [congruence | apply patchMessages_patched].
  - repeat split. apply Forall2_same_length_lookup. split; [done|].
    intros i x y Hx Hy. assert (x = y) as -> by congruence.
    by unfold patched.
Qed.

(** C9 (as amended).  [updateStreamingMessage] is a total function of
    the state.  It writes the query cache only: every other component of
    the state is left as it was.  What it looks for is a message whose
    identifier ends in [-ai] and whose timestamp is empty; the sender is
    not consulted.  When the target conversation holds no such message the
    conversation list read afterwards is the list read before (and the
    cache, when it held a list, holds the same list); with identifiers
    tagged by sender that is the case when the conversation holds no [ai]
    message with an empty timestamp.  In every case the list keeps its
    length and order, conversations other than the target are unchanged,
    and inside the target a message that is not an [-ai] placeholder with
    an empty timestamp (so, with tagged identifiers, every user message,
    and every finalized message) is unchanged. *)
Theorem updateStreamingMessage_noop_and_frame
  (conversationId : string) (chunk : Chunk) (w : World) :
  let w' := updateStreamingMessage conversationId chunk w in
  (Forall (fun m => isStreamingPlaceholder m = false)
          (messagesOf conversationId (conversations w)) ->
   conversations w' = conversations w /\
   (forall cs, queryData w = Some cs -> queryData w' = Some cs)) /\
  (Forall idTagged (messagesOf conversationId (conversations w)) ->
   Forall (fun m => isPending m = false)
          (messagesOf conversationId (conversations w)) ->
   conversations w' = conversations w /\
   (forall cs, queryData w = Some cs -> queryData w' = Some cs)) /\
  Forall2 (fun c c' =>
             conv_id c' = conv_id c /\ conv_title c' = conv_title c /\
             model c' = model c /\
             (conv_id c <> conversationId -> c' = c) /\
             Forall2 (fun m m' =>
                        (isStreamingPlaceholder m = false -> m' = m) /\
                        (idTagged m -> sender m = user -> m' = m) /\
                        (timestamp m <> "" -> m' = m) /\
                        msg_id m' = msg_id m /\ sender m' = sender m /\
                        timestamp m' = timestamp m)
                     (messages c) (messages c'))
          (conversations w) (conversations w') /\
  chatHistoryItem w' = chatHistoryItem w /\
  activeStreamingRef w' = activeStreamingRef w /\
  calls w' = calls w /\ started w' = started w /\
  activeCache w' = activeCache w /\ chat w' = chat w /\
  isLoading w' = isLoading w /\ isProSession w' = isProSession w /\
  fileErrors w' = fileErrors w /\ storageError w' = storageError w.
Proof.
  intros w'. subst w'. unfold updateStreamingMessage, conversations.
  cbn [setQueryData set_observed set_queryData queryData chatHistoryItem
       activeStreamingRef calls started activeCache chat isLoading
       isProSession fileErrors storageError default from_option].
  assert (Forall (fun m => isStreamingPlaceholder m = false)
                 (messagesOf conversationId (default [] (queryData w))) ->
          patchConversations conversationId chunk (default [] (queryData w))
            = default [] (queryData w) /\
          (forall cs, queryData w = Some cs ->
                      Some (patchConversations conversationId chunk
                              (default [] (queryData w))) = Some cs))
    as Hnone.
  { intros Hall. pose proof (patchConversations_none _ chunk _ Hall) as Heq.
    split; [exact Heq|].
    intros cs Hcs. rewrite Hcs in Heq |- *. simpl in Heq |- *.
    by rewrite Heq. }
  split; [exact Hnone|]. split; [|split; [|repeat split]].
  - intros Htag Hpend. apply Hnone.
    rewrite Forall_forall in Htag, Hpend. apply Forall_forall.
    intros m Hm. destruct (isStreamingPlaceholder m) eqn:E; [|done].
    specialize (Hpend m Hm).
    rewrite (placeholder_pending m (Htag m Hm) E) in Hpend.
    discriminate.
  - eapply Forall2_impl; [apply patchConversations_frame|].
    intros c c' (? & ? & ? & ? & Hm). repeat split; try done.
    eapply Forall2_impl; [exact Hm|].
    intros m m' (Hsame & ? & ? & ?). repeat split; try done.
    + intros Htag Huser. apply Hsame.
      destruct (isStreamingPlaceholder m) eqn:E; [|done].
      pose proof (placeholder_pending m Htag E) as Hp.
      unfold isPending in Hp. rewrite Huser in Hp.
      rewrite bool_decide_eq_false_2 in Hp by discriminate. done.
    + intros Hts. apply Hsame. unfold isStreamingPlaceholder, Js.truthy.
      destruct (String.eqb_spec (timestamp m) ""); [done|].
      by rewrite andb_false_r.
Qed.

Lemma updateStreamingMessage_noop_and_frame_witness :
  conversations (updateStreamingMessage "A" (textChunk "late") Sample.world)
  = conversations Sample.world.
Proof.
  destruct (updateStreamingMessage_noop_and_frame "A" (textChunk "late")
                                                  Sample.world)
    as (Hplain & Htagged & _).
  destruct Htagged as [H _].
  - vm_compute. repeat constructor; congruence.
  - vm_compute. repeat constructor.
  - destruct Hplain as [H' _]; [vm_compute; repeat constructor|].
    exact H.
Defined.

(** C9 (the claim as first stated fails).  A stored conversation may hold
    a user message whose identifier ends in [-ai] and whose timestamp is
    empty: [fetchConversations] returns the messages as it finds them.
    Conversation [B] loaded from such a store holds no [ai] message with
    an empty timestamp, yet a late delta for [B] is not a no-op: it appends
    its text to the user message. *)
Lemma stored_user_message_is_patched :
  let draft := plainMessage "7-ai" user "draft" "" in
  let stored :=
    set_chatHistoryItem
      (Some (ParsedArray [toRaw (with_messages [draft] Sample.convB)]))
      Sample.world in
  let loaded := fst (fetchConversations Sample.clockA stored) in
  let w := setQueryData loaded stored in
  let w' := updateStreamingMessage "B" (textChunk "late") w in
  loaded = [with_messages [draft] Sample.convB] /\
  Forall (fun m => isPending m = false) (messagesOf "B" (conversations w)) /\
  conversations w' =
    [with_messages [with_text "draftlate" draft] Sample.convB] /\
  conversations w' <> conversations w.
Proof. vm_compute. repeat split; [repeat constructor | discriminate]. Qed.
(* ------------------------------------------------------------------ *)
(** ** The identifier discipline of client-made messages *)
(* ------------------------------------------------------------------ *)

Lemma length_append (a b : string) :
  String.length (a +:+ b) = String.length a + String.length b.
Proof.
  induction a as [|c a IH]; [done|].
  change (S (String.length (a +:+ b)) = S (String.length a + String.length b)).
  by rewrite IH.
Qed.

(** A string that ends with [-ai] has [i] as its last character. *)
Lemma endsWith_ai_last (s : string) :
  Js.endsWith s "-ai" = true ->
  get (String.length s - 1) s = Some "i"%char.
Proof.
  unfold Js.endsWith. cbn [String.length].
  destruct (3 <=? String.length s)%nat eqn:Hlen; [|discriminate].
  apply Nat.leb_le in Hlen. intros Heq%String.eqb_eq.
  pose proof (substring_correct1 s (String.length s - 3) 3 2 ltac:(lia)) as H.
  rewrite Heq in H. cbn [get] in H.
  replace (2 + (String.length s - 3)) with (String.length s - 1) in H by lia.
  by rewrite <- H.
Qed.

Lemma get_last_append (q : string) (d : ascii) :
  get (String.length (q +:+ String d "") - 1) (q +:+ String d "") = Some d.
Proof.
  rewrite length_append. cbn [String.length].
  replace (String.length q + 1 - 1) with (0 + String.length q) by lia.
  by rewrite <- append_correct2.
Qed.

Lemma pretty_N_go_suffix (x : N) (s : string) :
  exists p, pretty_N_go x s = p +:+ s.
Proof.
  revert s. induction (N.lt_wf_0 x) as [x _ IH]. intros s.
  destruct (decide (0 < x)%N) as [Hx|Hx].
  - rewrite pretty_N_go_step by done.
    destruct (IH (x `div` 10)%N ltac:(by apply N.div_lt)
                 (String (pretty_N_char (x `mod` 10)) s)) as [p ->].
    exists (p +:+ String (pretty_N_char (x `mod` 10)) "").
    by rewrite append_assoc.
  - assert (x = 0%N) as -> by lia. by exists "".
Qed.

Lemma pretty_N_char_digit (x : N) : pretty_N_char x <> "i"%char.
Proof. unfold pretty_N_char. by repeat case_match. Qed.

(** [Date.now().toString()] never carries the [-ai] tag. *)
Lemma dateNow_untagged (n : N) : Js.endsWith (pretty n) "-ai" = false.
Proof.
  destruct (Js.endsWith (pretty n) "-ai") eqn:E; [|done].
  apply endsWith_ai_last in E. exfalso.
  unfold pretty, pretty_N in E.
  destruct (decide (n = 0%N)) as [->|Hn]; [discriminate|].
  rewrite pretty_N_go_step in E by lia.
  destruct (pretty_N_go_suffix (n `div` 10)
              (String (pretty_N_char (n `mod` 10)) "")) as [p Hp].
  rewrite Hp, get_last_append in E.
  injection E as E. by apply pretty_N_char_digit in E.
Qed.

(** Every message the client makes follows the identifier discipline:
    the user's message, the placeholder and the greeting of a new chat. *)
Lemma client_messages_idTagged (now : Clock) (txt : string) (fs : list File)
  (hasKey : bool) :
  idTagged (mkUserMessage now txt fs) /\
  idTagged (mkPlaceholder now) /\
  Forall idTagged (createInitialMessages hasKey now).
Proof.
  unfold idTagged. split; [|split; [done | by repeat constructor]].
  intros H. exfalso.
  assert (msg_id (mkUserMessage now txt fs) = pretty (dateNow now)) as Hid.
  { unfold mkUserMessage. by destruct (0 <? length fs)%nat. }
  rewrite Hid, dateNow_untagged in H. discriminate.
Qed.

(* ------------------------------------------------------------------ *)
(** ** Folding a stream into the placeholder *)
(* ------------------------------------------------------------------ *)

Lemma join_app (xs ys : list string) :
  Js.join (xs ++ ys) = Js.join xs +:+ Js.join ys.
Proof.
  unfold Js.join. induction xs as [|x xs IH]; [done|].
  cbn [foldr app]. by rewrite IH, append_assoc.
Qed.

Lemma applyChunk_text chunk m :
  text (applyChunk chunk m) = text m +:+ chunkText chunk.
Proof.
  unfold applyChunk, chunkText.
  destruct (Js.truthyO (ch_text chunk)) eqn:Et;
    [|rewrite (truthyO_default _ Et), append_nil_r];
    destruct (Js.truthyO (ch_thought chunk)),
      (Js.truthyO (ch_executableCode chunk)),
      (Js.truthyO (ch_codeExecutionResult chunk)),
      (ch_codeExecutionImages chunk), (ch_sources chunk),
      (ch_generatedImages chunk); done.
Qed.

Lemma applyChunk_thoughts chunk m :
  default "" (thoughts (applyChunk chunk m)) =
  default "" (thoughts m) +:+ chunkThought chunk.
Proof.
  unfold applyChunk, chunkThought.
  assert (forall o, (if Js.truthyO o then default "" o else "") = default "" o)
    as Hbase.
  { intros o. destruct (Js.truthyO o) eqn:E; [done|].
    by rewrite truthyO_default. }
  destruct (Js.truthyO (ch_thought chunk)) eqn:Et;
    [|rewrite (truthyO_default _ Et), append_nil_r];
    destruct (Js.truthyO (ch_text chunk)),
      (Js.truthyO (ch_executableCode chunk)),
      (Js.truthyO (ch_codeExecutionResult chunk)),
      (ch_codeExecutionImages chunk), (ch_sources chunk),
      (ch_generatedImages chunk); cbn; try done; by rewrite Hbase.
Qed.

Lemma foldChunks_text chunks m :
  text (foldChunks chunks m) = text m +:+ Js.join (map chunkText chunks).
Proof.
  unfold foldChunks. revert m.
  induction chunks as [|c cs IH]; intros m; simpl.
  - by rewrite append_nil_r.
  - rewrite IH, applyChunk_text. by rewrite append_assoc.
Qed.

Lemma foldChunks_thoughts chunks m :
  default "" (thoughts (foldChunks chunks m)) =
  default "" (thoughts m) +:+ Js.join (map chunkThought chunks).
Proof.
  unfold foldChunks. revert m.
  induction chunks as [|c cs IH]; intros m; simpl.
  - by rewrite append_nil_r.
  - rewrite IH, applyChunk_thoughts. by rewrite append_assoc.
Qed.

Lemma foldChunks_placeholder chunks m :
  isStreamingPlaceholder (foldChunks chunks m) = isStreamingPlaceholder m.
Proof.
  unfold foldChunks. revert m.
  induction chunks as [|c cs IH]; intros m; simpl; [done|].
  by rewrite IH, applyChunk_placeholder.
Qed.

Lemma partEvents_text part : Js.join (map chunkText (partEvents part)) = "".
Proof.
  unfold partEvents.
  destruct (p_thought part), (p_executableCode part) as [[c|]|],
    (p_codeExecutionResult part) as [[o|]|];
    try destruct (Js.truthy c); try destruct (Js.truthy o); done.
Qed.

Lemma partsEvents_text ps :
  Js.join (map chunkText (concat (map partEvents ps))) = "".
Proof.
  induction ps as [|p ps IH]; [done|]. simpl.
  by rewrite map_app, join_app, partEvents_text, IH.
Qed.

(** The text a stream chunk contributes is the concatenation of its text
    parts: thought, code and code-output parts contribute none. *)
Lemma chunkEvents_text rc :
  Js.join (map chunkText (chunkEvents rc)) =
  textContent (default [] (rc_parts rc)).
Proof.
  unfold chunkEvents.
  rewrite !map_app, !join_app, partsEvents_text.
  assert (forall (b : bool) c, chunkText c = "" ->
            Js.join (map chunkText (if b then [c] else [])) = "") as Hnone.
  { intros [] c Hc; [|done]. cbn. by rewrite Hc. }
  rewrite !Hnone by done.
  rewrite append_nil_r. change ("" +:+ ?x) with x.
  destruct (rc_parts rc) as [ps|]; [|done].
  cbn [default from_option].
  destruct (Js.truthy (textContent ps)) eqn:Et.
  - destruct (List.filter isTextPart ps) eqn:Ef.
    + unfold textContent in Et. rewrite Ef in Et. discriminate.
    + change (textContent ps +:+ "" = textContent ps). apply append_nil_r.
  - rewrite andb_false_r. change ("" = textContent ps).
    unfold Js.truthy in Et. apply negb_false_iff in Et.
    apply String.eqb_eq in Et. by rewrite Et.
Qed.

Lemma patchConversations_fold cid chunks cs :
  fold_left (fun acc c => patchConversations cid c acc) chunks cs =
  mapConversation cid
    (fun m => if isStreamingPlaceholder m then foldChunks chunks m else m) cs.
Proof.
  revert cs. induction chunks as [|c chunks IH]; intros cs; simpl.
  - unfold mapConversation. induction cs as [|x cs IHcs]; [done|]. simpl.
    rewrite <- IHcs. destruct (String.eqb (conv_id x) cid); [|done].
    f_equal. rewrite <- (with_messages_id x) at 1. f_equal.
    induction (messages x) as [|m ms IHm]; [done|]. simpl.
    rewrite <- IHm. by destruct (isStreamingPlaceholder m).
  - rewrite IH. unfold mapConversation, patchConversations.
    rewrite map_map. apply map_ext. intros x.
    destruct (String.eqb (conv_id x) cid) eqn:E; simpl; rewrite E; [|done].
    unfold with_messages. simpl. f_equal.
    unfold patchMessages. rewrite map_map. apply map_ext. intros m.
    destruct (isStreamingPlaceholder m) eqn:Em.
    + by rewrite applyChunk_placeholder, Em.
    + by rewrite Em.
Qed.

(** Deltas delivered while the token points at the conversation. *)
Lemma guardedUpdate_fold cid chunks w :
  refIs (activeStreamingRef w) cid = true ->
  conversations (snd (forEachM (guardedUpdate cid) chunks w)) =
  fold_left (fun acc c => patchConversations cid c acc) chunks
            (conversations w) /\
  fst (forEachM (guardedUpdate cid) chunks w) = Ok tt.
Proof.
  revert w. induction chunks as [|c chunks IH]; intros w Href; [done|].
  cbn [forEachM fold_left]. unfold mbind, M_bind.
  unfold guardedUpdate at 1 3. rewrite Href.
  apply (IH (updateStreamingMessage cid c w)). exact Href.
Qed.

Lemma partEvents_thought part :
  Js.join (map chunkThought (partEvents part)) =
  if p_thought part then default "" (p_text part) else "".
Proof.
  unfold partEvents.
  destruct (p_thought part), (p_executableCode part) as [[c|]|],
    (p_codeExecutionResult part) as [[o|]|];
    try destruct (Js.truthy c); try destruct (Js.truthy o);
    cbn; by rewrite ?append_nil_r.
Qed.

Lemma partsEvents_thought ps :
  Js.join (map chunkThought (concat (map partEvents ps))) =
  Js.join (map (fun p => default "" (p_text p)) (List.filter p_thought ps)).
Proof.
  induction ps as [|p ps IH]; [done|]. cbn [map concat List.filter].
  rewrite map_app, join_app, partEvents_thought, IH.
  by destruct (p_thought p).
Qed.

(** The reasoning a stream chunk contributes is the concatenation of the
    texts of its thought parts: nothing else is delivered as a thought. *)
Lemma chunkEvents_thought rc :
  Js.join (map chunkThought (chunkEvents rc)) =
  Js.join (map (fun p => default "" (p_text p))
               (List.filter p_thought (default [] (rc_parts rc)))).
Proof.
  unfold chunkEvents.
  rewrite !map_app, !join_app, partsEvents_thought.
  assert (forall (b : bool) c, chunkThought c = "" ->
            Js.join (map chunkThought (if b then [c] else [])) = "") as Hnone.
  { intros [] c Hc; [|done]. cbn. by rewrite Hc. }
  rewrite !Hnone by done.
  destruct (rc_parts rc) as [ps|]; [|done].
  rewrite Hnone by done. by rewrite !append_nil_r.
Qed.

Lemma join_concat {A} (f : A -> string) (xss : list (list A)) :
  Js.join (map f (concat xss)) =
  Js.join (map (fun xs => Js.join (map f xs)) xss).
Proof.
  induction xss as [|xs xss IH]; [done|]. cbn [concat map].
  rewrite map_app, join_app, IH. done.
Qed.

(** C4.  Folding deltas into a message appends each text fragment to the
    text and each reasoning fragment to the reasoning trace, in arrival
    order.  Of a stream chunk, the plain text parts and nothing else are
    delivered as text, and the thought parts and nothing else as
    reasoning; so a whole stream leaves in the placeholder the texts of
    its plain text parts and the texts of its thought parts, each in
    arrival order.  In the repository the fold reaches exactly the
    streaming placeholder of the target conversation.  The stream whose
    chunks carry the text parts "Hel" and "lo", the thought part "thinking"
    and the text part "!" is delivered as the four deltas of the example,
    which turn the empty placeholder into the text "Hello!" with the
    reasoning trace "thinking", also when [streamGeminiResponse] runs on
    that stream. *)
Theorem stream_fold_concatenates :
  (forall chunks m,
     text (foldChunks chunks m) = text m +:+ Js.join (map chunkText chunks) /\
     default "" (thoughts (foldChunks chunks m)) =
     default "" (thoughts m) +:+ Js.join (map chunkThought chunks)) /\
  (forall rc,
     Js.join (map chunkText (chunkEvents rc)) =
     Js.join (map (fun p => default "" (p_text p))
                  (List.filter
                     (fun p => Js.truthyO (p_text p) && negb (p_thought p)
                               && negb (Js.present (p_executableCode p))
                               && negb (Js.present (p_codeExecutionResult p)))
                     (default [] (rc_parts rc))))) /\
  (forall rc,
     Js.join (map chunkThought (chunkEvents rc)) =
     Js.join (map (fun p => default "" (p_text p))
                  (List.filter p_thought (default [] (rc_parts rc))))) /\
  (forall rcs m,
     text (foldChunks (streamEvents rcs) m) =
     text m +:+
     Js.join (map (fun rc => textContent (default [] (rc_parts rc))) rcs) /\
     default "" (thoughts (foldChunks (streamEvents rcs) m)) =
     default "" (thoughts m) +:+
     Js.join (map (fun rc =>
                     Js.join (map (fun p => default "" (p_text p))
                                  (List.filter p_thought
                                     (default [] (rc_parts rc))))) rcs)) /\
  (forall cid chunks w,
     conversations
       (fold_left (fun acc c => updateStreamingMessage cid c acc) chunks w) =
     mapConversation cid
       (fun m => if isStreamingPlaceholder m then foldChunks chunks m else m)
       (conversations w)) /\
  (forall now,
     let m := foldChunks [textChunk "Hel"; textChunk "lo";
                          thoughtChunk (Some "thinking"); textChunk "!"]
                         (mkPlaceholder now) in
     text m = "Hello!" /\ thoughts m = Some "thinking") /\
  (let w := snd (forEachM
                   (guardedUpdate "A")
                   [textChunk "Hel"; textChunk "lo";
                    thoughtChunk (Some "thinking"); textChunk "!"]
                   (set_activeStreamingRef (Some "A")
                      (setQueryData
                         [with_messages [Sample.question;
                                         mkPlaceholder Sample.clockA]
                                        Sample.convA]
                         Sample.world))) in
   exists m, conversations w =
             [with_messages [Sample.question; m] Sample.convA] /\
             text m = "Hello!" /\ thoughts m = Some "thinking" /\
             timestamp m = "") /\
  (let stream := [Sample.rawOf [Sample.textPart "Hel"] None;
                  Sample.rawOf [Sample.textPart "lo"] None;
                  Sample.rawOf [Sample.thoughtPart "thinking"] None;
                  Sample.rawOf [Sample.textPart "!"] None] in
   streamEvents stream =
     [textChunk "Hel"; textChunk "lo"; thoughtChunk (Some "thinking");
      textChunk "!"] /\
   let w := snd (streamGeminiResponse
                   (Sample.backend stream None true) 3 "hello" []
                   (guardedUpdate "A") (statusUpdate "A")
                   (set_activeStreamingRef (Some "A")
                      (setQueryData
                         [with_messages [Sample.question;
                                         mkPlaceholder Sample.clockA]
                                        Sample.convA]
                         Sample.world))) in
   exists m, conversations w =
             [with_messages [Sample.question; m] Sample.convA] /\
             text m = "Hello!" /\ thoughts m = Some "thinking" /\
             timestamp m = "").
Proof.
  split; [|split; [|split; [|split; [|split; [|split; [|split]]]]]].
  - intros chunks m. split;
      [apply foldChunks_text | apply foldChunks_thoughts].
  - intros rc. apply chunkEvents_text.
  - intros rc. apply chunkEvents_thought.
  - intros rcs m. unfold streamEvents.
    rewrite foldChunks_text, foldChunks_thoughts, !join_concat, !map_map.
    split.
    + f_equal. f_equal. apply map_ext. intros rc. apply chunkEvents_text.
    + f_equal. f_equal. apply map_ext. intros rc. apply chunkEvents_thought.
  - intros cid chunks w. rewrite <- patchConversations_fold.
    revert w. induction chunks as [|c chunks IH]; intros w; [done|].
    cbn [fold_left]. rewrite IH. reflexivity.
  - intros now. vm_compute. done.
  - vm_compute. eexists. split; [reflexivity|]. done.
  - split; [reflexivity|].
    vm_compute. eexists. split; [reflexivity|]. done.
Qed.

(* ------------------------------------------------------------------ *)
(** ** Citations *)
(* ------------------------------------------------------------------ *)


Lemma hasUri_spec srcs u : hasUri srcs u = true <-> u ∈ map uri srcs.
Proof.
  unfold hasUri. rewrite existsb_exists, list_elem_of_fmap. split.
  - intros (s & Hin & Heq). apply String.eqb_eq in Heq.
    exists s. split; [done|]. by apply list_elem_of_In.
  - intros (s & -> & Hin). exists s. split; [by apply list_elem_of_In|].
    apply String.eqb_refl.
Qed.

Lemma hasUri_false srcs u : hasUri srcs u = false <-> u ∉ map uri srcs.
Proof.
  rewrite <- hasUri_spec. destruct (hasUri srcs u); split; congruence.
Qed.





Lemma mergeSources_keeps existing incoming u :
  u ∈ map uri existing -> u ∈ map uri (mergeSources existing incoming).
Proof.
  intros H. unfold mergeSources. rewrite map_app. apply elem_of_app. by left.
Qed.

(** [pushUrl] and [pushGround] keep what was collected, keep the URIs
    distinct, and record the URI the entry carries. *)
Lemma pushUrl_spec srcs meta :
  (exists extra, pushUrl srcs meta = srcs ++ extra) /\
  (NoDup (map uri srcs) -> NoDup (map uri (pushUrl srcs meta))) /\
  (forall u, retrievedUrl meta = Some u -> Js.truthy u = true ->
             u ∈ map uri (pushUrl srcs meta)).
Proof.
  unfold pushUrl. destruct (retrievedUrl meta) as [u|];
    [|split; [exists []; by rewrite app_nil_r | split; [done | discriminate]]].
  destruct (Js.truthy u) eqn:Et; simpl;
    [|split; [exists []; by rewrite app_nil_r
             | split; [done | intros ? [= <-]; congruence]]].
  destruct (hasUri srcs u) eqn:Eh; simpl.
  - split; [exists []; by rewrite app_nil_r|]. split; [done|].
    intros ? [= <-] _. by apply hasUri_spec.
  - split; [by eexists|]. split.
    + intros Hnd. rewrite map_app. apply NoDup_app. split; [done|].
      split; [|apply NoDup_singleton].
      intros x Hx Hx'. simpl in Hx'. apply list_elem_of_singleton in Hx'.
      subst x. by apply hasUri_false in Eh.
    + intros ? [= <-] _. rewrite map_app. apply elem_of_app. right.
      simpl. apply list_elem_of_singleton. reflexivity.
Qed.

Lemma push_one_spec srcs s :
  let r := if negb (hasUri srcs (uri s)) then srcs ++ [s] else srcs in
  (exists extra, r = srcs ++ extra) /\
  (NoDup (map uri srcs) -> NoDup (map uri r)) /\
  uri s ∈ map uri r.
Proof.
  simpl. destruct (hasUri srcs (uri s)) eqn:Eh; simpl.
  - split; [exists []; by rewrite app_nil_r|]. split; [done|].
    by apply hasUri_spec.
  - split; [by eexists|]. split.
    + intros Hnd. rewrite map_app. apply NoDup_app. split; [done|].
      split; [|apply NoDup_singleton].
      intros x Hx Hx'. simpl in Hx'. apply list_elem_of_singleton in Hx'.
      subst x. by apply hasUri_false in Eh.
    + rewrite map_app. apply elem_of_app. right. simpl.
      apply list_elem_of_singleton. reflexivity.
Qed.

Lemma pushGround_spec srcs g :
  (exists extra, pushGround srcs g = srcs ++ extra) /\
  (NoDup (map uri srcs) -> NoDup (map uri (pushGround srcs g))) /\
  (forall u, groundUri g = Some u -> u ∈ map uri (pushGround srcs g)).
Proof.
  assert (forall x : WebGround,
            let r := if Js.truthyO (web_uri x) && Js.truthyO (web_title x)
                     then if negb (hasUri srcs (default "" (web_uri x)))
                          then srcs ++ [{| uri := default "" (web_uri x);
                                           title := default "" (web_title x);
                                           placeId := None |}]
                          else srcs
                     else srcs in
            (exists extra, r = srcs ++ extra) /\
            (NoDup (map uri srcs) -> NoDup (map uri r)) /\
            (forall u,
               (if Js.truthyO (web_uri x) && Js.truthyO (web_title x)
                then Some (default "" (web_uri x)) else None) = Some u ->
               u ∈ map uri r)) as Hweb.
  { intros x. simpl.
    destruct (Js.truthyO (web_uri x) && Js.truthyO (web_title x)).
    - pose proof (push_one_spec srcs
                    {| uri := default "" (web_uri x);
                       title := default "" (web_title x);
                       placeId := None |}) as (H1 & H2 & H3).
      simpl in *. split; [done|]. split; [done|]. by intros ? [= <-].
    - split; [exists []; by rewrite app_nil_r|]. by split. }
  assert ((exists extra, srcs = srcs ++ extra) /\
          (NoDup (map uri srcs) -> NoDup (map uri srcs)) /\
          (forall u, @None string = Some u -> u ∈ map uri srcs)) as Hnone.
  { split; [exists []; by rewrite app_nil_r|]. by split. }
  unfold pushGround, groundUri.
  destruct (g_maps g) as [m|].
  - destruct (Js.truthyO (maps_uri m) && Js.truthyO (maps_title m)).
    + pose proof (push_one_spec srcs
                    {| uri := default "" (maps_uri m);
                       title := default "" (maps_title m);
                       placeId := maps_placeId m |}) as (H1 & H2 & H3).
      simpl in *. split; [done|]. split; [done|]. by intros ? [= <-].
    + destruct (g_web g) as [x|]; [apply Hweb | apply Hnone].
  - destruct (g_web g) as [x|]; [apply Hweb | apply Hnone].
Qed.

(** A fold of a push that only appends, keeps URIs distinct and records
    what [key] names. *)
Lemma fold_push_spec {A} (push : list Source -> A -> list Source)
  (key : A -> list string) (xs : list A) (srcs : list Source) :
  (forall l a, (exists extra, push l a = l ++ extra) /\
               (NoDup (map uri l) -> NoDup (map uri (push l a))) /\
               (forall u, u ∈ key a -> u ∈ map uri (push l a))) ->
  (exists extra, fold_left push xs srcs = srcs ++ extra) /\
  (NoDup (map uri srcs) -> NoDup (map uri (fold_left push xs srcs))) /\
  (forall u, u ∈ concat (map key xs) -> u ∈ map uri (fold_left push xs srcs)).
Proof.
  intros Hpush. revert srcs.
  induction xs as [|a xs IH]; intros srcs; simpl.
  - split; [exists []; by rewrite app_nil_r|]. split; [done|].
    intros u Hu. by apply elem_of_nil in Hu.
  - destruct (Hpush srcs a) as ((e1 & He1) & Hn1 & Hk1).
    destruct (IH (push srcs a)) as ((e2 & He2) & Hn2 & Hk2).
    split; [|split].
    + exists (e1 ++ e2). by rewrite He2, He1, app_assoc.
    + intros Hnd. by apply Hn2, Hn1.
    + intros u [Hu|Hu]%elem_of_app; [|by apply Hk2].
      rewrite He2. rewrite map_app. apply elem_of_app. left. by apply Hk1.
Qed.

Lemma extractSources_spec rc :
  NoDup (map uri (extractSources rc)) /\
  (forall u, u ∈ carriedUris rc -> u ∈ map uri (extractSources rc)).
Proof.
  unfold extractSources, carriedUris.
  set (key1 := fun meta => match retrievedUrl meta with
                           | Some u => if Js.truthy u then [u] else []
                           | None => []
                           end).
  set (key2 := fun g => match groundUri g with Some u => [u] | None => [] end).
  destruct (fold_push_spec pushUrl key1 (default [] (rc_urlMetadata rc)) [])
    as ((e1 & He1) & Hn1 & Hk1).
  { intros l a. destruct (pushUrl_spec l a) as (H1 & H2 & H3).
    repeat split; try done. intros u Hu. unfold key1 in Hu.
    destruct (retrievedUrl a) as [v|] eqn:Ev; [|by apply elem_of_nil in Hu].
    destruct (Js.truthy v) eqn:Et; [|by apply elem_of_nil in Hu].
    apply list_elem_of_singleton in Hu. subst. by apply H3. }
  destruct (fold_push_spec pushGround key2
              (default [] (rc_groundingChunks rc))
              (fold_left pushUrl (default [] (rc_urlMetadata rc)) []))
    as ((e2 & He2) & Hn2 & Hk2).
  { intros l a. destruct (pushGround_spec l a) as (H1 & H2 & H3).
    repeat split; try done. intros u Hu. unfold key2 in Hu.
    destruct (groundUri a) as [v|] eqn:Ev; [|by apply elem_of_nil in Hu].
    apply list_elem_of_singleton in Hu. subst. by apply H3. }
  split.
  - apply Hn2, Hn1. constructor.
  - intros u [Hu|Hu]%elem_of_app.
    + rewrite He2, map_app. apply elem_of_app. left. by apply Hk1.
    + by apply Hk2.
Qed.









(* ------------------------------------------------------------------ *)
(** ** Persistent store adapter *)
(* ------------------------------------------------------------------ *)

Lemma stripGeneratedImages_spec m :
  stripGeneratedImages m = with_generatedImages None m.
Proof.
  unfold stripGeneratedImages. destruct m as [? ? ? ? ? ? ? ? ? ? ? ? ? ? ? g].
  by destruct g.
Qed.

Lemma modelOfName_modelName m : modelOfName (modelName m) = Some m.
Proof. by destruct m. Qed.

Lemma truthy_modelName m : Js.truthy (modelName m) = true.
Proof. by destruct m. Qed.

Lemma coerce_toRaw now c :
  coerceConversation now (toRaw c) =
  {| conv_id := Js.orElse (Some (conv_id c)) (pretty (dateNow now));
     conv_title := Js.orElse (Some (conv_title c)) "Untitled Chat";
     messages := messages c;
     model := model c |}.
Proof.
  unfold coerceConversation, toRaw. simpl.
  by rewrite truthy_modelName, modelOfName_modelName.
Qed.

Lemma orElse_truthy s d : s <> "" -> Js.orElse (Some s) d = s.
Proof.
  intros H. unfold Js.orElse, Js.truthy.
  destruct (String.eqb_spec s ""); [done | reflexivity].
Qed.

(** C6.  When [saveConversations] succeeds on a non-empty list, loading
    returns one conversation per saved conversation, in order, with the
    same model, the same identifier and title (when these are not empty),
    and message for message the saved message with its generated-image
    list absent and every other field as it was. *)
Theorem save_load_drops_generated_images
  (B : Backend) (now : Clock) (cs saved : list Conversation) (w w' : World) :
  cs <> [] ->
  saveConversations B cs w = (Ok saved, w') ->
  saved = cs /\
  Forall2 (fun c l =>
             model l = model c /\
             (conv_id c <> "" -> conv_id l = conv_id c) /\
             (conv_title c <> "" -> conv_title l = conv_title c) /\
             Forall2 (fun m m' =>
                        generatedImages m' = None /\
                        text m' = text m /\ timestamp m' = timestamp m /\
                        msg_id m' = msg_id m /\ sender m' = sender m /\
                        thoughts m' = thoughts m /\
                        thinkingTime m' = thinkingTime m /\
                        imagePreviews m' = imagePreviews m /\
                        files m' = files m /\ sources m' = sources m /\
                        suggestions m' = suggestions m /\
                        fullText m' = fullText m /\
                        usageMetadata m' = usageMetadata m /\
                        executableCode m' = executableCode m /\
                        codeExecutionResult m' = codeExecutionResult m /\
                        codeExecutionImages m' = codeExecutionImages m)
                     (messages c) (messages l))
          cs (fst (fetchConversations now w')).
Proof.
  intros Hne Hsave. unfold saveConversations in Hsave.
  assert ((0 <? length cs)%nat = true) as Hlen by (by destruct cs).
  rewrite Hlen in Hsave.
  destruct (setItemOutcome B _); [|discriminate..].
  cbv [mbind M_bind modify mret M_ret] in Hsave.
  injection Hsave as <- <-. split; [done|].
  assert (fst (fetchConversations now
                 (set_chatHistoryItem
                    (Some (ParsedArray (map toRaw (conversationsToSave cs))))
                    w)) =
          map (fun c => coerceConversation now
                          (toRaw (with_messages
                                    (map stripGeneratedImages (messages c)) c)))
              cs) as ->.
  { unfold fetchConversations. cbn [chatHistoryItem set_chatHistoryItem].
    unfold conversationsToSave. rewrite !map_map. by destruct cs. }
  apply Forall2_fmap_r, Forall_Forall2_diag, Forall_forall. intros c _.
  unfold compose. rewrite coerce_toRaw.
  cbn [model conv_id conv_title messages with_messages].
  repeat split; try (by apply orElse_truthy).
  apply Forall2_fmap_r, Forall_Forall2_diag, Forall_forall. intros m _.
  unfold compose. rewrite stripGeneratedImages_spec. repeat split.
Qed.

Lemma save_load_drops_generated_images_witness :
  let picture := with_generatedImages
                   (Some [{| base64 := "iVBORw0KGgo="; mimeType := "image/png" |}])
                   Sample.greeting in
  let c := with_messages [Sample.question; picture] Sample.convA in
  let B := Sample.backend [] None true in
  Forall2 (fun c l => messages l = [Sample.question; Sample.greeting])
          [c] (fst (fetchConversations Sample.clockB
                      (snd (saveConversations B [c] Sample.world)))).
Proof.
  intros picture c B.
  destruct (save_load_drops_generated_images
              B Sample.clockB [c] [c] Sample.world
              (snd (saveConversations B [c] Sample.world)))
    as [_ H]; [discriminate | reflexivity |].
  vm_compute. repeat constructor.
Defined.

(* ------------------------------------------------------------------ *)
(** ** Context-cache lifecycle *)
(* ------------------------------------------------------------------ *)

Lemma deleteAndClear_settled B c w :
  deleteAnswer B (calls w ++ [CachesDelete (cache_name c)]) <> Hang ->
  deleteAndClear B c w = (Ok tt, afterTeardown c w).
Proof.
  intros Hsettles.
  unfold deleteAndClear, tryCatchFinally, cachesDelete, logCall, answer,
    getW, modify, mbind, M_bind, mret, M_ret, afterTeardown.
  cbn [calls set_calls].
  destruct (deleteAnswer B (calls w ++ [CachesDelete (cache_name c)]));
    [destruct a| |]; done.
Qed.

Lemma cleanupActiveCache_idle B w :
  activeCache w = None -> cleanupActiveCache B w = (Ok tt, w).
Proof.
  intros H. unfold cleanupActiveCache, getW, mbind, M_bind.
  rewrite H. by destruct (aiClient w).
Qed.

(* ------------------------------------------------------------------ *)
(** ** The concurrency guard *)
(* ------------------------------------------------------------------ *)

Lemma refIs_other a b : a <> b -> refIs (Some a) b = false.
Proof.
  intros H. simpl. destruct (String.eqb_spec a b); [done | reflexivity].
Qed.

(** C2.  While the streaming token is held by a conversation other than
    the active one, [handleSendMessage] returns without starting a
    mutation: nothing is added to the transport log or to the started
    mutations, and the query cache, the store, the token, the loading flag
    and the session state are as before.  When the call gets as far as the
    guard (a key is set, every file passes intake, the active conversation
    exists), the only change is the "please wait" error.  [mutationFn]
    itself, run in such a state, throws before touching anything. *)
Theorem send_rejected_while_other_streams
  (B : Backend) (txt : string) (fs : list File) (now : Clock) (w : World)
  (a b : string) :
  activeStreamingRef w = Some a ->
  activeConversationId w = Some b ->
  a <> b ->
  let r := handleSendMessage B txt fs now w in
  fst r = None /\
  calls (snd r) = calls w /\ started (snd r) = started w /\
  queryData (snd r) = queryData w /\
  chatHistoryItem (snd r) = chatHistoryItem w /\
  observed (snd r) = observed w /\
  activeStreamingRef (snd r) = Some a /\
  isLoading (snd r) = isLoading w /\
  chat (snd r) = chat w /\ activeCache (snd r) = activeCache w /\
  isProSession (snd r) = isProSession w /\
  (Js.truthyO (apiKey w) = true ->
   errors (validateFiles fs) = [] ->
   is_Some (activeConversation w) ->
   b <> "" ->
   snd r = set_fileErrors [PLEASE_WAIT] w) /\
  (forall fuel vars chatHistory,
     sv_targetConversationId vars = b ->
     exists msg, mutationFn B fuel vars chatHistory w = (Throw msg, w)).
Proof.
  intros Href Hactive Hne r. subst r.
  pose proof (refIs_other a b Hne) as Hother.
  unfold handleSendMessage. rewrite Href, Hactive, Hother.
  cbn [Js.present negb andb].
  split; [|split; [|split; [|split; [|split; [|split; [|split;
    [|split; [|split; [|split; [|split; [|split]]]]]]]]]]].
  1-11: destruct (negb (Js.truthyO (apiKey w))); [by rewrite ?Href|];
    destruct (0 <? length (errors (validateFiles fs)))%nat;
      [by rewrite ?Href|];
    destruct (activeConversation w); [|by rewrite ?Href];
    destruct (negb (Js.truthy b)); by rewrite ?Href.
  - intros Hkey Herr [c Hc] Hb. rewrite Hkey, Herr, Hc.
    assert (Js.truthy b = true) as ->.
    { unfold Js.truthy. destruct (String.eqb_spec b ""); done. }
    reflexivity.
  - intros fuel vars chatHistory Htarget.
    unfold mutationFn, getW, mbind, M_bind. rewrite Htarget.
    destruct (conversationsMap w !! b); [|by eexists].
    rewrite Href, Hother. by eexists.
Qed.

Lemma send_rejected_while_other_streams_witness :
  let B := Sample.backend [] None true in
  let w := set_activeStreamingRef (Some "B") Sample.world in
  snd (handleSendMessage B "hello" [Sample.photo] Sample.clockA w) =
    set_fileErrors [PLEASE_WAIT] w /\
  exists msg,
    mutationFn B 3
      {| sv_text := "hello"; sv_files := [];
         sv_userMessage := mkUserMessage Sample.clockA "hello" [];
         sv_aiMessagePlaceholder := mkPlaceholder Sample.clockA;
         sv_targetConversationId := "A" |} [] w = (Throw msg, w).
Proof.
  intros B w.
  destruct (send_rejected_while_other_streams
              B "hello" [Sample.photo] Sample.clockA w "B" "A")
    as (_ & _ & _ & _ & _ & _ & _ & _ & _ & _ & _ & H1 & H2).
  - reflexivity.
  - reflexivity.
  - discriminate.
  - split.
    + apply H1; [reflexivity | reflexivity | vm_compute; by eexists
                | discriminate].
    + by apply H2.
Defined.

(* ------------------------------------------------------------------ *)
(** ** State predicates kept by the effectful code *)
(* ------------------------------------------------------------------ *)

Section Preserves.
Context (P : World -> Prop).

Lemma pres_bind {A C} (m : M A) (f : A -> M C) :
  preserves P m -> (forall a, preserves P (f a)) -> preserves P (m ≫= f).
Proof.
  intros Hm Hf w Hw. unfold mbind, M_bind.
  specialize (Hm w Hw). destruct (m w) as [[a| |] w']; simpl in *;
    [by apply Hf | done | done].
Qed.

Lemma pres_ret {A} (a : A) : preserves P (mret a).
Proof. by intros w Hw. Qed.

Lemma pres_throw {A} msg : preserves P (@throw A msg).
Proof. by intros w Hw. Qed.

Lemma pres_answer {A} (o : Outcome A) : preserves P (answer o).
Proof. by intros w Hw. Qed.

Lemma pres_getW : preserves P getW.
Proof. by intros w Hw. Qed.

Lemma pres_modify f : (forall w, P w -> P (f w)) -> preserves P (modify f).
Proof. intros Hf w Hw. by apply Hf. Qed.

Lemma pres_when b m : preserves P m -> preserves P (when b m).
Proof. intros Hm. destruct b; [done | apply pres_ret]. Qed.

Lemma pres_try body handler fin :
  preserves P body -> (forall e, preserves P (handler e)) ->
  preserves P fin -> preserves P (tryCatchFinally body handler fin).
Proof.
  intros Hb Hh Hf w Hw. unfold tryCatchFinally.
  specialize (Hb w Hw). destruct (body w) as [[a| |] w']; simpl in *.
  - by apply Hf.
  - by apply (pres_bind (handler msg) (fun _ => fin)).
  - done.
Qed.

Lemma pres_forEachM {A} (body : A -> M unit) xs :
  (forall x, preserves P (body x)) -> preserves P (forEachM body xs).
Proof.
  intros Hb. induction xs as [|x xs IH]; [apply pres_ret|].
  apply pres_bind; [apply Hb | by intros _].
Qed.

End Preserves.

(** Walks through a computation built from the combinators above, using
    the facts in the context for its leaves. *)
Ltac pres :=
  repeat first
    [ solve [auto]
    | apply pres_ret | apply pres_throw | apply pres_answer
    | apply pres_getW
    | apply pres_bind; [|intros ?]
    | apply pres_when
    | apply pres_try; [| intros ? |]
    | apply pres_forEachM; intros ?
    | apply pres_modify; intros ? ?; solve [auto]
    | match goal with
      | |- preserves _ (match ?x with _ => _ end) => destruct x
      | |- preserves _ (if ?b then _ else _) => destruct b
      end ].

(** The session manager, the streaming call and [mutationFn] keep every
    predicate that survives one more entry in the transport log, that is
    indifferent to the session and cache handles, to the model in use and
    to a raised escalation flag, and that survives a patch of the streaming
    placeholder. *)
Section Frame.
Variable B : Backend.
Variable P : World -> Prop.
Hypothesis P_calls : forall c w, P w -> P (set_calls (calls w ++ [c]) w).
Hypothesis P_chat : forall v w, P w -> P (set_chat v w).
Hypothesis P_activeCache : forall v w, P w -> P (set_activeCache v w).
Hypothesis P_currentModelName :
  forall v w, P w -> P (set_currentModelName v w).
Hypothesis P_activeModel : forall v w, P w -> P (set_activeModel v w).
Hypothesis P_escalate : forall w, P w -> P (set_isProSession true w).
Hypothesis P_patch :
  forall cid c w, P w -> P (updateStreamingMessage cid c w).

Lemma pres_logCall c : preserves P (logCall c).
Proof. unfold logCall. pres. Qed.

Lemma pres_deleteAndClear c : preserves P (deleteAndClear B c).
Proof. unfold deleteAndClear, cachesDelete. pose proof pres_logCall. pres. Qed.

Lemma pres_startNewChatSession n c h :
  preserves P (startNewChatSession B n c h).
Proof.
  unfold startNewChatSession.
  pose proof pres_logCall. pose proof pres_deleteAndClear. pres.
Qed.

Lemma pres_guardedUpdate cid c : preserves P (guardedUpdate cid c).
Proof.
  intros w Hw. unfold guardedUpdate.
  destruct (refIs (activeStreamingRef w) cid); [by apply P_patch | done].
Qed.

Lemma pres_statusUpdate cid s : preserves P (statusUpdate cid s).
Proof. apply pres_guardedUpdate. Qed.

Lemma pres_filesUpload f : preserves P (filesUpload B f).
Proof. unfold filesUpload. pose proof pres_logCall. pres. Qed.

Lemma pres_filesGet n : preserves P (filesGet B n).
Proof. unfold filesGet. pose proof pres_logCall. pres. Qed.

Lemma pres_pollFile fuel g : preserves P (pollFile B fuel g).
Proof.
  revert g. induction fuel as [|fuel IH]; intros g; simpl;
    pose proof pres_filesGet; pres.
Qed.

Lemma pres_fileToBase64 f : preserves P (fileToBase64 f).
Proof. unfold fileToBase64. pres. Qed.

Lemma pres_afterCacheCreated onFP cache :
  (forall s, preserves P (onFP s)) ->
  preserves P (afterCacheCreated B onFP cache).
Proof.
  intros HFP.
  unfold afterCacheCreated, replaceActiveCache, deleteOldCache.
  pose proof pres_deleteAndClear. pose proof pres_startNewChatSession.
  pres.
Qed.

Lemma pres_cachedPdfBranch fuel prompt file onFP :
  (forall s, preserves P (onFP s)) ->
  preserves P (cachedPdfBranch B fuel prompt file onFP).
Proof.
  intros HFP. unfold cachedPdfBranch.
  pose proof pres_filesUpload. pose proof pres_filesGet.
  pose proof pres_pollFile. pose proof pres_logCall.
  pose proof (fun c => pres_afterCacheCreated onFP c HFP).
  pres.
Qed.

Lemma pres_attachFile fuel onFP f :
  (forall s, preserves P (onFP s)) ->
  preserves P (attachFile B fuel onFP f).
Proof.
  intros HFP. unfold attachFile.
  pose proof pres_filesUpload. pose proof pres_filesGet.
  pose proof pres_pollFile. pose proof pres_fileToBase64.
  pres.
Qed.

Lemma pres_attachFiles fuel onFP fs :
  (forall s, preserves P (onFP s)) ->
  preserves P (attachFiles B fuel onFP fs).
Proof.
  intros HFP. induction fs as [|f fs IH]; simpl;
    pose proof (fun f => pres_attachFile fuel onFP f HFP); pres.
Qed.

Lemma pres_streamGeminiResponse fuel prompt fs onChunk onFP :
  (forall c, preserves P (onChunk c)) ->
  (forall s, preserves P (onFP s)) ->
  preserves P (streamGeminiResponse B fuel prompt fs onChunk onFP).
Proof.
  intros HC HFP. unfold streamGeminiResponse.
  pose proof pres_startNewChatSession. pose proof pres_logCall.
  pose proof (fun p f => pres_cachedPdfBranch fuel p f onFP HFP).
  pose proof (fun l => pres_attachFiles fuel onFP l HFP).
  pres.
Qed.

Lemma pres_generateImage prompt fs onFP ratio :
  (forall s, preserves P (onFP s)) ->
  preserves P (generateImage B prompt fs onFP ratio).
Proof.
  intros HFP. unfold generateImage.
  assert (forall l, preserves P (imageInputs onFP l)) as Hin.
  { induction l as [|f l IH]; simpl; pose proof pres_fileToBase64; pres. }
  assert (forall ps, preserves P (requestImages B ps ratio)) as Hreq.
  { intros ps w Hw. unfold requestImages.
    destruct (imageAnswer B _) as [r| |]; by apply P_calls. }
  pres.
Qed.

(** What [mutationFn] does once its two guards are passed and the
    escalation flag is updated. *)
Lemma pres_mutationFn fuel vars h : preserves P (mutationFn B fuel vars h).
Proof.
  unfold mutationFn.
  pose proof pres_startNewChatSession.
  pose proof pres_guardedUpdate. pose proof pres_statusUpdate.
  pose proof (fun p f r => pres_generateImage p f
                (statusUpdate (sv_targetConversationId vars)) r
                (pres_statusUpdate _)).
  pose proof (fun p f => pres_streamGeminiResponse fuel p f
                (guardedUpdate (sv_targetConversationId vars))
                (statusUpdate (sv_targetConversationId vars))
                (pres_guardedUpdate _) (pres_statusUpdate _)).
  pres.
Qed.

End Frame.

(* ------------------------------------------------------------------ *)
(** ** Escalation *)
(* ------------------------------------------------------------------ *)

Section KeepsEscalation.
Variable B : Backend.

Lemma keeps_mutationFn fuel vars h :
  preserves escalated (mutationFn B fuel vars h).
Proof. by apply pres_mutationFn. Qed.

Lemma keeps_startNewChatSession n c h :
  preserves escalated (startNewChatSession B n c h).
Proof. by apply pres_startNewChatSession. Qed.

Lemma keeps_saveConversations cs :
  preserves escalated (saveConversations B cs).
Proof. unfold saveConversations. pres. Qed.

Lemma keeps_updateConversationsMutation cs :
  preserves escalated (updateConversationsMutation B cs).
Proof.
  intros w Hw. unfold updateConversationsMutation.
  pose proof (keeps_saveConversations cs (setQueryData cs w) Hw) as H.
  destruct (saveConversations B cs (setQueryData cs w)) as [[a| |] w'];
    simpl in *; [done | | done].
  by destruct (queryData w).
Qed.

Lemma keeps_mutateConversations cs :
  preserves escalated (mutateConversations B cs).
Proof.
  intros w Hw. unfold mutateConversations. simpl.
  by apply keeps_updateConversationsMutation.
Qed.

Lemma keeps_onSuccess res ctx now :
  preserves escalated (onSuccess B res ctx now).
Proof.
  unfold onSuccess. pose proof keeps_updateConversationsMutation. pres.
Qed.

Lemma onError_escalated e ctx now w :
  escalated w -> escalated (onError B e ctx now w).
Proof.
  intros Hw. unfold onError.
  set (w1 := match previousConversations ctx with
             | Some prev => setQueryData prev w
             | None => w
             end).
  assert (escalated w1) as H1 by (subst w1; by destruct previousConversations).
  destruct (ctx_conversationId ctx) as [cid|]; [|done].
  destruct (Js.truthy cid); [|done].
  by apply keeps_updateConversationsMutation.
Qed.

Lemma onSettled_escalated ctx w :
  escalated w -> escalated (onSettled ctx w).
Proof.
  intros Hw. unfold onSettled.
  destruct (ctx_conversationId ctx) as [cid|]; [|done].
  by destruct (_ && _).
Qed.

Lemma onMutate_escalated vars now w :
  escalated w -> escalated (snd (onMutate vars now w)).
Proof.
  intros Hw. unfold onMutate.
  destruct (activeConversationId w) as [cid|]; [|done].
  destruct (queryData w) as [prev|]; [|done].
  destruct (negb (Js.truthy cid)); [done|].
  destruct (findIndex _ prev) as [i|]; [|done].
  by destruct (prev !! i).
Qed.

Lemma sendAfterMutate_escalated fuel vars h ctx clk1 w1 :
  escalated w1 -> escalated (sendAfterMutate B fuel vars h ctx clk1 w1).
Proof.
  intros H1. unfold sendAfterMutate.
  pose proof (keeps_mutationFn fuel vars h w1 H1) as H2.
  destruct (mutationFn B fuel vars h w1) as [[res| |] w2]; simpl in H2.
  - pose proof (keeps_onSuccess res ctx clk1 w2 H2) as H3.
    destruct (onSuccess B res ctx clk1 w2) as [[[]| |] w3]; simpl in H3.
    + by apply onSettled_escalated.
    + by apply onSettled_escalated, onError_escalated.
    + done.
  - by apply onSettled_escalated, onError_escalated.
  - done.
Qed.

Lemma writeSettle_escalated cs prev w :
  escalated w -> escalated (writeSettle B cs prev w).
Proof.
  intros Hw. unfold writeSettle.
  pose proof (keeps_saveConversations cs w Hw) as H.
  destruct (saveConversations B cs w) as [[saved| |] w2]; simpl in H;
    [done | by destruct prev | done].
Qed.

Lemma sendStart_escalated write vars clk0 w :
  escalated w -> escalated (snd (sendStart B write vars clk0 w)).
Proof.
  intros Hw. unfold sendStart, writeOnMutate.
  destruct write as [cs|]; [|by apply onMutate_escalated].
  pose proof (onMutate_escalated vars clk0 (setQueryData cs w) Hw) as H1.
  destruct (onMutate vars clk0 (setQueryData cs w)) as [ctx wb].
  simpl in H1. by apply writeSettle_escalated.
Qed.

Lemma sendMessageMutation_escalated fuel write vars h clk0 clk1 w :
  escalated w ->
  escalated (sendMessageMutation B fuel write vars h clk0 clk1 w).
Proof.
  intros Hw. unfold sendMessageMutation.
  pose proof (sendStart_escalated write vars clk0 w Hw) as H1.
  destruct (sendStart B write vars clk0 w) as [ctx w1]. simpl in H1.
  by apply sendAfterMutate_escalated.
Qed.

Lemma handleSendMessage_escalated txt fs now w :
  escalated w -> escalated (snd (handleSendMessage B txt fs now w)).
Proof.
  intros Hw. unfold handleSendMessage.
  destruct (negb (Js.truthyO (apiKey w))); [done|].
  destruct (0 <? length (errors (validateFiles fs)))%nat; [done|].
  destruct (activeConversation w) as [c|]; [|done].
  destruct (activeConversationId w) as [cid|]; [|done].
  destruct (negb (Js.truthy cid)); [done|].
  destruct (_ && negb (refIs _ _)); [done|].
  cbn [snd]. unfold escalated.
  cbn [isProSession set_started set_activeStreamingRef set_isLoading].
  destruct (_ && (_ || _)); [|done].
  by destruct (_ && negb (Js.isBlank txt)).
Qed.

Lemma sendFromInput_escalated fuel txt fs clk0 clk1 w :
  escalated w -> escalated (sendFromInput B fuel txt fs clk0 clk1 w).
Proof.
  intros Hw. unfold sendFromInput.
  destruct (_ && negb _); [|done].
  pose proof (handleSendMessage_escalated txt fs clk0 w Hw) as H.
  destruct (handleSendMessage B txt fs clk0 w) as [[[vars h]|] w1];
    [|done].
  by apply sendMessageMutation_escalated.
Qed.

(** Every event keeps the flag, unless it starts a new chat. *)
Lemma step_escalated fuel e w :
  startsNewChat e w = false -> escalated w -> escalated (step B fuel e w).
Proof.
  intros Hnew Hw. destruct e as [txt fs c0 c1|now|id|m now|id ok now];
    simpl in *.
  - by apply sendFromInput_escalated.
  - discriminate.
  - unfold handleSelectConversation.
    destruct (conversationsMap w !! id) as [c|]; [|done].
    unfold escalated. cbn [isProSession set_activeModel].
    by apply keeps_startNewChatSession.
  - unfold handleModelChange.
    destruct (activeConversation w) as [c|]; [|discriminate].
    unfold escalated. cbn [isProSession set_activeModel].
    by apply keeps_startNewChatSession, keeps_mutateConversations.
  - unfold handleDeleteConversation.
    destruct ok; [|done]. cbn [negb].
    pose proof (keeps_mutateConversations
                  (List.filter (fun c => negb (String.eqb (conv_id c) id))
                               (conversations w)) w Hw) as H1.
    destruct (refIs (activeConversationId w) id); [|done].
    destruct (List.filter _ (conversations w)) as [|c l]; [discriminate|].
    unfold escalated. cbn [isProSession set_activeModel].
    by apply keeps_startNewChatSession.
Qed.

End KeepsEscalation.

(** C8 (as amended).  The escalation flag is state of the application,
    not of a conversation.  A send that carries a file or a URL and gets
    past the guards of [mutationFn] sets it; it then stays set through
    every later send, selection, model change and deletion, in whichever
    conversation, until an event starts a new chat; and while it is set a
    text-only send without files resolves to the highest-capability model
    unless the selected model is the image-generation model, which is used
    as it is. *)
Theorem escalation_sticky_until_new_chat
  (B : Backend) (fuel : nat) (es : list Event) (w : World) :
  (forall vars h c,
     conversationsMap w !! sv_targetConversationId vars = Some c ->
     (activeStreamingRef w = None \/
      activeStreamingRef w = Some (sv_targetConversationId vars)) ->
     (0 <? length (sv_files vars))%nat || hasUrl (sv_text vars) = true ->
     isProSession (snd (mutationFn B fuel vars h w)) = true) /\
  (isProSession w = true ->
   noNewChat B fuel es w ->
   isProSession (run B fuel es w) = true /\
   forall txt,
     targetModelOf (run B fuel es w) txt [] =
     if bool_decide (selectedModel (run B fuel es w) = gemini_2_5_flash_image)
     then gemini_2_5_flash_image else gemini_2_5_pro).
Proof.
  split.
  - intros vars h c Hc Href Hreq.
    destruct (isProSession w) eqn:Hpro.
    { by apply keeps_mutationFn. }
    unfold mutationFn, getW. unfold mbind at 1. unfold M_bind at 1.
    rewrite Hc.
    assert (Js.present (activeStreamingRef w)
            && negb (refIs (activeStreamingRef w)
                           (sv_targetConversationId vars)) = false) as ->.
    { destruct Href as [-> | ->]; [done|]. simpl.
      by rewrite String.eqb_refl. }
    rewrite Hreq, Hpro. cbn [negb andb when].
    unfold mbind at 1. unfold M_bind at 1. cbn [modify].
    set (w1 := set_isProSession true w).
    assert (escalated w1) as H1 by done.
    match goal with
    | |- isProSession (snd (?k w1)) = true =>
        assert (preserves escalated k) as Hk
    end.
    { pose proof (keeps_startNewChatSession B).
      assert (forall cid c, preserves escalated (guardedUpdate cid c)) as Hg
        by (intros; by apply pres_guardedUpdate).
      assert (forall cid s, preserves escalated (statusUpdate cid s)) as Hs
        by (intros; by apply pres_statusUpdate).
      assert (forall p f r,
                preserves escalated
                  (generateImage B p f
                     (statusUpdate (sv_targetConversationId vars)) r))
        by (intros; by apply pres_generateImage).
      assert (forall p f,
                preserves escalated
                  (streamGeminiResponse B fuel p f
                     (guardedUpdate (sv_targetConversationId vars))
                     (statusUpdate (sv_targetConversationId vars))))
        by (intros; by apply pres_streamGeminiResponse).
      pres. }
    by apply Hk.
  - revert w. induction es as [|e es IH]; intros w Hpro Hrun.
    + split; [done|]. intros txt. unfold run, targetModelOf. simpl.
      by rewrite Hpro.
    + destruct Hrun as [Hnew Hrun]. apply (IH (step B fuel e w)); [|done].
      by apply step_escalated.
Qed.

Lemma escalation_sticky_until_new_chat_witness :
  let B := Sample.backend [Sample.rawOf [Sample.textPart "ok"]
                                        (Some Sample.usage)] None true in
  let es := [EvSelect "B"; EvSend "hello" [] Sample.clockC Sample.clockD] in
  isProSession (run B 3 es (set_isProSession true Sample.world)) = true /\
  isProSession
    (snd (mutationFn B 3
            {| sv_text := "see https://example.org/a"; sv_files := [];
               sv_userMessage :=
                 mkUserMessage Sample.clockA "see https://example.org/a" [];
               sv_aiMessagePlaceholder := mkPlaceholder Sample.clockA;
               sv_targetConversationId := "A" |} [] Sample.world)) = true.
Proof.
  intros B es. split.
  - apply (escalation_sticky_until_new_chat
             B 3 es (set_isProSession true Sample.world)).
    + reflexivity.
    + vm_compute. tauto.
  - eapply (proj1 (escalation_sticky_until_new_chat B 3 [] Sample.world)).
    + vm_compute. reflexivity.
    + by left.
    + reflexivity.
Defined.

(** C8 (counterexample).  Conversation [A] is escalated by a send with an
    attached file; a new chat is started; [A] is selected again.  The flag
    is then clear, and a text-only send in [A] resolves to the model
    selected for [A], not to the highest-capability model. *)
Lemma escalation_lost_after_new_chat :
  let B := Sample.backend [Sample.rawOf [Sample.textPart "ok"]
                                        (Some Sample.usage)] None true in
  let w1 := run B 3 [EvSend "read this" [Sample.photo]
                            Sample.clockA Sample.clockB] Sample.world in
  let w2 := run B 3 [EvNewChat Sample.clockC; EvSelect "A"] w1 in
  let w3 := run B 3 [EvSend "hello" [] Sample.clockD Sample.clockD] w2 in
  isProSession w1 = true /\
  targetModelOf w1 "hello" [] = gemini_2_5_pro /\
  activeConversationId w2 = Some "A" /\
  isProSession w2 = false /\
  targetModelOf w2 "hello" [] = gemini_2_5_flash /\
  cs_model <$> chat w3 = Some "gemini-2.5-flash" /\
  last (calls w3) = Some (SendMessageStream [PText "hello"]).
Proof. vm_compute. repeat split. Qed.
(* ------------------------------------------------------------------ *)
(** ** Completion of a send *)
(* ------------------------------------------------------------------ *)

Lemma map_fixed {A} (f : A -> A) (l : list A) :
  Forall (fun x => f x = x) l -> map f l = l.
Proof. induction 1 as [|x l Hx _ IH]; [done|]. simpl. by rewrite Hx, IH. Qed.

Lemma mapConversation_none cid f cs :
  Forall (fun m => isStreamingPlaceholder m = false) (messagesOf cid cs) ->
  (forall m, isStreamingPlaceholder m = false -> f m = m) ->
  mapConversation cid f cs = cs.
Proof.
  intros Hall Hf. unfold messagesOf, mapConversation in *.
  induction cs as [|c cs IH]; [done|]. cbn [map List.filter] in *.
  destruct (String.eqb (conv_id c) cid).
  - cbn [map concat] in Hall. apply Forall_app in Hall as [H1 H2].
    rewrite (IH H2). f_equal.
    transitivity (with_messages (messages c) c); [|apply with_messages_id].
    f_equal. apply map_fixed. eapply Forall_impl; [exact H1|]. intros m Hm.
    by apply Hf.
  - by rewrite (IH Hall).
Qed.

Lemma updateConversationsMutation_same B cs w :
  queryData w = Some cs ->
  queryData (snd (updateConversationsMutation B cs w)) = Some cs.
Proof.
  intros Hq. unfold updateConversationsMutation, saveConversations.
  rewrite Hq.
  destruct (0 <? length cs)%nat.
  - destruct (setItemOutcome B _); reflexivity.
  - destruct (removeItemThrows B); reflexivity.
Qed.

(** After [onError] the query cache holds the snapshot taken by
    [onMutate], whenever the snapshot itself holds no placeholder in the
    conversation of the send: the placeholder the error text is meant for
    has been rolled back before it is looked up. *)
Lemma onError_restores_snapshot B e ctx now w prev cid :
  previousConversations ctx = Some prev ->
  ctx_conversationId ctx = Some cid ->
  Forall (fun m => isStreamingPlaceholder m = false) (messagesOf cid prev) ->
  queryData (onError B e ctx now w) = Some prev.
Proof.
  intros Hprev Hcid Hnone. unfold onError. rewrite Hprev, Hcid.
  destruct (Js.truthy cid); [|reflexivity].
  cbn [queryData setQueryData set_observed set_queryData default from_option].
  rewrite mapConversation_none; [|done|].
  - by apply updateConversationsMutation_same.
  - intros m Hm. unfold errorMessageInto. by rewrite Hm.
Qed.

(** [onSuccess] does nothing when the result carries no usage metadata. *)
Lemma onSuccess_without_usage B cid ctx now w :
  onSuccess B (None, cid) ctx now w = (Ok tt, w).
Proof.
  unfold onSuccess. destruct (ctx_conversationId ctx) as [c|]; [|done].
  cbn [fst Js.present]. by rewrite andb_false_r.
Qed.

(** C3 (the code at a failing send).  Conversation [A] is active and
    finalized; "hello" is sent; the backend streams "par" and then fails
    with "fetch failed".  The send reached the backend; once the mutation
    has settled the conversation list is the list from before the send: it
    contains neither the user's message nor any message carrying the
    failure text, although [onError] chose the generic text for this
    error. *)
Theorem failed_send_leaves_no_error_message :
  let B := Sample.backend [Sample.rawOf [Sample.textPart "par"] None]
                          (Some "fetch failed") true in
  let w := sendFromInput B 3 "hello" [] Sample.clockA Sample.clockB
                         Sample.world in
  last (calls w) = Some (SendMessageStream [PText "hello"]) /\
  errorTextFor "fetch failed" = GENERIC_ERROR /\
  conversations w = conversations Sample.world /\
  Forall (fun c => Forall (fun m => text m <> GENERIC_ERROR /\
                                    text m <> "hello")
                          (messages c))
         (conversations w) /\
  activeStreamingRef w = None /\ isLoading w = false /\
  (exists shown, observed w !! 1%nat = Some shown /\
                 pendingCount "A" shown = 1).
Proof.
  vm_compute. repeat split; try (repeat constructor; discriminate).
  eexists. split; reflexivity.
Qed.

(* ------------------------------------------------------------------ *)
(** ** One streaming placeholder per conversation *)
(* ------------------------------------------------------------------ *)

Lemma messagesOf_cons cid c cs :
  messagesOf cid (c :: cs) =
  (if String.eqb (conv_id c) cid then messages c else []) ++ messagesOf cid cs.
Proof.
  unfold messagesOf. simpl. by destruct (String.eqb (conv_id c) cid).
Qed.

Lemma messagesOf_app cid xs ys :
  messagesOf cid (xs ++ ys) = messagesOf cid xs ++ messagesOf cid ys.
Proof.
  induction xs as [|x xs IH]; [done|].
  rewrite <- app_comm_cons, !messagesOf_cons, IH. by rewrite app_assoc.
Qed.

Lemma messagesOf_mapConversation cid c f cs :
  messagesOf cid (mapConversation c f cs) =
  if String.eqb c cid then map f (messagesOf cid cs) else messagesOf cid cs.
Proof.
  induction cs as [|x cs IH].
  { by destruct (String.eqb c cid). }
  unfold mapConversation in *. cbn [map]. rewrite !messagesOf_cons, IH.
  destruct (String.eqb_spec (conv_id x) c) as [E|E].
  - cbn [conv_id with_messages messages]. subst c.
    destruct (String.eqb (conv_id x) cid); [by rewrite map_app | done].
  - destruct (String.eqb_spec (conv_id x) cid) as [E'|E']; [|done].
    destruct (String.eqb_spec c cid) as [E''|]; [congruence | done].
Qed.

Lemma pending_map (f : Message -> Message) (l : list Message) :
  (forall m, isPending (f m) = isPending m) ->
  length (List.filter isPending (map f l)) = length (List.filter isPending l).
Proof.
  intros Hf. induction l as [|m l IH]; [done|]. simpl. rewrite Hf.
  destruct (isPending m); simpl; by rewrite IH.
Qed.

Lemma isPending_frame m m' :
  sender m' = sender m -> timestamp m' = timestamp m ->
  isPending m' = isPending m.
Proof. unfold isPending. by intros -> ->. Qed.

Lemma isStreamingPlaceholder_frame m m' :
  msg_id m' = msg_id m -> timestamp m' = timestamp m ->
  isStreamingPlaceholder m' = isStreamingPlaceholder m.
Proof. unfold isStreamingPlaceholder. by intros -> ->. Qed.

Lemma patchOne_frame chunk m :
  isPending (patchOne chunk m) = isPending m /\
  isStreamingPlaceholder (patchOne chunk m) = isStreamingPlaceholder m.
Proof.
  unfold patchOne. destruct (isStreamingPlaceholder m) eqn:E; [|done].
  destruct (applyChunk_frame chunk m) as (Hi & Hs & Ht).
  split; [by apply isPending_frame|].
  rewrite <- E. by apply isStreamingPlaceholder_frame.
Qed.

Lemma stamped_not_pending m :
  timestamp m <> "" ->
  isPending m = false /\ isStreamingPlaceholder m = false.
Proof.
  intros H. unfold isPending, isStreamingPlaceholder, Js.truthy.
  destruct (String.eqb_spec (timestamp m) ""); [done|].
  by rewrite !andb_false_r.
Qed.

(** Finalizing, or writing the error text, leaves a well-tagged message
    well tagged and not pending. *)
Lemma finalizeMessage_settles usage elapsed stamp m :
  stamp <> "" -> wellTagged m ->
  wellTagged (finalizeMessage usage elapsed stamp m) /\
  isPending (finalizeMessage usage elapsed stamp m) = false.
Proof.
  intros Hs Hm. unfold finalizeMessage, wellTagged in *.
  destruct (isStreamingPlaceholder m) eqn:E.
  - destruct (stamped_not_pending
                (with_timestamp stamp
                   (with_thinkingTime (Some elapsed)
                      (with_usageMetadata usage m)))) as [-> ->]; done.
  - by rewrite Hm, E.
Qed.

Lemma errorMessageInto_settles txt stamp m :
  stamp <> "" -> wellTagged m ->
  wellTagged (errorMessageInto txt stamp m) /\
  isPending (errorMessageInto txt stamp m) = false.
Proof.
  intros Hs Hm. unfold errorMessageInto, wellTagged in *.
  destruct (isStreamingPlaceholder m) eqn:E.
  - destruct (stamped_not_pending
                (with_timestamp stamp
                   (with_text txt (with_thoughts (Some "") m))))
      as [-> ->]; done.
  - by rewrite Hm, E.
Qed.

Lemma settle_all (f : Message -> Message) (l : list Message) :
  Forall wellTagged l ->
  (forall m, wellTagged m -> wellTagged (f m) /\ isPending (f m) = false) ->
  Forall wellTagged (map f l) /\
  length (List.filter isPending (map f l)) = 0.
Proof.
  intros Hl Hf. induction Hl as [|m l Hm _ [IH1 IH2]]; [done|].
  destruct (Hf m Hm) as [H1 H2]. simpl. rewrite H2. split; [|done].
  by constructor.
Qed.

Lemma endsWith_append (s p : string) : Js.endsWith (s +:+ p) p = true.
Proof.
  unfold Js.endsWith.
  assert (String.length (s +:+ p) = String.length s + String.length p)
    as Hlen.
  { induction s as [|c s IH]; [done|].
    change (S (String.length (s +:+ p)) = S (String.length s + String.length p)).
    by rewrite IH. }
  rewrite Hlen.
  assert ((String.length p <=? String.length s + String.length p)%nat = true)
    as -> by (apply Nat.leb_le; lia).
  replace (String.length s + String.length p - String.length p)
    with (String.length s) by lia.
  apply String.eqb_eq. clear Hlen.
  induction s as [|c s IH].
  - change ("" +:+ p) with p. apply prefix_correct.
    rewrite <- (append_nil_r p) at 2. apply prefix_append.
  - change (substring (String.length s) (String.length p) (s +:+ p) = p).
    exact IH.
Qed.

(** The two messages a send builds: the user's message is never pending,
    the placeholder is pending and carries the tag. *)
Lemma mkUserMessage_tagged now txt fs :
  formattedTimestamp now <> "" ->
  wellTagged (mkUserMessage now txt fs) /\
  isPending (mkUserMessage now txt fs) = false.
Proof.
  intros Hs. unfold wellTagged.
  destruct (stamped_not_pending (mkUserMessage now txt fs)) as [-> ->]; [|done].
  unfold mkUserMessage. by destruct (0 <? length fs)%nat.
Qed.

Lemma mkPlaceholder_tagged now :
  wellTagged (mkPlaceholder now) /\ isPending (mkPlaceholder now) = true.
Proof.
  unfold wellTagged, isPending, isStreamingPlaceholder. cbn.
  by rewrite endsWith_append.
Qed.

Lemma tidyState_frame cid n w w' :
  conversations w' = conversations w -> observed w' = observed w ->
  tidyState cid n w -> tidyState cid n w'.
Proof. unfold tidyState. by intros -> ->. Qed.

Lemma setQueryData_tidy cid n k L w :
  tidyState cid n w ->
  Forall wellTagged (messagesOf cid L) -> pendingCount cid L = k -> k <= 1 ->
  tidyState cid k (setQueryData L w).
Proof.
  intros (_ & _ & Hobs) HL Hk Hle. unfold tidyState, conversations.
  cbn [setQueryData set_observed set_queryData queryData observed default
       from_option].
  split; [done|]. split; [done|].
  apply Forall_app. split; [done|]. constructor; [|done].
  split; [done | lia].
Qed.

Lemma patch_tidy cid n c chunk w :
  n <= 1 -> tidyState cid n w ->
  tidyState cid n (updateStreamingMessage c chunk w).
Proof.
  intros Hn Hw. pose proof Hw as (Htag & Hcount & _).
  unfold updateStreamingMessage.
  change (patchConversations c chunk (default [] (queryData w)))
    with (mapConversation c (patchOne chunk) (conversations w)).
  apply (setQueryData_tidy cid n n); [done| | |done].
  - rewrite messagesOf_mapConversation.
    destruct (String.eqb c cid); [|done].
    apply Forall_fmap. eapply Forall_impl; [exact Htag|].
    intros m Hm. unfold wellTagged in *. simpl.
    destruct (patchOne_frame chunk m) as [-> ->]. exact Hm.
  - unfold pendingCount in *. rewrite messagesOf_mapConversation.
    destruct (String.eqb c cid); [|done].
    rewrite pending_map; [done|]. intros m. apply patchOne_frame.
Qed.

(** [mutationFn] shows only tidy lists and leaves the number of pending
    messages as it found it. *)
Lemma mutationFn_tidy B fuel vars h cid n :
  n <= 1 -> preserves (tidyState cid n) (mutationFn B fuel vars h).
Proof.
  intros Hn. apply pres_mutationFn;
    try (intros; by eapply tidyState_frame).
  intros c chunk w Hw. by apply patch_tidy.
Qed.

(** The outcome of [updateConversationsMutation]: the new list on
    success; the new list or the one held before on failure. *)
Lemma updateConversationsMutation_tidy B cid n k L w :
  n <= 1 -> k <= 1 -> tidyState cid n w ->
  Forall wellTagged (messagesOf cid L) -> pendingCount cid L = k ->
  match fst (updateConversationsMutation B L w) with
  | Ok _ => tidyState cid k (snd (updateConversationsMutation B L w))
  | _ => tidyState cid k (snd (updateConversationsMutation B L w)) \/
         tidyState cid n (snd (updateConversationsMutation B L w))
  end.
Proof.
  intros Hn Hk Hw HL HLk.
  pose proof (setQueryData_tidy cid n k L w Hw HL HLk Hk) as H1.
  unfold updateConversationsMutation.
  assert (forall w1, tidyState cid k w1 ->
            match fst (saveConversations B L w1) with
            | Ok saved => saved = L
            | _ => True
            end /\ tidyState cid k (snd (saveConversations B L w1))) as Hsave.
  { intros w1 Hw1. unfold saveConversations.
    destruct (0 <? length L)%nat.
    - destruct (setItemOutcome B _); cbn; (split; [done|]);
        by eapply tidyState_frame.
    - destruct (removeItemThrows B); cbn; (split; [done|]);
        by eapply tidyState_frame. }
  destruct (Hsave _ H1) as [Hres H2].
  destruct (saveConversations B L (setQueryData L w)) as [[saved|e|] w2];
    cbn [fst snd] in *.
  - subst saved. by apply (setQueryData_tidy cid k k).
  - destruct (queryData w) as [prev|] eqn:Hq.
    + right. eapply tidyState_frame;
        [| |apply (setQueryData_tidy cid k n prev w2 H2)]; try done.
      * destruct Hw as (Ht & _ & _). unfold conversations in Ht.
        by rewrite Hq in Ht.
      * destruct Hw as (_ & Hc & _). unfold conversations in Hc.
        by rewrite Hq in Hc.
    + left. by eapply tidyState_frame.
  - by left.
Qed.

(** Settling every placeholder of conversation [c] leaves conversation
    [cid] without pending messages, when [c] is [cid] or [cid] had none. *)
Lemma settle_tidy (f : Message -> Message) c cid cs :
  (forall m, wellTagged m -> wellTagged (f m) /\ isPending (f m) = false) ->
  Forall wellTagged (messagesOf cid cs) ->
  pendingCount cid cs = 0 \/ c = cid ->
  Forall wellTagged (messagesOf cid (mapConversation c f cs)) /\
  pendingCount cid (mapConversation c f cs) = 0.
Proof.
  intros Hf Htag Hor. unfold pendingCount.
  rewrite messagesOf_mapConversation.
  destruct (String.eqb_spec c cid) as [E|E].
  - by apply settle_all.
  - destruct Hor as [H0|]; [done | congruence].
Qed.

Lemma pending_app (xs ys : list Message) :
  length (List.filter isPending (xs ++ ys)) =
  length (List.filter isPending xs) + length (List.filter isPending ys).
Proof. by rewrite List.filter_app, length_app. Qed.

Lemma findIndex_Some {A} (p : A -> bool) (l : list A) (i : nat) :
  findIndex p l = Some i -> exists x, l !! i = Some x /\ p x = true.
Proof.
  revert i. induction l as [|a l IH]; intros i; simpl; [discriminate|].
  destruct (p a) eqn:E.
  - intros [= <-]. by exists a.
  - destruct (findIndex p l) as [j|]; [|discriminate].
    intros [= <-]. by apply IH.
Qed.

(** [onMutate] from a state without pending messages: the snapshot is the
    cache it found, and afterwards conversation [cid] holds at most one
    pending message, and none unless it is the conversation of the send. *)
Lemma onMutate_tidy vars now w cid :
  tidyState cid 0 w ->
  wellTagged (sv_userMessage vars) ->
  isPending (sv_userMessage vars) = false ->
  wellTagged (sv_aiMessagePlaceholder vars) ->
  previousConversations (fst (onMutate vars now w)) = queryData w /\
  ctx_conversationId (fst (onMutate vars now w)) = activeConversationId w /\
  exists k, k <= 1 /\ tidyState cid k (snd (onMutate vars now w)) /\
            (k = 0 \/ (activeConversationId w = Some cid /\
                       is_Some (queryData w))).
Proof.
  intros Hw Hu Hup Hp. unfold onMutate.
  assert (exists k, k <= 1 /\ tidyState cid k w /\
                    (k = 0 \/ (activeConversationId w = Some cid /\
                               is_Some (queryData w)))) as Hsame.
  { exists 0. split; [lia|]. split; [done|]. by left. }
  destruct (activeConversationId w) as [cid0|] eqn:Hact; [|done].
  destruct (queryData w) as [prev|] eqn:Hq; [|done].
  destruct (negb (Js.truthy cid0)); [done|].
  destruct (findIndex _ prev) as [i|] eqn:Hi; [|done].
  destruct (findIndex_Some _ _ _ Hi) as (c & Hc & Hid).
  rewrite Hc. cbn [fst snd previousConversations ctx_conversationId].
  split; [done|]. split; [done|].
  destruct Hw as (Htag & Hcount & Hobs).
  unfold conversations in Htag, Hcount. rewrite Hq in Htag, Hcount.
  change (default [] (Some prev)) with prev in Htag, Hcount.
  rewrite <- (take_drop_middle prev i c Hc) in Htag, Hcount.
  unfold pendingCount in Hcount.
  rewrite messagesOf_app, messagesOf_cons in Htag, Hcount.
  rewrite !pending_app in Hcount.
  apply Forall_app in Htag as [HtA Htag]. apply Forall_app in Htag as [HtX HtB].
  set (new := if match messages c with
                 | m :: _ => Js.startsWith (msg_id m) "initial"
                 | [] => false
                 end
              then [sv_userMessage vars; sv_aiMessagePlaceholder vars]
              else messages c ++
                   [sv_userMessage vars; sv_aiMessagePlaceholder vars]).
  assert (messagesOf cid (with_messages new c :: delete i prev) =
          (if String.eqb (conv_id c) cid then new else []) ++
          messagesOf cid (take i prev) ++ messagesOf cid (drop (S i) prev))
    as Hnew.
  { rewrite messagesOf_cons, delete_take_drop, messagesOf_app. done. }
  set (k := length (List.filter isPending
                      (if String.eqb (conv_id c) cid then new else []))).
  assert (Forall wellTagged (if String.eqb (conv_id c) cid then new else [])
          /\ k <= 1 /\ (k = 0 \/ cid0 = cid)) as (HtN & Hk & Hor).
  { subst k. destruct (String.eqb_spec (conv_id c) cid) as [E|E];
      [|split; [done|]; split; [simpl; lia | by left]].
    apply String.eqb_eq in Hid.
    assert (length (List.filter isPending (messages c)) = 0) as Hx by lia.
    assert (length (List.filter isPending
                      [sv_userMessage vars; sv_aiMessagePlaceholder vars])
            <= 1) as H2.
    { simpl. rewrite Hup.
      destruct (isPending (sv_aiMessagePlaceholder vars)); simpl; lia. }
    subst new. destruct (match messages c with
                         | m :: _ => Js.startsWith (msg_id m) "initial"
                         | [] => false
                         end).
    - split; [by repeat constructor|]. split; [done|]. right. congruence.
    - split; [apply Forall_app; split; [done | by repeat constructor]|].
      rewrite pending_app, Hx. split; [done|]. right. congruence. }
  exists k. split; [done|]. split.
  - apply (setQueryData_tidy cid 0 k); [| | |done].
    + split; [|split; [|done]]; unfold conversations; rewrite Hq;
        change (default [] (Some prev)) with prev.
      * rewrite <- (take_drop_middle prev i c Hc), messagesOf_app,
          messagesOf_cons. by repeat (apply Forall_app; split).
      * unfold pendingCount.
        rewrite <- (take_drop_middle prev i c Hc), messagesOf_app,
          messagesOf_cons, !pending_app. lia.
    + rewrite Hnew. by repeat (apply Forall_app; split).
    + unfold pendingCount. rewrite Hnew, !pending_app. subst k. lia.
  - destruct Hor as [->| ->]; [by left | right]. split; [done | by eexists].
Qed.

Lemma onSettled_tidy ctx cid n w :
  tidyState cid n w -> tidyState cid n (onSettled ctx w).
Proof.
  intros Hw. unfold onSettled.
  destruct (ctx_conversationId ctx) as [c|]; [|by eapply tidyState_frame].
  destruct (_ && _); by eapply tidyState_frame.
Qed.

(** [onError] ends without pending messages in [cid]. *)
Lemma onError_tidy B e ctx now w cid j :
  formattedTimestamp now <> "" ->
  j <= 1 -> tidyState cid j w ->
  (forall prev, previousConversations ctx = Some prev ->
                Forall wellTagged (messagesOf cid prev) /\
                pendingCount cid prev = 0) ->
  (j = 0 \/ (ctx_conversationId ctx = Some cid /\
             is_Some (previousConversations ctx))) ->
  tidyState cid 0 (onError B e ctx now w).
Proof.
  intros Hstamp Hj Hw Hprev Hor. unfold onError.
  set (w1 := match previousConversations ctx with
             | Some prev => setQueryData prev w
             | None => w
             end).
  assert (exists j1, j1 <= 1 /\ tidyState cid j1 w1 /\
                     (j1 = 0 \/ ctx_conversationId ctx = Some cid) /\
                     (is_Some (previousConversations ctx) -> j1 = 0))
    as (j1 & Hj1 & Hw1 & Hor1 & Hz).
  { subst w1. destruct (previousConversations ctx) as [prev|] eqn:Hp.
    - destruct (Hprev prev eq_refl) as [Ht Hc]. exists 0.
      split; [lia|]. split; [|split; [by left | done]].
      apply (setQueryData_tidy cid j 0); [done | done | done | lia].
    - exists j. split; [done|]. split; [done|]. split.
      + destruct Hor as [->|[_ [x Hx]]]; [by left | congruence].
      + by intros [x [=]]. }
  assert (j1 = 0 -> tidyState cid 0 w1) as Hdone by (by intros <-).
  destruct (ctx_conversationId ctx) as [c|] eqn:Hc.
  2:{ apply Hdone. destruct Hor1 as [|[=]]; done. }
  destruct (Js.truthy c) eqn:Htr.
  2:{ destruct Hor as [->|[[= ->] Hsome]]; [|by apply Hdone, Hz].
      subst w1. destruct (previousConversations ctx) as [prev|] eqn:Hp.
      - by apply Hdone, Hz.
      - done. }
  pose proof Hw1 as (Ht1 & Hc1 & _).
  destruct (settle_tidy
              (errorMessageInto (errorTextFor e) (formattedTimestamp now))
              c cid (conversations w1)) as [HtL HcL].
  { intros m Hm. by apply errorMessageInto_settles. }
  { done. }
  { destruct Hor1 as [->|[= ->]]; [by left | by right]. }
  pose proof (updateConversationsMutation_tidy B cid j1 0 _ w1
                Hj1 ltac:(lia) Hw1 HtL HcL) as Hu.
  change (default [] (queryData w1)) with (conversations w1).
  destruct (fst (updateConversationsMutation B _ w1)) as [a|msg|];
    [done|..].
  all: destruct Hu as [Hu|Hu]; [done|].
  all: destruct Hor as [->|[_ Hsome]];
    [|by rewrite (Hz Hsome) in Hu].
  all: subst w1; destruct (previousConversations ctx) as [prev|] eqn:Hp;
    [by rewrite (Hz ltac:(by eexists)) in Hu|].
  all: destruct Hw1 as (_ & <- & _); destruct Hw as (_ & <- & _); exact Hu.
Qed.

(** [onSuccess] leaves the pending messages as they are, or finalizes
    them; it finalizes when the result carries usage metadata for the
    conversation of the send and the write succeeds. *)
Lemma onSuccess_tidy B res ctx now w cid k :
  formattedTimestamp now <> "" ->
  k <= 1 -> tidyState cid k w ->
  (k = 0 \/ ctx_conversationId ctx = Some cid) ->
  exists j, (j = 0 \/ j = k) /\
            tidyState cid j (snd (onSuccess B res ctx now w)) /\
            (forall c u,
               fst (onSuccess B res ctx now w) = Ok tt ->
               ctx_conversationId ctx = Some c -> Js.truthy c = true ->
               res = (Some u, c) -> j = 0).
Proof.
  intros Hstamp Hk Hw Hor. unfold onSuccess.
  assert (exists j, (j = 0 \/ j = k) /\ tidyState cid j w /\
                    (forall (c : string) (u : UsageMetadata),
                       False -> j = 0)) as Hsame.
  { exists k. split; [by right|]. by split. }
  destruct (ctx_conversationId ctx) as [c0|] eqn:Hc0.
  2:{ exists k. split; [by right|]. split; [done|]. by intros c u _ [=]. }
  destruct (Js.truthy c0) eqn:Htr; cbn [andb].
  2:{ exists k. split; [by right|]. split; [done|].
      intros c u _ [= <-]. congruence. }
  destruct res as [[u|] c1]; cbn [fst snd Js.present andb].
  2:{ exists k. split; [by right|]. split; [done|]. by intros c u _ _ _ [=]. }
  destruct (String.eqb_spec c1 c0) as [->|Hne].
  2:{ exists k. split; [by right|]. split; [done|].
      intros c u' _ [= <-] _ [= _ ?]. congruence. }
  unfold getW, mbind, M_bind.
  change (default [] (queryData w)) with (conversations w).
  pose proof Hw as (Ht & Hc & _).
  set (L := mapConversation c0 _ (conversations w)).
  destruct (settle_tidy
              (finalizeMessage (Some u)
                 (performanceNow now -
                  (if (startTime ctx =? 0)%Z then performanceNow now
                   else startTime ctx))%Z
                 (formattedTimestamp now))
              c0 cid (conversations w)) as [HtL HcL].
  { intros m Hm. by apply finalizeMessage_settles. }
  { done. }
  { destruct Hor as [->|[= ->]]; [by left | by right]. }
  fold L in HtL, HcL.
  pose proof (updateConversationsMutation_tidy B cid k 0 L w
                Hk ltac:(lia) Hw HtL HcL) as Hu.
  destruct (updateConversationsMutation B L w) as [[a|msg|] w3];
    cbn [fst snd] in *.
  - exists 0. split; [by left|]. by split.
  - destruct Hu as [Hu|Hu]; [exists 0 | exists k];
      (split; [tauto|]); (split; [done|]); by intros c u' [=].
  - destruct Hu as [Hu|Hu]; [exists 0 | exists k];
      (split; [tauto|]); (split; [done|]); by intros c u' [=].
Qed.

(** The cycle of one send after [onMutate], from a state in which
    conversation [cid] holds at most one pending message: every list shown
    holds at most one pending message of [cid], and the cycle ends with
    none when [mutationFn] threw, or returned usage metadata for the
    conversation of the send. *)
Lemma sendAfterMutate_tidy B fuel vars h ctx clk1 w1 cid k :
  formattedTimestamp clk1 <> "" ->
  k <= 1 -> tidyState cid k w1 ->
  (forall prev, previousConversations ctx = Some prev ->
                Forall wellTagged (messagesOf cid prev) /\
                pendingCount cid prev = 0) ->
  (k = 0 \/ (ctx_conversationId ctx = Some cid /\
             is_Some (previousConversations ctx))) ->
  exists j, j <= 1 /\
    tidyState cid j (sendAfterMutate B fuel vars h ctx clk1 w1) /\
    match fst (mutationFn B fuel vars h w1) with
    | Ok (Some _, c) => ctx_conversationId ctx = Some c -> c <> "" -> j = 0
    | Ok (None, _) => True
    | Throw _ => j = 0
    | Hang => True
    end.
Proof.
  intros Hstamp Hk Hw1 Hsnap Hor. unfold sendAfterMutate.
  pose proof (mutationFn_tidy B fuel vars h cid k Hk w1 Hw1) as Hw2.
  assert (forall j, j = 0 \/ j = k ->
            j <= 1 /\
            (j = 0 \/ (ctx_conversationId ctx = Some cid /\
                       is_Some (previousConversations ctx)))) as Hj.
  { intros j [->| ->]; [split; [lia | by left]|]. by split. }
  destruct (mutationFn B fuel vars h w1) as [[[usage c]|e|] w2];
    cbn [fst snd] in *.
  - destruct (onSuccess_tidy B (usage, c) ctx clk1 w2 cid k Hstamp Hk Hw2)
      as (j & Hjk & Hw3 & Hfin).
    { destruct Hor as [->|[? ?]]; [by left | by right]. }
    destruct (Hj j Hjk) as [Hj1 Hjor].
    destruct (onSuccess B (usage, c) ctx clk1 w2) as [[[]|e|] w3] eqn:Hs;
      cbn [fst snd] in *.
    + exists j. split; [done|]. split; [by apply onSettled_tidy|].
      destruct usage as [u|]; [|done]. intros Hact Hne.
      apply (Hfin c u); [done | done | | done].
      unfold Js.truthy. by destruct (String.eqb_spec c "").
    + exists 0. split; [lia|]. split.
      * apply onSettled_tidy. by apply (onError_tidy B e ctx clk1 w3 cid j).
      * by destruct usage.
    + exists j. split; [done|]. split; [done|].
      destruct usage as [u|]; [|done]. intros Hact Hne.
      apply (Hfin c u); [| done | | done].
      * (* the callback never returned: not a case of completion *)
        exfalso. clear -Hs.
        unfold onSuccess in Hs.
        destruct (ctx_conversationId ctx); [|discriminate].
        destruct (_ && _); [|discriminate].
        unfold getW, mbind, M_bind in Hs.
        unfold updateConversationsMutation, saveConversations in Hs.
        destruct (0 <? length _)%nat.
        -- destruct (setItemOutcome B _); discriminate.
        -- destruct (removeItemThrows B); discriminate.
      * unfold Js.truthy. by destruct (String.eqb_spec c "").
  - exists 0. split; [lia|]. split; [|done].
    apply onSettled_tidy.
    destruct (Hj k (or_intror eq_refl)) as [_ Hkor].
    by apply (onError_tidy B e ctx clk1 w2 cid k).
  - by exists k.
Qed.

(** [saveConversations] writes the store only, and returns its list. *)
Lemma saveConversations_frame B L w :
  conversations (snd (saveConversations B L w)) = conversations w /\
  observed (snd (saveConversations B L w)) = observed w /\
  queryData (snd (saveConversations B L w)) = queryData w /\
  match fst (saveConversations B L w) with
  | Ok saved => saved = L
  | Throw _ => True
  | Hang => False
  end.
Proof.
  unfold saveConversations. destruct (0 <? length L)%nat.
  - by destruct (setItemOutcome B _).
  - by destruct (removeItemThrows B).
Qed.

(** Up to the start of [mutationFn], from a state without pending
    messages: the snapshot of the send has none, and afterwards
    conversation [cid] holds at most one pending message, and none unless
    it is the conversation of the send. *)
Lemma sendStart_tidy B write vars now w cid :
  tidyState cid 0 w ->
  (forall cs, write = Some cs ->
              Forall wellTagged (messagesOf cid cs) /\
              pendingCount cid cs = 0) ->
  wellTagged (sv_userMessage vars) ->
  isPending (sv_userMessage vars) = false ->
  wellTagged (sv_aiMessagePlaceholder vars) ->
  ctx_conversationId (fst (sendStart B write vars now w))
    = activeConversationId w /\
  (forall prev,
     previousConversations (fst (sendStart B write vars now w)) = Some prev ->
     Forall wellTagged (messagesOf cid prev) /\ pendingCount cid prev = 0) /\
  exists k, k <= 1 /\ tidyState cid k (snd (sendStart B write vars now w)) /\
            (k = 0 \/
             (ctx_conversationId (fst (sendStart B write vars now w))
                = Some cid /\
              is_Some (previousConversations
                         (fst (sendStart B write vars now w))))).
Proof.
  intros Hw Hwrite Hu Hup Hp. unfold sendStart, writeOnMutate.
  destruct write as [cs|].
  - destruct (Hwrite cs eq_refl) as [Hcs Hcs0].
    assert (tidyState cid 0 (setQueryData cs w)) as Hwa
      by (apply (setQueryData_tidy cid 0 0); [done | done | done | lia]).
    destruct (onMutate_tidy vars now (setQueryData cs w) cid Hwa Hu Hup Hp)
      as (Hprev & Hcid & k & Hk & Hwb & Hor).
    destruct (onMutate vars now (setQueryData cs w)) as [ctx wb].
    cbn [fst snd] in *.
    split; [done|]. split.
    { intros prev Hq. rewrite Hprev in Hq. cbn in Hq.
      injection Hq as <-. done. }
    unfold writeSettle.
    destruct (saveConversations_frame B cs wb) as (Hc & Ho & Hq & Hres).
    destruct (saveConversations B cs wb) as [[saved|e|] w2];
      cbn [fst snd] in *; [| |done].
    + subst saved. exists 0. split; [lia|]. split; [|by left].
      apply (setQueryData_tidy cid k 0); [|done | done | lia].
      by eapply tidyState_frame.
    + assert (tidyState cid k w2) as Hw2 by (by eapply tidyState_frame).
      destruct (queryData w) as [prev|] eqn:Hqw.
      * exists 0. split; [lia|]. split; [|by left].
        eapply tidyState_frame;
          [| |apply (setQueryData_tidy cid k 0 prev w2 Hw2)]; try done.
        -- destruct Hw as (Ht & _ & _). unfold conversations in Ht.
           by rewrite Hqw in Ht.
        -- destruct Hw as (_ & Hc0 & _). unfold conversations in Hc0.
           by rewrite Hqw in Hc0.
        -- lia.
      * exists k. split; [done|]. split; [by eapply tidyState_frame|].
        destruct Hor as [->|[H1 H2]]; [by left | right].
        split; [by rewrite Hcid|]. rewrite Hprev. cbn. by eexists.
  - destruct (onMutate_tidy vars now w cid Hw Hu Hup Hp)
      as (Hprev & Hcid & k & Hk & Hw1 & Hor).
    split; [done|]. split.
    { intros prev Hq. rewrite Hprev in Hq. destruct Hw as (Ht & Hc & _).
      unfold conversations in Ht, Hc. by rewrite Hq in Ht, Hc. }
    exists k. split; [done|]. split; [done|].
    destruct Hor as [->|[? ?]]; [by left | right].
    by rewrite Hcid, Hprev.
Qed.

(** The cycle of one send, from a state in which conversation [cid] has
    no pending message: every list shown holds at most one pending message
    of [cid], and the cycle ends with none when [mutationFn] threw, or
    returned usage metadata for the active conversation. *)
Lemma sendMessageMutation_tidy B fuel write vars h clk0 clk1 w cid :
  formattedTimestamp clk1 <> "" ->
  tidyState cid 0 w ->
  (forall cs, write = Some cs ->
              Forall wellTagged (messagesOf cid cs) /\
              pendingCount cid cs = 0) ->
  wellTagged (sv_userMessage vars) ->
  isPending (sv_userMessage vars) = false ->
  wellTagged (sv_aiMessagePlaceholder vars) ->
  exists k, k <= 1 /\
    tidyState cid k (sendMessageMutation B fuel write vars h clk0 clk1 w) /\
    match fst (mutationFn B fuel vars h
                 (snd (sendStart B write vars clk0 w))) with
    | Ok (Some _, c) =>
        activeConversationId w = Some c -> c <> "" -> k = 0
    | Ok (None, _) => True
    | Throw _ => k = 0
    | Hang => True
    end.
Proof.
  intros Hstamp Hw Hwrite Hu Hup Hp. unfold sendMessageMutation.
  destruct (sendStart_tidy B write vars clk0 w cid Hw Hwrite Hu Hup Hp)
    as (Hcid & Hsnap & k & Hk & Hw1 & Hor).
  destruct (sendStart B write vars clk0 w) as [ctx w1]. cbn [fst snd] in *.
  destruct (sendAfterMutate_tidy B fuel vars h ctx clk1 w1 cid k
              Hstamp Hk Hw1 Hsnap Hor) as (j & Hj & Hfin & Hout).
  exists j. split; [done|]. split; [done|].
  destruct (fst (mutationFn B fuel vars h w1)) as [[[u|] c]|e|]; try done.
  intros Hact. apply Hout. by rewrite Hcid.
Qed.

Lemma mutateConversations_tidy B cid L w :
  tidyState cid 0 w ->
  Forall wellTagged (messagesOf cid L) -> pendingCount cid L = 0 ->
  tidyState cid 0 (snd (mutateConversations B L w)).
Proof.
  intros Hw HL Hc. unfold mutateConversations. cbn [snd].
  pose proof (updateConversationsMutation_tidy B cid 0 0 L w
                ltac:(lia) ltac:(lia) Hw HL Hc) as Hu.
  destruct (fst (updateConversationsMutation B L w)); tauto.
Qed.

Lemma messagesOf_retitle cid c t cs :
  messagesOf cid
    (map (fun x => if String.eqb (conv_id x) c then with_title t x else x) cs)
  = messagesOf cid cs.
Proof.
  induction cs as [|x cs IH]; [done|]. cbn [map].
  rewrite !messagesOf_cons, IH. by destruct (String.eqb (conv_id x) c).
Qed.

(** The title write [handleSendMessage] starts, if it starts one, holds
    the list of the render with one title changed. *)
Lemma handleSendMessage_write B txt fs now w cs :
  writeStarted (drop (length (started w))
                     (started (snd (handleSendMessage B txt fs now w))))
    = Some cs ->
  exists target,
    cs = map (fun c => if String.eqb (conv_id c) target
                       then with_title "Chat with Files" c else c)
             (conversations w).
Proof.
  unfold handleSendMessage.
  assert (writeStarted (drop (length (started w)) (started w)) = None) as H0
    by (by rewrite drop_all).
  destruct (negb (Js.truthyO (apiKey w))); [cbn; by rewrite H0|].
  destruct (0 <? length (errors (validateFiles fs)))%nat;
    [cbn; by rewrite H0|].
  destruct (activeConversation w) as [c|]; [|cbn; by rewrite H0].
  destruct (activeConversationId w) as [target|]; [|cbn; by rewrite H0].
  destruct (negb (Js.truthy target)); [cbn; by rewrite H0|].
  destruct (_ && negb (refIs _ _)); [cbn; by rewrite H0|].
  cbn [snd started set_started set_activeStreamingRef set_isLoading
       set_fileErrors].
  destruct (_ && (_ || _)).
  - destruct (_ && negb (Js.isBlank txt));
      cbn [started set_started set_fileErrors];
      rewrite <- app_assoc, drop_app_length; [discriminate|].
    cbn. intros [= <-]. by exists target.
  - cbn [started set_fileErrors]. by rewrite drop_app_length.
Qed.

(** What [handleSendMessage] starts from a state without pending
    messages. *)
Lemma handleSendMessage_tidy B txt fs now w cid :
  formattedTimestamp now <> "" ->
  tidyState cid 0 w ->
  tidyState cid 0 (snd (handleSendMessage B txt fs now w)) /\
  (forall cs,
     writeStarted (drop (length (started w))
                        (started (snd (handleSendMessage B txt fs now w))))
       = Some cs ->
     Forall wellTagged (messagesOf cid cs) /\ pendingCount cid cs = 0) /\
  forall vars h,
    fst (handleSendMessage B txt fs now w) = Some (vars, h) ->
    wellTagged (sv_userMessage vars) /\
    isPending (sv_userMessage vars) = false /\
    wellTagged (sv_aiMessagePlaceholder vars) /\
    activeConversationId (snd (handleSendMessage B txt fs now w)) =
      Some (sv_targetConversationId vars) /\
    sv_targetConversationId vars <> "".
Proof.
  intros Hstamp Hw. split; [|split].
  2:{ intros cs Hcs. apply handleSendMessage_write in Hcs as [target ->].
      destruct Hw as (Ht & Hc & _). unfold pendingCount.
      by rewrite messagesOf_retitle. }
  all: unfold handleSendMessage.
  all: destruct (negb (Js.truthyO (apiKey w)));
    [first [by eapply tidyState_frame | discriminate]|].
  all: destruct (0 <? length (errors (validateFiles fs)))%nat;
    [first [by eapply tidyState_frame | discriminate]|].
  all: destruct (activeConversation w) as [c|];
    [|first [by eapply tidyState_frame | discriminate]].
  all: destruct (activeConversationId w) as [target|] eqn:Hact;
    [|first [by eapply tidyState_frame | discriminate]].
  all: destruct (Js.truthy target) eqn:Htr; cbn [negb];
    [|first [by eapply tidyState_frame | discriminate]].
  all: destruct (_ && negb (refIs _ _));
    [first [by eapply tidyState_frame | discriminate]|].
  all: cbn [fst snd].
  - eapply tidyState_frame; [| |exact Hw].
    + destruct (_ && (_ || _)); [|done].
      by destruct (_ && negb (Js.isBlank txt)).
    + destruct (_ && (_ || _)); [|done].
      by destruct (_ && negb (Js.isBlank txt)).
  - intros vars h [= <- _]. cbn.
    destruct (mkUserMessage_tagged now txt (valid (validateFiles fs)) Hstamp)
      as [H1 H2].
    destruct (mkPlaceholder_tagged now) as [H3 _].
    assert (activeConversationId
              (if (length (List.filter
                             (fun m => bool_decide (sender m = user))
                             (messages c)) =? 0)%nat
                  && (Js.truthy txt && negb (Js.isBlank txt)
                      || (0 <? length (valid (validateFiles fs)))%nat)
               then
                 if Js.truthy txt && negb (Js.isBlank txt)
                 then set_started
                        (started (set_fileErrors [] w) ++
                         [GenerateChatTitle txt target])
                        (set_fileErrors [] w)
                 else set_started
                        (started (set_fileErrors [] w) ++
                         [UpdateConversations
                            (map (fun c0 =>
                                    if String.eqb (conv_id c0) target
                                    then with_title "Chat with Files" c0
                                    else c0) (conversations w))])
                        (set_fileErrors [] w)
               else set_fileErrors [] w) = Some target) as Hact2.
    { destruct (_ && (_ || _)); [|done].
      by destruct (_ && negb (Js.isBlank txt)). }
    repeat split; try done.
    intros ->. discriminate.
Qed.

(** [mutationFn] returns the conversation it was started for. *)
Lemma mutationFn_returns_target B fuel vars h w u c w' :
  mutationFn B fuel vars h w = (Ok (u, c), w') ->
  c = sv_targetConversationId vars.
Proof.
  assert (forall {A C} (m : M A) (f : A -> M C) (Q : C -> Prop),
            (forall a w1 r w2, f a w1 = (Ok r, w2) -> Q r) ->
            forall w1 r w2, (m ≫= f) w1 = (Ok r, w2) -> Q r) as Hbind.
  { intros A C m f Q Hf w1 r w2. unfold mbind, M_bind.
    destruct (m w1) as [[a| |] w3]; [apply Hf | discriminate..]. }
  assert (forall r w1 w2,
            mutationFn B fuel vars h w1 = (Ok r, w2) ->
            snd r = sv_targetConversationId vars) as H;
    [|by apply (H (u, c) w w')].
  clear -Hbind. unfold mutationFn. intros r w1 w2. revert w1 r w2.
  apply Hbind. intros w0 w1 r w2.
  destruct (conversationsMap w0 !! _); [|discriminate].
  destruct (_ && negb (refIs _ _)); [discriminate|].
  revert w1 r w2. apply Hbind. intros _. apply Hbind. intros _.
  destruct (bool_decide _).
  - apply Hbind. intros img. apply Hbind. intros _ w1 r w2 [= <- _]. done.
  - apply Hbind. intros usage w1 r w2 [= <- _]. done.
Qed.

(** X1.  The placeholder invariant, where the code keeps it.  From a state in which
    conversation [cid] is well tagged and has no pending message, a send
    from the input shows only lists with at most one pending message of
    [cid]; and it ends with none when the stream (or the image call)
    failed, or returned usage metadata. *)
Theorem send_shows_at_most_one_pending
  (B : Backend) (fuel : nat) (txt : string) (fs : list File)
  (clk0 clk1 : Clock) (w : World) (cid : string) :
  formattedTimestamp clk0 <> "" ->
  formattedTimestamp clk1 <> "" ->
  tidyState cid 0 w ->
  exists k, k <= 1 /\
    tidyState cid k (sendFromInput B fuel txt fs clk0 clk1 w) /\
    forall vars h w0,
      handleSendMessage B txt fs clk0 w = (Some (vars, h), w0) ->
      let write := writeStarted (drop (length (started w)) (started w0)) in
      match fst (mutationFn B fuel vars h
                   (snd (sendStart B write vars clk0 w0))) with
      | Ok (Some _, _) => k = 0
      | Ok (None, _) => True
      | Throw _ => k = 0
      | Hang => True
      end.
Proof.
  intros Hs0 Hs1 Hw. unfold sendFromInput.
  destruct (handleSendMessage_tidy B txt fs clk0 w cid Hs0 Hw)
    as (Hw0 & Hwrite & Hvars).
  destruct (_ && negb _) eqn:Hgate.
  2:{ exists 0. split; [lia|]. split; [done|].
      intros vars h w0 Hh. cbn zeta.
      by destruct (fst (mutationFn B fuel vars h _)) as [[[u|] c]|e|]. }
  destruct (handleSendMessage B txt fs clk0 w) as [[[vars h]|] w0];
    cbn [fst snd] in *.
  2:{ exists 0. split; [lia|]. split; [done|]. discriminate. }
  destruct (Hvars vars h eq_refl) as (H1 & H2 & H3 & H4 & H5).
  destruct (sendMessageMutation_tidy B fuel
              (writeStarted (drop (length (started w)) (started w0)))
              vars h clk0 clk1 w0 cid Hs1 Hw0 Hwrite H1 H2 H3)
    as (k & Hk & Hfin & Hout).
  exists k. split; [done|]. split; [done|].
  intros vars' h' w0' [= <- <- <-]. cbn zeta.
  destruct (mutationFn B fuel vars h _)
    as [[[[u|] c]|e|] w2] eqn:Hm; cbn [fst] in *; try done.
  apply mutationFn_returns_target in Hm. subst c. by apply Hout.
Qed.

Lemma send_shows_at_most_one_pending_sample :
  exists k, k <= 1 /\
    tidyState "A" k
      (sendFromInput (Sample.backend [Sample.rawOf [Sample.textPart "Hi"] None]
                                     None true)
                     3 "hello" [] Sample.clockA Sample.clockB Sample.world).
Proof.
  destruct (send_shows_at_most_one_pending
              (Sample.backend [Sample.rawOf [Sample.textPart "Hi"] None]
                              None true)
              3 "hello" [] Sample.clockA Sample.clockB Sample.world "A")
    as (k & Hk & Hw & _); [discriminate | discriminate | | by exists k].
  split; [|split; [reflexivity | constructor]].
  repeat constructor.
Defined.

(** C1 (the code at a send whose stream carries no usage metadata).
    Conversation [A] is active and finalized; "hello" is sent and the
    stream completes normally without usage metadata: the mutation settles
    (token released, loading flag cleared) with the placeholder still
    pending.  A second send then adds a second placeholder: two [ai]
    messages of [A] have an empty timestamp.  With usage metadata on the
    stream the same two sends leave no pending message. *)
Theorem placeholder_left_pending_without_usage :
  let run2 B :=
    let w1 := sendFromInput B 3 "hello" [] Sample.clockA Sample.clockB
                            Sample.world in
    (w1, sendFromInput B 3 "again" [] Sample.clockC Sample.clockD w1) in
  let bad := run2 (Sample.backend
                     [Sample.rawOf [Sample.textPart "Hi"] None] None true) in
  let good := run2 (Sample.backend
                      [Sample.rawOf [Sample.textPart "Hi"]
                                    (Some Sample.usage)] None true) in
  pendingCount "A" (conversations Sample.world) = 0 /\
  activeStreamingRef (fst bad) = None /\ isLoading (fst bad) = false /\
  pendingCount "A" (conversations (fst bad)) = 1 /\
  pendingCount "A" (conversations (snd bad)) = 2 /\
  map (fun m => (msg_id m, timestamp m))
      (List.filter isPending (messagesOf "A" (conversations (snd bad)))) =
    [("1000-ai", ""); ("3000-ai", "")] /\
  pendingCount "A" (conversations (fst good)) = 0 /\
  pendingCount "A" (conversations (snd good)) = 0.
Proof. vm_compute. repeat split. Qed.

(* ------------------------------------------------------------------ *)
(** ** The store adapter at its edges *)
(* ------------------------------------------------------------------ *)


Lemma orElse_nonempty (o : option string) (d : string) :
  d <> "" -> Js.orElse o d <> "".
Proof.
  intros Hd. destruct o as [s|]; [|done]. simpl.
  destruct (Js.truthy s) eqn:E; [|done].
  intros ->. discriminate.
Qed.



(** X3.  A write that the store rejects is rolled back: when the query
    cache held [prev], a failing [updateConversationsMutation] leaves the
    cache holding [prev] again and the store untouched, raises the storage
    error with the message of the failure, and subscribers were shown the
    optimistic list and then [prev].  The message tells a full store from
    any other failure. *)
Theorem failed_write_is_rolled_back (B : Backend) (cs prev : list Conversation)
  (w w' : World) (e : string) :
  queryData w = Some prev ->
  updateConversationsMutation B cs w = (Throw e, w') ->
  queryData w' = Some prev /\
  chatHistoryItem w' = chatHistoryItem w /\
  storageError w' = Some e /\
  observed w' = observed w ++ [cs; prev] /\
  (Js.includes e "quota" = true <->
   cs <> [] /\
   setItemOutcome B (ParsedArray (map toRaw (conversationsToSave cs)))
   = QuotaExceeded).
Proof.
  intros Hq. unfold updateConversationsMutation, saveConversations.
  rewrite Hq. destruct cs as [|c cs]; cbn [length Nat.ltb Nat.leb].
  - destruct (removeItemThrows B); [|discriminate].
    intros [= <- <-]. cbn. repeat split; try done.
    + by rewrite <- app_assoc.
    + by intros [? _].
  - destruct (setItemOutcome B _) eqn:Eo; [discriminate| |];
      intros [= <- <-]; cbn -[Js.includes]; (repeat split; try done);
      try (by rewrite <- app_assoc); try (by intros [_ ?]).
Qed.

Lemma failed_write_is_rolled_back_witness :
  let B := {| deleteAnswer := fun _ => Ok tt;
              uploadAnswer := fun _ => Hang;
              getAnswer := fun _ => Hang;
              createCacheAnswer := fun _ => Hang;
              streamAnswer := fun _ => Hang;
              imageAnswer := fun _ => Hang;
              setItemOutcome := fun _ => QuotaExceeded;
              removeItemThrows := false |} in
  let e := "Storage quota exceeded. Your chat history could not be saved. Please clear some browser data." in
  let w' := snd (updateConversationsMutation B [Sample.convB] Sample.world) in
  queryData Sample.world = Some [Sample.convA; Sample.convB] /\
  updateConversationsMutation B [Sample.convB] Sample.world = (Throw e, w') /\
  queryData w' = Some [Sample.convA; Sample.convB] /\
  chatHistoryItem w' = chatHistoryItem Sample.world /\
  storageError w' = Some e /\
  observed w' =
    observed Sample.world ++ [[Sample.convB]; [Sample.convA; Sample.convB]] /\
  (Js.includes e "quota" = true <->
   [Sample.convB] <> [] /\
   setItemOutcome B (ParsedArray (map toRaw (conversationsToSave [Sample.convB])))
   = QuotaExceeded).
Proof.
  intros B e w'. split; [reflexivity|]. split; [reflexivity|].
  apply (failed_write_is_rolled_back B [Sample.convB]
           [Sample.convA; Sample.convB] Sample.world w' e);
    reflexivity.
Defined.

(** X4.  A write that the store accepts keeps the list, generated images
    included, in the query cache, while the store receives the list
    without them (an empty list removes the slot); the storage error is
    left as it was, and what [mutateAsync] settles to is the list it was
    given. *)
Theorem accepted_write_keeps_images_in_memory (B : Backend)
  (cs saved : list Conversation) (w w' : World) :
  updateConversationsMutation B cs w = (Ok saved, w') ->
  saved = cs /\ queryData w' = Some cs /\
  storageError w' = storageError w /\
  chatHistoryItem w' =
    (if (0 <? length cs)%nat
     then Some (ParsedArray (map toRaw (conversationsToSave cs)))
     else None) /\
  Forall (fun c => Forall (fun m => generatedImages m = None) (messages c))
         (conversationsToSave cs).
Proof.
  unfold updateConversationsMutation, saveConversations.
  destruct (0 <? length cs)%nat.
  - destruct (setItemOutcome B _); [|destruct (queryData w); discriminate..].
    intros [= <- <-]. cbn. repeat split; try done.
    apply Forall_forall. intros c Hc.
    apply list_elem_of_fmap in Hc as (c' & -> & _). simpl.
    apply Forall_forall. intros m Hm.
    apply list_elem_of_fmap in Hm as (m' & -> & _).
    unfold stripGeneratedImages. by destruct (generatedImages m') eqn:E.
  - destruct (removeItemThrows B); [destruct (queryData w); discriminate|].
    intros [= <- <-]. cbn. repeat split; try done.
    apply Forall_forall. intros c Hc.
    apply list_elem_of_fmap in Hc as (c' & -> & _). simpl.
    apply Forall_forall. intros m Hm.
    apply list_elem_of_fmap in Hm as (m' & -> & _).
    unfold stripGeneratedImages. by destruct (generatedImages m') eqn:E.
Qed.

Lemma accepted_write_keeps_images_in_memory_witness :
  let B := Sample.backend [] None true in
  let w' := snd (updateConversationsMutation B [Sample.convB] Sample.world) in
  updateConversationsMutation B [Sample.convB] Sample.world
    = (Ok [Sample.convB], w') /\
  [Sample.convB] = [Sample.convB] /\ queryData w' = Some [Sample.convB] /\
  storageError w' = storageError Sample.world /\
  chatHistoryItem w' =
    (if (0 <? length [Sample.convB])%nat
     then Some (ParsedArray (map toRaw (conversationsToSave [Sample.convB])))
     else None) /\
  Forall (fun c => Forall (fun m => generatedImages m = None) (messages c))
         (conversationsToSave [Sample.convB]).
Proof.
  intros B w'. split; [reflexivity|].
  apply (accepted_write_keeps_images_in_memory B [Sample.convB]
           [Sample.convB] Sample.world w').
  reflexivity.
Defined.

(* ------------------------------------------------------------------ *)
(** ** The history replayed into a session *)
(* ------------------------------------------------------------------ *)

(** X5.  The history replayed into a session follows the order of the
    messages, and each entry comes from a message that is not the greeting
    and whose text is not blank: it carries that text alone, under the role
    [user] for the user and [model] for the assistant.  A streaming
    placeholder that has not received text is therefore never replayed. *)
Theorem history_skips_greeting_and_blank (xs ys : list Message) :
  mapMessagesToHistory (xs ++ ys) =
    mapMessagesToHistory xs ++ mapMessagesToHistory ys /\
  Forall (fun c => exists m, m ∈ xs /\
            Js.startsWith (msg_id m) "initial-" = false /\
            Js.isBlank (text m) = false /\
            parts_text c = [text m] /\
            role c = match sender m with user => "user" | ai => "model" end)
         (mapMessagesToHistory xs) /\
  (forall m, mapMessagesToHistory (xs ++ with_text "" m :: ys) =
             mapMessagesToHistory (xs ++ ys)).
Proof.
  unfold mapMessagesToHistory. split; [|split].
  - by rewrite List.filter_app, map_app.
  - apply Forall_forall. intros c Hc.
    apply list_elem_of_fmap in Hc as (m & -> & Hm).
    apply list_elem_of_In, filter_In in Hm as [Hin Hp].
    apply andb_prop in Hp as [Hp Hb]. apply andb_prop in Hp as [Hi _].
    exists m. repeat split.
    + by apply list_elem_of_In.
    + by destruct (Js.startsWith _ _).
    + by destruct (Js.isBlank _).
  - intros m. rewrite !List.filter_app. cbn [List.filter text with_text].
    cbn [Js.truthy String.eqb negb andb]. by rewrite andb_false_r.
Qed.

(* ------------------------------------------------------------------ *)
(** ** What a stream leaves in the placeholder, field by field *)
(* ------------------------------------------------------------------ *)

Lemma fold_left_snoc {A C} (f : A -> C -> A) (l : list C) (x : C) (a : A) :
  fold_left f (l ++ [x]) a = f (fold_left f l a) x.
Proof. by rewrite fold_left_app. Qed.

Lemma finalUsage_last (chunks : list RawChunk) :
  finalUsage chunks = last (omap rc_usageMetadata chunks).
Proof.
  unfold finalUsage.
  induction chunks as [|rc chunks IH] using rev_ind; [done|].
  rewrite fold_left_snoc, IH, omap_app. cbn [omap list_omap].
  destruct (rc_usageMetadata rc) as [u|].
  - by rewrite last_snoc.
  - by rewrite app_nil_r.
Qed.

Lemma orElse_Some_empty (s : string) : Js.orElse (Some s) "" = s.
Proof. by destruct s. Qed.

Lemma applyChunk_code chunk m :
  Js.orElse (executableCode (applyChunk chunk m)) "" =
  Js.orElse (executableCode m) "" +:+ chunkCode chunk.
Proof.
  unfold applyChunk, chunkCode.
  destruct (Js.truthyO (ch_executableCode chunk)) eqn:Et;
    [|rewrite (truthyO_default _ Et), append_nil_r];
    destruct (Js.truthyO (ch_text chunk)), (Js.truthyO (ch_thought chunk)),
      (Js.truthyO (ch_codeExecutionResult chunk)),
      (ch_codeExecutionImages chunk), (ch_sources chunk),
      (ch_generatedImages chunk);
    cbn [executableCode with_generatedImages with_sources
         with_codeExecutionImages with_codeExecutionResult with_thoughts
         with_text with_executableCode];
    try done; apply orElse_Some_empty.
Qed.

Lemma applyChunk_codeResult chunk m :
  Js.orElse (codeExecutionResult (applyChunk chunk m)) "" =
  Js.orElse (codeExecutionResult m) "" +:+ chunkCodeResult chunk.
Proof.
  unfold applyChunk, chunkCodeResult.
  destruct (Js.truthyO (ch_codeExecutionResult chunk)) eqn:Et;
    [|rewrite (truthyO_default _ Et), append_nil_r];
    destruct (Js.truthyO (ch_text chunk)), (Js.truthyO (ch_thought chunk)),
      (Js.truthyO (ch_executableCode chunk)),
      (ch_codeExecutionImages chunk), (ch_sources chunk),
      (ch_generatedImages chunk);
    cbn [codeExecutionResult with_generatedImages with_sources
         with_codeExecutionImages with_codeExecutionResult with_thoughts
         with_text with_executableCode];
    try done; apply orElse_Some_empty.
Qed.

Lemma applyChunk_codeImages chunk m :
  codeExecutionImages (applyChunk chunk m) =
  match ch_codeExecutionImages chunk with
  | Some imgs => Some imgs
  | None => codeExecutionImages m
  end.
Proof.
  unfold applyChunk.
  by destruct (ch_generatedImages chunk), (ch_sources chunk),
    (ch_codeExecutionImages chunk), (Js.truthyO (ch_codeExecutionResult chunk)),
    (Js.truthyO (ch_executableCode chunk)),
    (Js.truthyO (ch_thought chunk)), (Js.truthyO (ch_text chunk)).
Qed.

Lemma applyChunk_generatedImages chunk m :
  generatedImages (applyChunk chunk m) =
  match ch_generatedImages chunk with
  | Some imgs => Some imgs
  | None => generatedImages m
  end.
Proof.
  unfold applyChunk.
  by destruct (ch_generatedImages chunk), (ch_sources chunk),
    (ch_codeExecutionImages chunk), (Js.truthyO (ch_codeExecutionResult chunk)),
    (Js.truthyO (ch_executableCode chunk)),
    (Js.truthyO (ch_thought chunk)), (Js.truthyO (ch_text chunk)).
Qed.

(** X6.  Folding the deltas of a stream into a message appends the code
    fragments in arrival order to its code and the code outputs to its code
    output, while the two image lists are replaced, not appended: each
    ends as the list of the last delta that carried one, or as it was when
    no delta did. *)
Theorem stream_fold_code_and_images (chunks : list Chunk) (m : Message) :
  let m' := foldChunks chunks m in
  Js.orElse (executableCode m') "" =
    Js.orElse (executableCode m) "" +:+ Js.join (map chunkCode chunks) /\
  Js.orElse (codeExecutionResult m') "" =
    Js.orElse (codeExecutionResult m) "" +:+
    Js.join (map chunkCodeResult chunks) /\
  codeExecutionImages m' =
    match last (omap ch_codeExecutionImages chunks) with
    | Some imgs => Some imgs
    | None => codeExecutionImages m
    end /\
  generatedImages m' =
    match last (omap ch_generatedImages chunks) with
    | Some imgs => Some imgs
    | None => generatedImages m
    end.
Proof.
  unfold foldChunks.
  induction chunks as [|c chunks IH] using rev_ind.
  - cbn. by rewrite !append_nil_r.
  - destruct IH as (IH1 & IH2 & IH3 & IH4).
    rewrite fold_left_snoc, !map_app, !join_app, !omap_app.
    cbn [map omap list_omap Js.join foldr].
    rewrite applyChunk_code, applyChunk_codeResult, applyChunk_codeImages,
      applyChunk_generatedImages, IH1, IH2, IH3, IH4.
    rewrite !append_nil_r, !append_assoc.
    split; [done|]. split; [done|]. split.
    + destruct (ch_codeExecutionImages c); [by rewrite last_snoc|].
      by rewrite app_nil_r.
    + destruct (ch_generatedImages c); [by rewrite last_snoc|].
      by rewrite app_nil_r.
Qed.

(* ------------------------------------------------------------------ *)
(** ** Citations extracted from one chunk *)
(* ------------------------------------------------------------------ *)

Lemma truthy_nonempty s : Js.truthy s = true -> s <> "".
Proof. intros H ->. discriminate. Qed.

Lemma truthyO_nonempty o : Js.truthyO o = true -> default "" o <> "".
Proof. destruct o as [s|]; [apply truthy_nonempty | discriminate]. Qed.

Lemma pushUrl_complete srcs meta :
  Forall complete srcs -> Forall complete (pushUrl srcs meta).
Proof.
  intros H. unfold pushUrl. destruct (retrievedUrl meta) as [u|]; [|done].
  destruct (Js.truthy u) eqn:Et; [|done].
  destruct (negb (hasUri srcs u)); [|done]. cbn [andb].
  apply Forall_app. split; [done|]. repeat constructor; simpl.
  - by apply truthy_nonempty.
  - destruct (Js.truthy (afterLastSep u "")) eqn:E;
      by apply truthy_nonempty.
Qed.

Lemma pushGround_complete srcs g :
  Forall complete srcs -> Forall complete (pushGround srcs g).
Proof.
  intros H. unfold pushGround.
  destruct (g_maps g) as [m|].
  - destruct (Js.truthyO (maps_uri m) && Js.truthyO (maps_title m)) eqn:Em.
    + apply andb_prop in Em as [E1 E2].
      destruct (negb (hasUri srcs _)); [|done].
      apply Forall_app. split; [done|].
      repeat constructor; simpl; by apply truthyO_nonempty.
    + destruct (g_web g) as [x|]; [|done].
      destruct (Js.truthyO (web_uri x) && Js.truthyO (web_title x)) eqn:Ex;
        [|done].
      apply andb_prop in Ex as [E1 E2].
      destruct (negb (hasUri srcs _)); [|done].
      apply Forall_app. split; [done|].
      repeat constructor; simpl; by apply truthyO_nonempty.
  - destruct (g_web g) as [x|]; [|done].
    destruct (Js.truthyO (web_uri x) && Js.truthyO (web_title x)) eqn:Ex;
      [|done].
    apply andb_prop in Ex as [E1 E2].
    destruct (negb (hasUri srcs _)); [|done].
    apply Forall_app. split; [done|].
    repeat constructor; simpl; by apply truthyO_nonempty.
Qed.

Lemma fold_left_Forall {A C} (P : A -> Prop) (f : A -> C -> A) l a :
  (forall a c, P a -> P (f a c)) -> P a -> P (fold_left f l a).
Proof.
  intros Hf. revert a. induction l as [|c l IH]; intros a Ha; [done|].
  simpl. by apply IH, Hf.
Qed.

(** X7.  Every citation extracted from a stream chunk has a non-empty
    uri and a non-empty title, and no two of them share a uri. *)
Theorem extracted_citations_are_complete (rc : RawChunk) :
  Forall complete (extractSources rc) /\
  NoDup (map uri (extractSources rc)).
Proof.
  split.
  - unfold extractSources.
    apply (fold_left_Forall (Forall complete));
      [intros; by apply pushGround_complete|].
    apply (fold_left_Forall (Forall complete));
      [intros; by apply pushUrl_complete | constructor].
  - apply extractSources_spec.
Qed.

(* ------------------------------------------------------------------ *)
(** ** The staged files *)
(* ------------------------------------------------------------------ *)

Lemma removeFile_from (l : list File) (k i : nat) :
  map snd (List.filter (fun p => negb (Nat.eqb (fst p) (k + i)))
                       (imap (fun j x => (k + j, x)) l)) = delete i l.
Proof.
  revert k i. induction l as [|x l IH]; intros k i; [done|].
  cbn [imap List.filter fst]. rewrite Nat.add_0_r.
  assert (imap ((fun j x => (k + j, x)) ∘ S) l
          = imap (fun j x => (S k + j, x)) l) as ->.
  { apply imap_ext. intros j y _. simpl. f_equal. lia. }
  destruct i as [|i].
  - rewrite Nat.add_0_r, Nat.eqb_refl. cbn [negb delete list_delete].
    clear IH. generalize (S k) (Nat.lt_succ_diag_r k).
    induction l as [|y l IH]; intros n Hn; [done|].
    cbn [imap List.filter fst]. rewrite Nat.add_0_r.
    destruct (Nat.eqb_spec n k) as [->|_]; [lia|]. cbn [negb map snd].
    f_equal.
    assert (imap ((fun j x => (n + j, x)) ∘ S) l
            = imap (fun j x => (S n + j, x)) l) as ->.
    { apply imap_ext. intros j z _. simpl. f_equal. lia. }
    apply IH. lia.
  - destruct (Nat.eqb_spec k (k + S i)) as [E|_]; [lia|].
    cbn [negb map snd delete list_delete]. f_equal.
    replace (k + S i) with (S k + i) by lia. apply IH.
Qed.

Lemma removeFile_delete (i : nat) (l : list File) : removeFile i l = delete i l.
Proof. apply (removeFile_from l 0 i). Qed.

Lemma handleFileChange_accepted prev new :
  Forall (fun f => fileAccepted f = true) prev ->
  Forall (fun f => fileAccepted f = true) (handleFileChange prev new).
Proof.
  intros H. unfold handleFileChange. apply Forall_app. split; [done|].
  apply Forall_forall. intros f Hf.
  apply list_elem_of_filter in Hf as [Hf _].
  apply andb_prop in Hf as [_ Hf].
  apply validateSingleFile_None.
  by destruct (validateSingleFile f).
Qed.

Lemma stage_accepted acts :
  Forall (fun f => fileAccepted f = true) (fold_left stage acts []).
Proof.
  induction acts as [|a acts IH] using rev_ind; [constructor|].
  rewrite fold_left_app. cbn [fold_left]. destruct a as [new|i]; simpl.
  - by apply handleFileChange_accepted.
  - rewrite removeFile_delete. by apply Forall_delete.
Qed.

(** X8.  Whatever batches the user picks and whatever files the user
    removes, the files staged in the input pass the validation that
    [handleSendMessage] runs on them: it reports no error and keeps every
    one of them. *)
Theorem staged_files_pass_the_send_gate (acts : list Staging) :
  let staged := fold_left stage acts [] in
  errors (validateFiles staged) = [] /\ valid (validateFiles staged) = staged.
Proof. apply accepted_pass, stage_accepted. Qed.

Lemma handleFileChange_names prev new :
  NoDup (map file_name prev) -> NoDup (map file_name new) ->
  NoDup (map file_name (handleFileChange prev new)).
Proof.
  intros Hp Hn. unfold handleFileChange. rewrite map_app.
  apply NoDup_app. split; [done|]. split.
  - intros x Hx Hx'.
    apply list_elem_of_fmap in Hx' as (f & -> & Hf).
    apply list_elem_of_filter in Hf as [Hf _].
    apply andb_prop in Hf as [Hf _].
    apply negb_true_iff in Hf.
    apply list_elem_of_fmap in Hx as (g & Hg & Hin).
    assert (existsb (fun g => String.eqb (file_name g) (file_name f)) prev
            = true) as E; [|congruence].
    apply existsb_exists. exists g. split; [by apply list_elem_of_In|].
    rewrite Hg. apply String.eqb_refl.
  - apply (NoDup_fmap_2_strong file_name); [|by apply NoDup_filter, (NoDup_fmap_1 file_name)].
    intros x y Hx Hy Hxy.
    apply list_elem_of_filter in Hx as [_ Hx].
    apply list_elem_of_filter in Hy as [_ Hy].
    clear Hp. induction new as [|z new IH]; [by apply elem_of_nil in Hx|].
    apply NoDup_cons in Hn as [Hz Hn]. fold (map file_name new) in *.
    apply elem_of_cons in Hx as [->|Hx], Hy as [->|Hy]; try done.
    + exfalso. apply Hz. rewrite Hxy. by apply list_elem_of_fmap_2.
    + exfalso. apply Hz. rewrite <- Hxy. by apply list_elem_of_fmap_2.
    + by apply IH.
Qed.

Lemma stage_names acts :
  distinctBatches acts -> NoDup (map file_name (fold_left stage acts [])).
Proof.
  induction acts as [|a acts IH] using rev_ind; [constructor|].
  intros H. apply Forall_app in H as [H1 H2]. apply Forall_cons in H2 as [H2 _].
  rewrite fold_left_app. cbn [fold_left]. destruct a as [new|i]; simpl.
  - apply handleFileChange_names; [by apply IH | done].
  - rewrite removeFile_delete.
    assert (map file_name (delete i (fold_left stage acts []))
            = delete i (map file_name (fold_left stage acts []))) as ->.
    { generalize (fold_left stage acts []). intros l. revert i.
      induction l as [|x l IHl]; intros [|i]; simpl; try done.
      f_equal. apply IHl. }
    eapply sublist_NoDup; [by apply IH | apply sublist_delete].
Qed.

(** X9.  When no picked batch holds two files of the same name, no two
    staged files share a name, whatever is picked and removed; and a
    staged file that is removed and picked again is staged again, at the
    end of the list. *)
Theorem staged_names_stay_distinct (acts : list Staging) (i : nat) (f : File) :
  distinctBatches acts ->
  fold_left stage acts [] !! i = Some f ->
  let staged := fold_left stage acts [] in
  NoDup (map file_name staged) /\
  stage (stage staged (Remove i)) (Pick [f]) = removeFile i staged ++ [f].
Proof.
  intros Hd Hi staged. pose proof (stage_names acts Hd) as Hn.
  split; [done|]. cbn [stage]. unfold handleFileChange. f_equal.
  rewrite filter_cons, filter_nil.
  assert (fileAccepted f = true) as Hf.
  { pose proof (stage_accepted acts) as Ha.
    eapply Forall_lookup_1 in Ha; [|exact Hi]. done. }
  apply validateSingleFile_None in Hf. rewrite Hf. cbn [Js.present negb].
  rewrite andb_true_r.
  assert (existsb (fun g => String.eqb (file_name g) (file_name f))
                  (removeFile i staged) = false) as ->; [|done].
  apply not_true_is_false. intros E.
  apply existsb_exists in E as (g & Hg & Hgf).
  apply String.eqb_eq in Hgf. rewrite removeFile_delete in Hg.
  apply list_elem_of_In in Hg.
  apply list_elem_of_lookup in Hg as [j Hj].
  fold staged in Hn, Hi.
  assert (exists j', j' <> i /\ staged !! j' = Some g) as (j' & Hne & Hj').
  { destruct (decide (j < i)) as [Hlt|Hge].
    - exists j. split; [lia|]. by rewrite list_lookup_delete_lt in Hj.
    - exists (S j). split; [lia|]. rewrite list_lookup_delete_ge in Hj by lia. done. }
  apply Hne. eapply (NoDup_lookup (map file_name staged)); [done| |].
  - rewrite list_lookup_fmap, Hj'. simpl. by rewrite Hgf.
  - by rewrite list_lookup_fmap, Hi.
Qed.

Lemma staged_names_stay_distinct_witness :
  let acts := [Pick [Sample.photo; Sample.note]; Pick [Sample.hugeVideo]] in
  distinctBatches acts /\
  fold_left stage acts [] !! 0%nat = Some Sample.photo /\
  let staged := fold_left stage acts [] in
  NoDup (map file_name staged) /\
  stage (stage staged (Remove 0)) (Pick [Sample.photo])
  = removeFile 0 staged ++ [Sample.photo].
Proof.
  intros acts.
  assert (distinctBatches acts) as Hd.
  { repeat constructor; cbn; rewrite ?elem_of_cons, ?elem_of_nil;
      intuition discriminate. }
  split; [exact Hd|]. split; [reflexivity|].
  apply (staged_names_stay_distinct acts 0 Sample.photo Hd). reflexivity.
Defined.

(* ------------------------------------------------------------------ *)
(** ** What the message view re-renders *)
(* ------------------------------------------------------------------ *)

(** X10.  The comparator of the memoized message view does not look at
    the citations: a delta that carries only citations leaves the view as
    it was rendered, whatever it adds to the message.  The completion of a
    send is rendered whenever it changes the elapsed time of a
    placeholder. *)
Theorem citations_alone_do_not_rerender (m : Message) (l : list Source)
  (usage : option UsageMetadata) (elapsed : Z) (stamp : string)
  (show : bool) :
  arePropsEqual m (applyChunk (sourcesChunk l) m) show show = true /\
  arePropsEqual m (finalizeMessage usage elapsed stamp m) show show =
    negb (isStreamingPlaceholder m
          && negb (bool_decide (thinkingTime m = Some elapsed))).
Proof.
  unfold arePropsEqual, finalizeMessage. split.
  - cbn. rewrite !String.eqb_refl, !bool_decide_eq_true_2 by done. done.
  - destruct (isStreamingPlaceholder m); cbn; rewrite !String.eqb_refl.
    + destruct (bool_decide (thinkingTime m = Some elapsed));
        by rewrite ?bool_decide_eq_true_2.
    + by rewrite !bool_decide_eq_true_2.
Qed.

(* ------------------------------------------------------------------ *)
(** ** Sessions *)
(* ------------------------------------------------------------------ *)

Lemma bind_run {A C} (m : M A) (f : A -> M C) (w : World) :
  (m ≫= f) w = match m w with
               | (Ok a, w') => f a w'
               | (Throw e, w') => (Throw e, w')
               | (Hang, w') => (Hang, w')
               end.
Proof. reflexivity. Qed.

Lemma deleteAndClear_run B c w :
  deleteAndClear B c w =
  match deleteAnswer B (calls w ++ [CachesDelete (cache_name c)]) with
  | Hang => (Hang, set_calls (calls w ++ [CachesDelete (cache_name c)]) w)
  | _ => (Ok tt, afterTeardown c w)
  end.
Proof.
  unfold deleteAndClear, tryCatchFinally, cachesDelete, logCall, answer,
    getW, modify, mbind, M_bind, mret, M_ret, afterTeardown.
  cbn [calls set_calls].
  by destruct (deleteAnswer B (calls w ++ [CachesDelete (cache_name c)]))
    as [[]| |].
Qed.

(** X11.  [startNewChatSession] never throws.  Without a client it does
    nothing.  With a client it stops without a session only when the
    teardown of the active cache never answers; otherwise it ends with
    the creation of one session as its last call: for the model named,
    or for [gemini-2.5-flash-lite] with the Maps tool alone when the name
    is a Maps name; bound to the cache named, and then without a system
    instruction and with the active cache left in place; or bound to no
    cache, and then with no active cache left behind and with a system
    instruction exactly when no history is replayed. *)
Theorem startNewChatSession_outcomes (B : Backend) (name : string)
  (cached : option string) (h : list Content) (w : World) :
  match startNewChatSession B name cached h w with
  | (Throw _, _) => False
  | (Hang, w') => chat w' = chat w /\ activeCache w' = activeCache w
  | (Ok _, w') =>
      match aiClient w with
      | None => w' = w
      | Some _ =>
          exists s, chat w' = Some s /\ last (calls w') = Some (ChatsCreate s) /\
            currentModelName w' = name /\ cs_history s = h /\
            (cs_model s, cs_tools s) =
              (if Js.includes name "-maps"
               then ("gemini-2.5-flash-lite", [googleMaps])
               else (name, [googleSearch; urlContext; codeExecution])) /\
            if Js.truthyO cached
            then cs_cachedContent s = cached /\
                 cs_systemInstruction s = None /\
                 activeCache w' = activeCache w
            else cs_cachedContent s = None /\ activeCache w' = None /\
                 (cs_systemInstruction s <> None <-> h = [])
      end
  end.
Proof.
  unfold startNewChatSession. rewrite bind_run. cbn [getW].
  destruct (aiClient w) as [key|] eqn:Hai; [|done].
  rewrite bind_run. cbn [modify]. rewrite bind_run.
  destruct (activeCache w) as [c|] eqn:Hc;
    destruct (Js.truthyO cached) eqn:Ec; cbn [negb mret M_ret];
    rewrite ?deleteAndClear_run;
    try destruct (deleteAnswer B _) as [[]| |];
    cbn -[last]; rewrite ?Ec; try done;
    (eexists; split; [reflexivity|];
     split; [unfold set_chat, set_calls; cbn [calls]; by rewrite last_snoc|];
     split; [done|]; split; [done|];
     split; [by destruct (Js.includes name "-maps")|];
     cbn -[last]; repeat split; try done; destruct h; cbn; congruence).
Qed.

(* ------------------------------------------------------------------ *)
(** ** What a send puts on the wire *)
(* ------------------------------------------------------------------ *)

Lemma sameBut_refl w : sameButConversations w w.
Proof. by destruct w. Qed.

Lemma sameBut_trans w1 w2 w3 :
  sameButConversations w1 w2 -> sameButConversations w2 w3 ->
  sameButConversations w1 w3.
Proof.
  unfold sameButConversations. intros H12 H23. rewrite H23 at 1.
  rewrite H12 at 1. reflexivity.
Qed.

Lemma sameBut_setQueryData v w : sameButConversations w (setQueryData v w).
Proof. reflexivity. Qed.

Lemma sameBut_update cid c w :
  sameButConversations w (updateStreamingMessage cid c w).
Proof. apply sameBut_setQueryData. Qed.

Lemma guardedUpdate_run cid c w :
  fst (guardedUpdate cid c w) = Ok tt /\
  sameButConversations w (snd (guardedUpdate cid c w)).
Proof.
  unfold guardedUpdate.
  destruct (refIs _ _); (split; [done|]); cbn [snd];
    [apply sameBut_update | apply sameBut_refl].
Qed.

Lemma forEachM_run {A} (body : A -> M unit) (xs : list A) w :
  (forall x w, fst (body x w) = Ok tt /\
               sameButConversations w (snd (body x w))) ->
  fst (forEachM body xs w) = Ok tt /\
  sameButConversations w (snd (forEachM body xs w)).
Proof.
  intros Hb. revert w. induction xs as [|x xs IH]; intros w.
  - split; [done | apply sameBut_refl].
  - cbn [forEachM]. unfold mbind, M_bind.
    destruct (Hb x w) as [H1 H2].
    destruct (body x w) as [[[]| |] w1]; cbn [fst snd] in *; try done.
    destruct (IH w1) as [H3 H4]. split; [done|].
    by eapply sameBut_trans.
Qed.

Lemma run_Ok {A} (m : M A) (w : World) (a : A) :
  fst (m w) = Ok a -> m w = (Ok a, snd (m w)).
Proof. destruct (m w) as [o w']. simpl. by intros ->. Qed.

Lemma statusUpdate_run cid s w :
  exists w', statusUpdate cid s w = (Ok tt, w') /\ sameButConversations w w'.
Proof.
  destruct (guardedUpdate_run cid (thoughtChunk (Some s)) w) as [H1 H2].
  eexists. split; [|exact H2]. by apply run_Ok.
Qed.

Lemma attachFiles_inline B fuel onFP fs w :
  Forall inlineable fs ->
  attachFiles B fuel onFP fs w = (Ok (map inlinePart fs), w).
Proof.
  induction 1 as [|f fs [Hs Hd] _ IH]; [done|].
  cbn [attachFiles]. rewrite bind_run. unfold attachFile. rewrite Hs.
  rewrite bind_run. unfold fileToBase64.
  destruct (file_data f) as [d|] eqn:Ed; [|done].
  cbn [mret M_ret]. rewrite bind_run, IH. cbn [map].
  unfold inlinePart. by rewrite Ed.
Qed.

(** X12.  With a client and a session in place, a send whose files are
    all small enough to go inline and readable issues exactly one
    transport call: the message made of the files, in order, followed by
    the prompt.  The session is left as it was, and the send ends as the
    stream does: with the error that ended the stream, or with the usage
    metadata of the last chunk that carried any (none when no chunk
    did). *)
Theorem inline_send_is_one_request (B : Backend) (fuel : nat)
  (prompt : string) (fs : list File) (cid : string) (w : World)
  (key : string) (s : ChatSession) :
  aiClient w = Some key -> chat w = Some s -> Forall inlineable fs ->
  let r := streamGeminiResponse B fuel prompt fs (guardedUpdate cid)
                                (statusUpdate cid) w in
  let request := SendMessageStream (map inlinePart fs ++ [PText prompt]) in
  calls (snd r) = calls w ++ [request] /\
  chat (snd r) = Some s /\ activeCache (snd r) = activeCache w /\
  fst r = match streamAnswer B (calls w ++ [request]) with
          | Ok stream =>
              match sa_error stream with
              | Some e => Throw e
              | None => Ok (last (omap rc_usageMetadata (sa_chunks stream)))
              end
          | Throw e => Throw e
          | Hang => Hang
          end.
Proof.
  intros Hai Hchat Hfs. cbn zeta. unfold streamGeminiResponse.
  rewrite bind_run. cbn [getW]. rewrite Hai, Hchat. cbn [Js.present negb when].
  rewrite bind_run. cbn [mret M_ret]. rewrite bind_run. cbn [getW].
  rewrite Hchat. rewrite bind_run.
  assert ((attachFiles B fuel (statusUpdate cid) fs ≫= fun ps =>
           mret (ps ++ [PText prompt])) w
          = (Ok (map inlinePart fs ++ [PText prompt]), w)) as Hparts.
  { by rewrite bind_run, attachFiles_inline. }
  assert (match fs with
          | [file] =>
              if (file_size file >? MAX_INLINE_SIZE_BYTES)%Z
                 && String.eqb (file_type file) "application/pdf"
              then cachedPdfBranch B fuel prompt file (statusUpdate cid)
              else attachFiles B fuel (statusUpdate cid) fs ≫= fun ps =>
                   mret (ps ++ [PText prompt])
          | _ => attachFiles B fuel (statusUpdate cid) fs ≫= fun ps =>
                 mret (ps ++ [PText prompt])
          end w = (Ok (map inlinePart fs ++ [PText prompt]), w)) as ->.
  { destruct fs as [|f [|g fs']]; try exact Hparts.
    apply Forall_cons in Hfs as [[Hs _] _]. rewrite Hs. exact Hparts. }
  rewrite bind_run. cbn [logCall modify]. rewrite bind_run. cbn [getW].
  rewrite bind_run. cbn [answer calls set_calls].
  destruct (streamAnswer B _) as [stream| |]; [|by repeat split..].
  rewrite bind_run.
  set (w1 := set_calls _ w).
  destruct (forEachM_run
              (fun rc => forEachM (guardedUpdate cid) (chunkEvents rc))
              (sa_chunks stream) w1) as [H1 H2].
  { intros rc w0. apply forEachM_run. intros c w2. apply guardedUpdate_run. }
  rewrite (run_Ok _ _ _ H1). rewrite H2, <- finalUsage_last.
  by destruct (sa_error stream).
Qed.

Lemma inline_send_is_one_request_witness :
  let B := Sample.backend [Sample.rawOf [Sample.textPart "Hi"]
                                        (Some Sample.usage)] None true in
  let r := streamGeminiResponse B 3 "look" [Sample.photo] (guardedUpdate "A")
                                (statusUpdate "A") Sample.world in
  calls (snd r) =
    [SendMessageStream [PInlineData "aGVsbG8=" "image/png"; PText "look"]] /\
  fst r = Ok (Some Sample.usage).
Proof.
  intros B r.
  destruct (inline_send_is_one_request B 3 "look" [Sample.photo] "A"
              Sample.world "key" _ eq_refl eq_refl) as (H1 & _ & _ & H4).
  { repeat constructor. discriminate. }
  split; [exact H1 | exact H4].
Defined.

Lemma sameBut_calls w w' : sameButConversations w w' -> calls w' = calls w.
Proof. intros H. by rewrite H. Qed.

Lemma sameBut_chat w w' : sameButConversations w w' -> chat w' = chat w.
Proof. intros H. by rewrite H. Qed.

Lemma sameBut_activeCache w w' :
  sameButConversations w w' -> activeCache w' = activeCache w.
Proof. intros H. by rewrite H. Qed.

Lemma sameBut_aiClient w w' :
  sameButConversations w w' -> aiClient w' = aiClient w.
Proof. intros H. by rewrite H. Qed.

Lemma pollFile_done B fuel g :
  fi_state g <> PROCESSING -> pollFile B fuel g = mret g.
Proof. intros H. destruct fuel; simpl; by destruct (fi_state g). Qed.

(** Upload, first poll and verdict, shared by the two paths of a large
    file, when the backend reports the processing as failed. *)
Lemma upload_fails B fuel cid f s1 s2 up g w {A} (k : FileInfo -> M A) :
  uploadAnswer B (calls w ++ [FilesUpload f]) = Ok up ->
  getAnswer B (calls w ++ [FilesUpload f; FilesGet (fi_name up)]) = Ok g ->
  fi_state g = FAILED ->
  exists w',
    (statusUpdate cid s1 ≫= fun _ =>
     filesUpload B f ≫= fun uploadedFile =>
     statusUpdate cid s2 ≫= fun _ =>
     filesGet B (fi_name uploadedFile) ≫= fun first =>
     pollFile B fuel first ≫= k) w = k g w' /\
    calls w' = calls w ++ [FilesUpload f; FilesGet (fi_name up)] /\
    chat w' = chat w /\ activeCache w' = activeCache w.
Proof.
  intros Hup Hget Hfail.
  rewrite bind_run.
  destruct (statusUpdate_run cid s1 w) as (w1 & -> & H1).
  rewrite bind_run. unfold filesUpload at 1. rewrite bind_run.
  cbn [logCall modify]. rewrite bind_run. cbn [getW answer calls set_calls].
  rewrite (sameBut_calls _ _ H1), Hup.
  rewrite bind_run.
  set (w2 := set_calls (calls w ++ [FilesUpload f]) w1).
  destruct (statusUpdate_run cid s2 w2) as (w3 & -> & H3).
  rewrite bind_run. unfold filesGet at 1. rewrite bind_run.
  cbn [logCall modify]. rewrite bind_run. cbn [getW answer calls set_calls].
  rewrite (sameBut_calls _ _ H3). subst w2. cbn [calls set_calls].
  rewrite <- app_assoc. cbn [app]. rewrite Hget.
  rewrite bind_run, pollFile_done by (rewrite Hfail; discriminate).
  cbn [mret M_ret]. eexists. split; [reflexivity|].
  cbn [calls chat activeCache set_calls].
  rewrite (sameBut_chat _ _ H3), (sameBut_activeCache _ _ H3).
  cbn [calls chat activeCache set_calls].
  by rewrite (sameBut_chat _ _ H1), (sameBut_activeCache _ _ H1).
Qed.

(* ------------------------------------------------------------------ *)
(** ** Cache supersession *)
(* ------------------------------------------------------------------ *)

Lemma processed_refl w : processed w [] w.
Proof.
  unfold processed, sameButConversations. rewrite app_nil_r. by destruct w.
Qed.

Lemma processed_fields w pre w' :
  processed w pre w' ->
  calls w' = calls w ++ pre /\ activeCache w' = activeCache w /\
  aiClient w' = aiClient w /\ chat w' = chat w /\
  currentModelName w' = currentModelName w.
Proof. intros H. rewrite H. by repeat split. Qed.

Lemma processed_same w pre w1 w2 :
  processed w pre w1 -> sameButConversations w1 w2 -> processed w pre w2.
Proof. intros H1 H2. by eapply sameBut_trans. Qed.

Lemma processed_log w pre w1 c :
  processed w pre w1 ->
  processed w (pre ++ [c]) (set_calls (calls w1 ++ [c]) w1).
Proof.
  intros H. unfold processed, sameButConversations in *.
  rewrite H. cbn. by rewrite app_assoc.
Qed.

Lemma processed_status cid s w pre w1 :
  processed w pre w1 ->
  exists w2, statusUpdate cid s w1 = (Ok tt, w2) /\ processed w pre w2.
Proof.
  intros H. destruct (statusUpdate_run cid s w1) as (w2 & E & H2).
  exists w2. split; [done|]. by eapply processed_same.
Qed.

Lemma pollFile_run B fuel g w pre w1 :
  processed w pre w1 -> forallb fileCall pre = true ->
  exists pre', forallb fileCall pre' = true /\
    processed w pre' (snd (pollFile B fuel g w1)) /\
    match fst (pollFile B fuel g w1) with
    | Ok g' => fi_state g' <> PROCESSING
    | _ => True
    end.
Proof.
  revert g pre w1. induction fuel as [|fuel IH]; intros g pre w1 Hp Hf.
  - exists pre. split; [done|]. cbn [pollFile].
    destruct (fi_state g) eqn:E; cbn; (split; [done|]); try done;
      by rewrite E.
  - destruct (fi_state g) eqn:E;
      [|exists pre; cbn [pollFile]; rewrite E; cbn;
        (split; [done|]); (split; [done|]); by rewrite E..].
    set (w1' := set_calls (calls w1 ++ [FilesGet (fi_name g)]) w1).
    assert (pollFile B (S fuel) g w1 =
            match getAnswer B (calls w1 ++ [FilesGet (fi_name g)]) with
            | Ok g' => pollFile B fuel g' w1'
            | Throw e => (Throw e, w1')
            | Hang => (Hang, w1')
            end) as ->.
    { cbn [pollFile]. rewrite E.
      unfold filesGet, logCall, modify, getW, answer, mbind, M_bind.
      cbn [calls set_calls]. fold w1'.
      by destruct (getAnswer B (calls w1 ++ [FilesGet (fi_name g)])). }
    pose proof (processed_log w pre w1 (FilesGet (fi_name g)) Hp) as Hp'.
    fold w1' in Hp'.
    assert (forallb fileCall (pre ++ [FilesGet (fi_name g)]) = true) as Hf'
      by (by rewrite forallb_app, Hf).
    destruct (getAnswer B (calls w1 ++ [FilesGet (fi_name g)])) as [g'| |].
    + by apply (IH g' (pre ++ [FilesGet (fi_name g)])).
    + by exists (pre ++ [FilesGet (fi_name g)]).
    + by exists (pre ++ [FilesGet (fi_name g)]).
Qed.

(** Upload and polling, shared by the two paths of a large file: the
    calls made are uploads and polls, and either the file comes out of
    processing and the continuation runs, or the run ends there. *)
Lemma processing_run B fuel cid f s1 s2 w {A} (k : FileInfo -> M A) :
  let m := statusUpdate cid s1 ≫= fun _ =>
           filesUpload B f ≫= fun uploadedFile =>
           statusUpdate cid s2 ≫= fun _ =>
           filesGet B (fi_name uploadedFile) ≫= fun first =>
           pollFile B fuel first ≫= k in
  exists pre, forallb fileCall pre = true /\
    ((exists w1 g, processed w pre w1 /\ fi_state g <> PROCESSING /\
                   m w = k g w1) \/
     (processed w pre (snd (m w)) /\ forall a, fst (m w) <> Ok a)).
Proof.
  cbn zeta. rewrite bind_run.
  destruct (processed_status cid s1 w [] w (processed_refl w))
    as (w1 & -> & H1).
  rewrite bind_run. unfold filesUpload at 1 2 3. rewrite bind_run.
  cbn [logCall modify]. rewrite bind_run. cbn [getW answer calls set_calls].
  pose proof (processed_log w [] w1 (FilesUpload f) H1) as H2.
  cbn [app] in H2.
  destruct (uploadAnswer B (calls w1 ++ [FilesUpload f])) as [up| |];
    [|exists [FilesUpload f]; split; [done|]; right; by split..].
  rewrite bind_run.
  destruct (processed_status cid s2 _ _ _ H2) as (w3 & -> & H3).
  rewrite bind_run. unfold filesGet at 1 2 3. rewrite bind_run.
  cbn [logCall modify]. rewrite bind_run. cbn [getW answer calls set_calls].
  pose proof (processed_log w _ w3 (FilesGet (fi_name up)) H3) as H4.
  cbn [app] in H4.
  destruct (getAnswer B (calls w3 ++ [FilesGet (fi_name up)])) as [g| |];
    [|exists [FilesUpload f; FilesGet (fi_name up)]; split; [done|]; right;
      by split..].
  rewrite bind_run.
  destruct (pollFile_run B fuel g w _ _ H4 eq_refl) as (pre & Hf & Hp & Hg).
  exists pre. split; [done|].
  destruct (pollFile B fuel g _) as [[g'| |] w5]; cbn [fst snd] in *.
  - left. by exists w5, g'.
  - right. by split.
  - right. by split.
Qed.

(** The step after [ai.caches.create] has returned [new], with [old]
    active. *)
Lemma afterCacheCreated_run B cid new old key w :
  aiClient w = Some key -> activeCache w = Some old ->
  let r := afterCacheCreated B (statusUpdate cid) new w in
  let deleted := calls w ++ [CachesDelete (cache_name old)] in
  match deleteAnswer B deleted with
  | Hang => fst r = Hang /\ calls (snd r) = deleted /\
            activeCache (snd r) = Some old
  | _ =>
      Js.truthyO (cache_name new) = true ->
      exists session,
        fst r = Ok tt /\
        calls (snd r) = deleted ++ [ChatsCreate session] /\
        cs_cachedContent session = cache_name new /\
        chat (snd r) = Some session /\ activeCache (snd r) = Some new /\
        aiClient (snd r) = Some key
  end.
Proof.
  intros Hai Hactive. cbn zeta.
  unfold afterCacheCreated, replaceActiveCache, deleteOldCache.
  rewrite !bind_run. cbn [getW]. rewrite Hactive, deleteAndClear_run.
  assert (Js.truthyO (cache_name new) = true ->
          exists session,
            fst ((statusUpdate cid "Starting new cached session..." ≫= fun _ =>
                  getW ≫= fun w0 =>
                  startNewChatSession B (currentModelName w0)
                                      (cache_name new) [])
                   (set_activeCache (Some new) (afterTeardown old w)))
              = Ok tt /\
            calls (snd ((statusUpdate cid "Starting new cached session..."
                         ≫= fun _ =>
                         getW ≫= fun w0 =>
                         startNewChatSession B (currentModelName w0)
                                             (cache_name new) [])
                          (set_activeCache (Some new) (afterTeardown old w))))
              = (calls w ++ [CachesDelete (cache_name old)])
                ++ [ChatsCreate session] /\
            cs_cachedContent session = cache_name new /\
            chat (snd ((statusUpdate cid "Starting new cached session..."
                        ≫= fun _ =>
                        getW ≫= fun w0 =>
                        startNewChatSession B (currentModelName w0)
                                            (cache_name new) [])
                         (set_activeCache (Some new) (afterTeardown old w))))
              = Some session /\
            activeCache (snd ((statusUpdate cid
                                 "Starting new cached session..." ≫= fun _ =>
                               getW ≫= fun w0 =>
                               startNewChatSession B (currentModelName w0)
                                                   (cache_name new) [])
                                (set_activeCache (Some new)
                                                 (afterTeardown old w))))
              = Some new /\
            aiClient (snd ((statusUpdate cid
                              "Starting new cached session..." ≫= fun _ =>
                            getW ≫= fun w0 =>
                            startNewChatSession B (currentModelName w0)
                                                (cache_name new) [])
                             (set_activeCache (Some new)
                                              (afterTeardown old w))))
              = Some key) as Hrest.
  { intros Hname. rewrite bind_run.
    set (w2 := set_activeCache (Some new) (afterTeardown old w)).
    destruct (statusUpdate_run cid "Starting new cached session..." w2)
      as (w3 & -> & H3).
    rewrite bind_run. cbn [getW].
    unfold startNewChatSession. rewrite bind_run. cbn [getW].
    rewrite (sameBut_aiClient _ _ H3). subst w2.
    cbn [aiClient set_activeCache afterTeardown set_calls]. rewrite Hai.
    rewrite !bind_run. cbn [modify]. rewrite !bind_run.
    rewrite (sameBut_activeCache _ _ H3).
    cbn [activeCache set_activeCache]. rewrite Hname.
    cbn [negb mret M_ret]. rewrite !bind_run. cbn [logCall modify].
    unfold modify.
    eexists. cbn [fst snd calls chat activeCache aiClient set_chat set_calls
                  set_currentModelName cs_cachedContent].
    rewrite (sameBut_calls _ _ H3), (sameBut_activeCache _ _ H3),
      (sameBut_aiClient _ _ H3).
    cbn [calls activeCache aiClient set_activeCache afterTeardown set_calls].
    by repeat split. }
  destruct (deleteAnswer B (calls w ++ [CachesDelete (cache_name old)]))
    as [[]| |]; cbn [modify]; done.
Qed.


(** The single-large-PDF branch, with a cache [old] active. *)
Lemma cachedPdfBranch_run B fuel prompt file cid w key old :
  aiClient w = Some key -> activeCache w = Some old ->
  let r := cachedPdfBranch B fuel prompt file (statusUpdate cid) w in
  exists pre mime fileUri,
    forallb fileCall pre = true /\
    let create := CachesCreate (backendModel (currentModelName w))
                               (Js.includes (currentModelName w) "-maps")
                               mime fileUri in
    let created := calls w ++ pre ++ [create] in
    let deleted := created ++ [CachesDelete (cache_name old)] in
    (processed w pre (snd r) /\ (forall ps, fst r <> Ok ps)) \/
    match createCacheAnswer B created with
    | Ok new =>
        match deleteAnswer B deleted with
        | Hang => fst r = Hang /\ calls (snd r) = deleted /\
                  activeCache (snd r) = Some old
        | _ =>
            Js.truthyO (cache_name new) = true ->
            exists session,
              fst r = Ok [PText prompt] /\
              calls (snd r) = deleted ++ [ChatsCreate session] /\
              cs_cachedContent session = cache_name new /\
              chat (snd r) = Some session /\
              activeCache (snd r) = Some new /\
              aiClient (snd r) = Some key
        end
    | _ => calls (snd r) = created /\ activeCache (snd r) = Some old /\
           (forall ps, fst r <> Ok ps)
    end.
Proof.
  intros Hai Hactive. cbn zeta. unfold cachedPdfBranch.
  match goal with
  | |- context [pollFile B fuel _ ≫= ?k0] =>
      destruct (processing_run B fuel cid file "Uploading file..."
                  "Processing file..." w k0) as (pre & Hf & Hrun)
  end.
  cbn zeta in Hrun.
  destruct Hrun as [(w1 & g & Hp & Hg & ->)|[Hp Hno]].
  2:{ exists pre, None, None. split; [done|]. by left. }
  exists pre, (fi_mimeType g), (fi_uri g). split; [done|].
  destruct (processed_fields _ _ _ Hp) as (Hc1 & Ha1 & Hi1 & Hs1 & Hm1).
  destruct (decide (fi_state g = FAILED)) as [Hfail|Hok].
  { left. by split. }
  right. rewrite bind_run.
  destruct (processed_status cid "Creating context cache for PDF..." _ _ _ Hp)
    as (w2 & -> & Hp2).
  destruct (processed_fields _ _ _ Hp2) as (Hc2 & Ha2 & Hi2 & Hs2 & Hm2).
  rewrite bind_run. cbn [getW]. rewrite bind_run. cbn [logCall modify].
  rewrite bind_run. cbn [getW]. rewrite bind_run.
  cbn [answer calls set_calls]. rewrite Hm2, Hc2.
  rewrite <- !(app_assoc (calls w) pre).
  fold (backendModel (currentModelName w)).
  set (create := CachesCreate _ _ _ _).
  destruct (createCacheAnswer B (calls w ++ pre ++ [create])) as [new| |].
  2,3: cbn [fst snd calls activeCache set_calls];
       rewrite Ha2, Hactive; by repeat split.
  rewrite bind_run.
  set (w3 := set_calls _ w2).
  assert (aiClient w3 = Some key) as Hai3 by (subst w3; cbn; congruence).
  assert (activeCache w3 = Some old) as Hac3 by (subst w3; cbn; congruence).
  assert (calls w3 = calls w ++ pre ++ [create]) as Hc3.
  { by subst w3. }
  pose proof (afterCacheCreated_run B cid new old key w3 Hai3 Hac3) as Hafter.
  cbn zeta in Hafter. rewrite Hc3 in Hafter.
  rewrite <- !app_assoc in Hafter. rewrite <- !app_assoc.
  destruct (deleteAnswer B _) as [[]| |].
  - intros Hname. destruct (Hafter Hname) as (session & H1 & H2 & H3 & H4).
    exists session.
    destruct (afterCacheCreated B (statusUpdate cid) new w3) as [[[]| |] w4];
      cbn [fst snd] in *; done.
  - intros Hname. destruct (Hafter Hname) as (session & H1 & H2 & H3 & H4).
    exists session.
    destruct (afterCacheCreated B (statusUpdate cid) new w3) as [[[]| |] w4];
      cbn [fst snd] in *; done.
  - destruct Hafter as (H1 & H2 & H3).
    destruct (afterCacheCreated B (statusUpdate cid) new w3) as [[[]| |] w4];
      cbn [fst snd] in *; done.
Qed.

Lemma streaming_run B cid parts w :
  let m := logCall (SendMessageStream parts) ≫= fun _ =>
           getW ≫= fun w2 =>
           answer (streamAnswer B (calls w2)) ≫= fun stream =>
           forEachM (fun rc => forEachM (guardedUpdate cid) (chunkEvents rc))
                    (sa_chunks stream) ≫= fun _ =>
           match sa_error stream with
           | Some e => throw e
           | None => mret (finalUsage (sa_chunks stream))
           end in
  calls (snd (m w)) = calls w ++ [SendMessageStream parts] /\
  chat (snd (m w)) = chat w /\ activeCache (snd (m w)) = activeCache w.
Proof.
  cbn zeta. rewrite bind_run. cbn [logCall modify]. rewrite bind_run.
  cbn [getW]. rewrite bind_run. cbn [answer calls set_calls].
  destruct (streamAnswer B _) as [stream| |]; [|done..].
  rewrite bind_run.
  set (w1 := set_calls _ w).
  destruct (forEachM_run
              (fun rc => forEachM (guardedUpdate cid) (chunkEvents rc))
              (sa_chunks stream) w1) as [H1 H2].
  { intros rc w0. apply forEachM_run. intros c w'.
    apply guardedUpdate_run. }
  destruct (forEachM _ (sa_chunks stream) w1) as [[[]| |] w2];
    cbn [fst snd] in *; try done.
  destruct (sa_error stream); cbn [throw mret M_ret fst snd];
    by rewrite (sameBut_calls _ _ H2), (sameBut_chat _ _ H2),
      (sameBut_activeCache _ _ H2).
Qed.

(** C7.  A send of one large PDF while a cache [old] is active, whatever
    the backend answers.  The calls made before the cache is created are
    uploads and polls.  If no cache comes back (the processing fails or
    never ends, or [ai.caches.create] fails), no deletion is issued and
    [old] stays the active cache.  If a cache [new] is created, exactly one
    call [CachesDelete old] follows; when that deletion returns or throws
    and [new] carries a name, the cached session is created with [new],
    the message is sent, no other deletion is issued and the handle ends
    as [new]; when the deletion never settles nothing else happens and the
    handle is still [old].  [cleanupActiveCache] issues that same
    single deletion and clears the handle whether the deletion returns or
    throws, as does the guarded block before the handle is replaced; and a
    second [cleanupActiveCache] changes nothing and calls nothing. *)
Theorem cache_supersession_clears_handle
  (B : Backend) (fuel : nat) (prompt cid key : string) (file : File)
  (w : World) (old : CachedContent) (s0 : ChatSession) :
  aiClient w = Some key -> chat w = Some s0 -> activeCache w = Some old ->
  (file_size file >? MAX_INLINE_SIZE_BYTES)%Z = true ->
  file_type file = "application/pdf" ->
  let r := streamGeminiResponse B fuel prompt [file] (guardedUpdate cid)
                                (statusUpdate cid) w in
  (exists pre mime fileUri,
     forallb fileCall pre = true /\
     let create := CachesCreate (backendModel (currentModelName w))
                                (Js.includes (currentModelName w) "-maps")
                                mime fileUri in
     let created := calls w ++ pre ++ [create] in
     let deleted := created ++ [CachesDelete (cache_name old)] in
     (calls (snd r) = calls w ++ pre /\ activeCache (snd r) = Some old /\
      forall u, fst r <> Ok u) \/
     match createCacheAnswer B created with
     | Ok new =>
         match deleteAnswer B deleted with
         | Hang => fst r = Hang /\ calls (snd r) = deleted /\
                   activeCache (snd r) = Some old
         | _ =>
             Js.truthyO (cache_name new) = true ->
             exists session,
               calls (snd r) =
                 deleted ++ [ChatsCreate session;
                             SendMessageStream [PText prompt]] /\
               cs_cachedContent session = cache_name new /\
               chat (snd r) = Some session /\
               activeCache (snd r) = Some new
         end
     | _ => calls (snd r) = created /\ activeCache (snd r) = Some old /\
            forall u, fst r <> Ok u
     end) /\
  match deleteAnswer B (calls w ++ [CachesDelete (cache_name old)]) with
  | Hang => fst (cleanupActiveCache B w) = Hang
  | _ => cleanupActiveCache B w = (Ok tt, afterTeardown old w) /\
         forall new,
           replaceActiveCache B new w =
             (Ok tt, set_activeCache (Some new) (afterTeardown old w))
  end /\
  activeCache (afterTeardown old w) = None /\
  calls (afterTeardown old w) = calls w ++ [CachesDelete (cache_name old)] /\
  cleanupActiveCache B (afterTeardown old w) = (Ok tt, afterTeardown old w).
Proof.
  intros Hai Hchat Hactive Hbig Hpdf. cbn zeta. split.
  - unfold streamGeminiResponse.
    rewrite bind_run. cbn [getW]. rewrite Hai, Hchat.
    cbn [Js.present negb when].
    rewrite bind_run. cbn [mret M_ret]. rewrite bind_run. cbn [getW].
    rewrite Hchat, Hbig, Hpdf, String.eqb_refl. cbn [andb].
    destruct (cachedPdfBranch_run B fuel prompt file cid w key old
                Hai Hactive) as (pre & mime & fileUri & Hf & Hrun).
    exists pre, mime, fileUri. split; [done|]. cbn zeta in *.
    rewrite bind_run.
    destruct Hrun as [[Hp Hnot]|Hrun].
    + left. destruct (processed_fields _ _ _ Hp) as (Hc & Ha & _).
      destruct (cachedPdfBranch B fuel prompt file (statusUpdate cid) w)
        as [[ps| |] w1]; cbn [fst snd] in *;
        [by destruct (Hnot ps) | by rewrite Hc, Ha, Hactive..].
    + right. destruct (createCacheAnswer B _) as [new| |].
      * destruct (deleteAnswer B _) as [[]| |].
        -- intros Hname.
           destruct (Hrun Hname) as (session & H1 & H2 & H3 & H4 & H5 & _).
           exists session.
           destruct (cachedPdfBranch B fuel prompt file (statusUpdate cid) w)
             as [[ps| |] w1]; cbn [fst snd] in *; try done.
           injection H1 as ->.
           destruct (streaming_run B cid [PText prompt] w1)
             as (S1 & S2 & S3).
           cbn zeta in S1, S2, S3. rewrite S1, S2, S3, H2, H4, H5.
           rewrite <- !app_assoc. by repeat split.
        -- intros Hname.
           destruct (Hrun Hname) as (session & H1 & H2 & H3 & H4 & H5 & _).
           exists session.
           destruct (cachedPdfBranch B fuel prompt file (statusUpdate cid) w)
             as [[ps| |] w1]; cbn [fst snd] in *; try done.
           injection H1 as ->.
           destruct (streaming_run B cid [PText prompt] w1)
             as (S1 & S2 & S3).
           cbn zeta in S1, S2, S3. rewrite S1, S2, S3, H2, H4, H5.
           rewrite <- !app_assoc. by repeat split.
        -- destruct Hrun as (H1 & H2 & H3).
           destruct (cachedPdfBranch B fuel prompt file (statusUpdate cid) w)
             as [[ps| |] w1]; cbn [fst snd] in *; done.
      * destruct Hrun as (H1 & H2 & H3).
        destruct (cachedPdfBranch B fuel prompt file (statusUpdate cid) w)
          as [[ps| |] w1]; cbn [fst snd] in *;
          [by destruct (H3 ps) | done..].
      * destruct Hrun as (H1 & H2 & H3).
        destruct (cachedPdfBranch B fuel prompt file (statusUpdate cid) w)
          as [[ps| |] w1]; cbn [fst snd] in *;
          [by destruct (H3 ps) | done..].
  - split; [|split; [done|split; [done|by apply cleanupActiveCache_idle]]].
    assert (cleanupActiveCache B w = deleteAndClear B old w) as ->.
    { unfold cleanupActiveCache. rewrite bind_run. cbn [getW].
      by rewrite Hai, Hactive. }
    assert (forall new,
              replaceActiveCache B new w =
              match deleteAndClear B old w with
              | (Ok _, w') => (Ok tt, set_activeCache (Some new) w')
              | (Throw e, w') => (Throw e, w')
              | (Hang, w') => (Hang, w')
              end) as Hrep.
    { intros new. unfold replaceActiveCache, deleteOldCache.
      rewrite !bind_run. cbn [getW]. by rewrite Hactive. }
    rewrite deleteAndClear_run in *.
    destruct (deleteAnswer B _) as [[]| |]; [| |done].
    + split; [done|]. intros new. by rewrite Hrep.
    + split; [done|]. intros new. by rewrite Hrep.
Qed.

Lemma cache_supersession_clears_handle_witness :
  let old := {| cache_name := Some "cachedContents/old" |} in
  let new := {| cache_name := Some "cachedContents/new" |} in
  let pdf := {| file_name := "book.pdf"; file_size := 20 * 1024 * 1024;
                file_type := "application/pdf"; file_data := None |} in
  let B := Sample.backend [] None false in
  let w := set_activeCache (Some old) Sample.world in
  let r := streamGeminiResponse B 3 "read" [pdf] (guardedUpdate "A")
                                (statusUpdate "A") w in
  deleteAnswer B (calls w ++ [CachesDelete (cache_name old)])
    = Throw "cache not found" /\
  List.filter (fun c => match c with CachesDelete _ => true | _ => false end)
              (calls (snd r)) = [CachesDelete (Some "cachedContents/old")] /\
  activeCache (snd r) = Some new /\
  cleanupActiveCache B w = (Ok tt, afterTeardown old w) /\
  cleanupActiveCache B (afterTeardown old w) = (Ok tt, afterTeardown old w).
Proof.
  intros old new pdf B w r.
  destruct (cache_supersession_clears_handle B 3 "read" "A" "key" pdf w old
              _ eq_refl eq_refl eq_refl eq_refl eq_refl)
    as ((pre & mime & fileUri & Hf & Hrun) & Hclean & _ & _ & Hidle).
  split; [reflexivity|]. split; [reflexivity|]. split.
  - cbn zeta in Hrun. destruct Hrun as [(Hc & _)|Hrun].
    + exfalso. vm_compute in Hc. subst pre. discriminate Hf.
    + change (createCacheAnswer B ?l) with (Ok new) in Hrun.
      change (deleteAnswer B ?l) with (@Throw unit "cache not found") in Hrun.
      destruct (Hrun eq_refl) as (session & _ & _ & _ & Hnew).
      exact Hnew.
  - split; [|exact Hidle].
    change (deleteAnswer B (calls w ++ [CachesDelete (cache_name old)]))
      with (@Throw unit "cache not found") in Hclean.
    by destruct Hclean.
Defined.


(** X13.  A large file whose processing the backend reports as failed
    aborts the send before anything is sent: after the upload and the
    first poll no other transport call is made (no cache is created, no
    message goes out), the session and the active cache are left as they
    were, and the send fails with a message naming the file. *)
Theorem failed_processing_aborts_the_send (B : Backend) (fuel : nat)
  (prompt : string) (f : File) (rest : list File) (cid : string) (w : World)
  (key : string) (s : ChatSession) (up g : FileInfo) :
  aiClient w = Some key -> chat w = Some s ->
  (file_size f >? MAX_INLINE_SIZE_BYTES)%Z = true ->
  uploadAnswer B (calls w ++ [FilesUpload f]) = Ok up ->
  getAnswer B (calls w ++ [FilesUpload f; FilesGet (fi_name up)]) = Ok g ->
  fi_state g = FAILED ->
  let r := streamGeminiResponse B fuel prompt (f :: rest) (guardedUpdate cid)
                                (statusUpdate cid) w in
  calls (snd r) = calls w ++ [FilesUpload f; FilesGet (fi_name up)] /\
  chat (snd r) = Some s /\ activeCache (snd r) = activeCache w /\
  fst r = Throw ("File processing failed: " +:+
                 (if singlePdf f rest then default "undefined" (fi_name g)
                  else file_name f)).
Proof.
  intros Hai Hchat Hbig Hup Hget Hfail. cbn zeta.
  unfold streamGeminiResponse.
  rewrite bind_run. cbn [getW]. rewrite Hai, Hchat. cbn [Js.present negb when].
  rewrite bind_run. cbn [mret M_ret]. rewrite bind_run. cbn [getW].
  rewrite Hchat. rewrite bind_run.
  assert (forall w0,
            (attachFiles B fuel (statusUpdate cid) (f :: rest) ≫= fun ps =>
             mret (ps ++ [PText prompt])) w0
            = (attachFile B fuel (statusUpdate cid) f ≫= fun p =>
               attachFiles B fuel (statusUpdate cid) rest ≫= fun ps =>
               mret (p :: ps) ≫= fun ps =>
               mret (ps ++ [PText prompt])) w0) as Hshape.
  { intros w0. cbn [attachFiles]. rewrite !bind_run.
    destruct (attachFile B fuel (statusUpdate cid) f w0) as [[p| |] w1];
      [|done..].
    rewrite !bind_run.
    by destruct (attachFiles B fuel (statusUpdate cid) rest w1)
      as [[ps| |] w2]. }
  assert (exists w',
            (attachFiles B fuel (statusUpdate cid) (f :: rest) ≫= fun ps =>
             mret (ps ++ [PText prompt])) w
            = (Throw ("File processing failed: " +:+ file_name f), w') /\
            calls w' = calls w ++ [FilesUpload f; FilesGet (fi_name up)] /\
            chat w' = chat w /\ activeCache w' = activeCache w) as Hattach.
  { rewrite Hshape. unfold attachFile. rewrite Hbig.
    destruct (upload_fails B fuel cid f
                ("Uploading " +:+ file_name f +:+ "...")
                ("Processing " +:+ file_name f +:+ "...") up g w
                (fun getFile =>
                   if decide (fi_state getFile = FAILED)
                   then throw ("File processing failed: " +:+ file_name f)
                   else statusUpdate cid (file_name f +:+ " processed.")
                        ≫= fun _ =>
                        mret (PFileData (fi_mimeType getFile)
                                        (fi_uri getFile)))
                Hup Hget Hfail) as (w' & Hrun & Hc).
    exists w'. split; [|exact Hc].
    rewrite bind_run.
    match goal with
    | |- match ?m w with _ => _ end = _ =>
        assert (m w = (Throw ("File processing failed: " +:+ file_name f), w'))
          as ->
    end; [|done].
    etransitivity; [|etransitivity; [exact Hrun|]].
    - rewrite !bind_run.
      destruct (statusUpdate cid _ w) as [[[]| |] w1]; [|done..].
      rewrite !bind_run.
      destruct (filesUpload B f w1) as [[u| |] w2]; [|done..].
      rewrite !bind_run.
      destruct (statusUpdate cid _ w2) as [[[]| |] w3]; [|done..].
      rewrite !bind_run.
      destruct (filesGet B (fi_name u) w3) as [[g1| |] w4]; [|done..].
      by rewrite !bind_run.
    - by rewrite decide_True. }
  destruct rest as [|f2 rest].
  - cbn [singlePdf]. rewrite Hbig. cbn [andb].
    destruct (String.eqb (file_type f) "application/pdf").
    + unfold cachedPdfBranch.
      destruct (upload_fails B fuel cid f "Uploading file..."
                  "Processing file..." up g w
                  (fun getFile =>
                     if decide (fi_state getFile = FAILED)
                     then throw ("File processing failed: " +:+
                                 default "undefined" (fi_name getFile))
                     else
                       statusUpdate cid "Creating context cache for PDF..."
                       ≫= fun _ =>
                       getW ≫= fun w =>
                       let isMapsModel :=
                         Js.includes (currentModelName w) "-maps" in
                       let actualModelName :=
                         if isMapsModel then "gemini-2.5-flash-lite"
                         else currentModelName w in
                       logCall (CachesCreate actualModelName isMapsModel
                                  (fi_mimeType getFile) (fi_uri getFile))
                       ≫= fun _ =>
                       getW ≫= fun w' =>
                       answer (createCacheAnswer B (calls w')) ≫= fun cache =>
                       afterCacheCreated B (statusUpdate cid) cache
                       ≫= fun _ => mret [PText prompt])
                  Hup Hget Hfail) as (w' & Hrun & Hc & Hs & Ha).
      match goal with
      | |- context [match ?m w with _ => _ end] =>
          assert (m w = (Throw ("File processing failed: " +:+
                                default "undefined" (fi_name g)), w')) as ->
      end.
      { etransitivity; [exact Hrun|]. by rewrite decide_True. }
      cbn [fst snd]. by rewrite Hs, Hchat.
    + destruct Hattach as (w' & -> & Hc & Hs & Ha).
      cbn [fst snd]. by rewrite Hs, Hchat.
  - cbn [singlePdf].
    destruct Hattach as (w' & -> & Hc & Hs & Ha).
    cbn [fst snd]. by rewrite Hs, Hchat.
Qed.

Lemma failed_processing_aborts_the_send_witness :
  let failed := {| fi_name := Some "files/1"; fi_state := FAILED;
                   fi_mimeType := None; fi_uri := None |} in
  let B := {| deleteAnswer := fun _ => Ok tt;
              uploadAnswer := fun _ => Ok Sample.readyFile;
              getAnswer := fun _ => Ok failed;
              createCacheAnswer := fun _ => Hang;
              streamAnswer := fun _ => Hang;
              imageAnswer := fun _ => Hang;
              setItemOutcome := fun _ => WriteOk;
              removeItemThrows := false |} in
  let r := streamGeminiResponse B 3 "look" [Sample.hugeVideo]
                                (guardedUpdate "A") (statusUpdate "A")
                                Sample.world in
  calls (snd r) = [FilesUpload Sample.hugeVideo; FilesGet (Some "files/1")] /\
  fst r = Throw "File processing failed: film.png".
Proof.
  intros failed B r.
  destruct (failed_processing_aborts_the_send B 3 "look" Sample.hugeVideo []
              "A" Sample.world "key" _ Sample.readyFile failed
              eq_refl eq_refl eq_refl eq_refl eq_refl eq_refl)
    as (H1 & _ & _ & H4).
  split; [exact H1 | exact H4].
Defined.

(* ------------------------------------------------------------------ *)
(** ** What a send leaves alone *)
(* ------------------------------------------------------------------ *)

(** X14.  While a send runs, up to the end of its stream, nothing is
    persisted and nothing outside the streaming path is written:
    [mutationFn] leaves the store, the storage error, the token, the
    loading flag, the active conversation, the selected model, the key and
    the client as they were, and only ever adds to the log of transport
    calls. *)
Theorem streaming_never_persists (B : Backend) (fuel : nat) (vars : SendVars)
  (h : list Content) (w : World) :
  let w' := snd (mutationFn B fuel vars h w) in
  chatHistoryItem w' = chatHistoryItem w /\
  storageError w' = storageError w /\
  activeStreamingRef w' = activeStreamingRef w /\
  isLoading w' = isLoading w /\
  activeConversationId w' = activeConversationId w /\
  selectedModel w' = selectedModel w /\
  apiKey w' = apiKey w /\ aiClient w' = aiClient w /\
  exists rest, calls w' = calls w ++ rest.
Proof.
  cbn zeta.
  apply (pres_mutationFn B
           (fun w' => chatHistoryItem w' = chatHistoryItem w /\
                      storageError w' = storageError w /\
                      activeStreamingRef w' = activeStreamingRef w /\
                      isLoading w' = isLoading w /\
                      activeConversationId w' = activeConversationId w /\
                      selectedModel w' = selectedModel w /\
                      apiKey w' = apiKey w /\ aiClient w' = aiClient w /\
                      exists rest, calls w' = calls w ++ rest));
    try done.
  - intros c w0 (?&?&?&?&?&?&?&?& rest & Hr). repeat split; try done.
    exists (rest ++ [c]). cbn. by rewrite Hr, app_assoc.
  - repeat split; try done. exists []. by rewrite app_nil_r.
Qed.

(* ------------------------------------------------------------------ *)
(** ** The image model *)
(* ------------------------------------------------------------------ *)

Lemma imageInputs_run cid l w :
  exists w', sameButConversations w w' /\
    ((exists e, imageInputs (statusUpdate cid) l w = (Throw e, w')) \/
     (exists ps, imageInputs (statusUpdate cid) l w = (Ok ps, w'))).
Proof.
  revert w. induction l as [|f l IH]; intros w.
  - exists w. split; [apply sameBut_refl|]. right. by eexists.
  - cbn [imageInputs]. rewrite bind_run.
    destruct (statusUpdate_run cid ("Processing " +:+ file_name f +:+ "...")
                w) as (w1 & -> & H1).
    rewrite bind_run. unfold fileToBase64.
    destruct (file_data f) as [d|].
    + cbn [mret M_ret]. rewrite bind_run.
      destruct (IH w1) as (w2 & H2 & [[e ->]|[ps ->]]);
        exists w2; (split; [by eapply sameBut_trans|]).
      * left. by eexists.
      * right. by eexists.
    + exists w1. split; [done|]. left. by eexists.
Qed.

(** X15.  A send under the image model leaves the chat session alone:
    [mutationFn] creates no session and sends no message, so that the
    session, the model in use, the model name of the session manager and
    the active cache are as before; the only transport call it can issue
    is one image request, made of the prompt as its last part and of the
    selected aspect ratio. *)
Theorem image_send_leaves_session_alone (B : Backend) (fuel : nat)
  (vars : SendVars) (h : list Content) (w : World) :
  selectedModel w = gemini_2_5_flash_image ->
  let w' := snd (mutationFn B fuel vars h w) in
  chat w' = chat w /\ activeModel w' = activeModel w /\
  currentModelName w' = currentModelName w /\
  activeCache w' = activeCache w /\
  (calls w' = calls w \/
   exists parts, calls w' = calls w ++ [GenerateImage parts (aspectRatio w)] /\
                 last parts = Some (PText (sv_text vars))).
Proof.
  intros Himg. cbn zeta. unfold mutationFn. rewrite bind_run. cbn [getW].
  destruct (conversationsMap w !! _); [|by auto 10].
  destruct (_ && negb (refIs _ _)); [by auto 10|].
  rewrite bind_run.
  set (w1 := snd (when (((0 <? length (sv_files vars))%nat
                         || hasUrl (sv_text vars)) && negb (isProSession w))
                       (modify (set_isProSession true)) w)).
  assert (when (((0 <? length (sv_files vars))%nat
                 || hasUrl (sv_text vars)) && negb (isProSession w))
               (modify (set_isProSession true)) w = (Ok tt, w1)) as ->.
  { subst w1. by destruct (_ && negb (isProSession w)). }
  assert (chat w1 = chat w /\ activeModel w1 = activeModel w /\
          currentModelName w1 = currentModelName w /\
          activeCache w1 = activeCache w /\ calls w1 = calls w)
    as (E1 & E2 & E3 & E4 & E5).
  { subst w1. by destruct (_ && negb (isProSession w)). }
  clearbody w1. rewrite bind_run, Himg.
  rewrite bool_decide_eq_true_2 by done. cbn [negb andb when mret M_ret].
  rewrite bind_run. unfold generateImage. rewrite bind_run. cbn [getW].
  destruct (aiClient w1); [|cbn [throw snd]; by auto 10].
  rewrite bind_run.
  destruct (imageInputs_run (sv_targetConversationId vars) (sv_files vars) w1)
    as (w2 & H2 & [[e ->]|[ps ->]]).
  - cbn [snd]. rewrite H2. cbn. by auto 10.
  - unfold requestImages.
    set (w3 := set_calls (calls w2 ++ [GenerateImage (ps ++ [PText (sv_text vars)]) (aspectRatio w)]) w2).
    assert (chat w3 = chat w /\ activeModel w3 = activeModel w /\
            currentModelName w3 = currentModelName w /\
            activeCache w3 = activeCache w /\
            calls w3 = calls w ++
              [GenerateImage (ps ++ [PText (sv_text vars)]) (aspectRatio w)])
      as (F1 & F2 & F3 & F4 & F5).
    { subst w3. rewrite H2. cbn. by rewrite E1, E2, E3, E4, E5. }
    assert (forall w4 : World, sameButConversations w3 w4 ->
              chat w4 = chat w /\ activeModel w4 = activeModel w /\
              currentModelName w4 = currentModelName w /\
              activeCache w4 = activeCache w /\
              exists parts,
                calls w4 = calls w ++ [GenerateImage parts (aspectRatio w)] /\
                last parts = Some (PText (sv_text vars))) as Hfin.
    { intros w4 H4. rewrite H4. cbn. repeat split; try done.
      eexists. split; [exact F5 | apply last_snoc]. }
    destruct (imageAnswer B (calls w3)) as [r| |]; cbn [fst snd].
    + rewrite bind_run. destruct (0 <? length _)%nat;
        cbn [modify mret M_ret snd];
        match goal with
        | |- context [updateStreamingMessage ?c ?k w3] =>
            destruct (Hfin _ (sameBut_update c k w3)) as (?&?&?&?&?)
        end; auto 10.
    + destruct (Hfin _ (sameBut_refl w3)) as (?&?&?&?&?); auto 10.
    + destruct (Hfin _ (sameBut_refl w3)) as (?&?&?&?&?); auto 10.
Qed.

Lemma image_send_leaves_session_alone_witness :
  let w := set_selectedModel gemini_2_5_flash_image Sample.world in
  let vars := {| sv_text := "a cat"; sv_files := [];
                 sv_userMessage := mkUserMessage Sample.clockA "a cat" [];
                 sv_aiMessagePlaceholder := mkPlaceholder Sample.clockA;
                 sv_targetConversationId := "A" |} in
  let w' := snd (mutationFn (Sample.backend [] None true) 3 vars [] w) in
  selectedModel w = gemini_2_5_flash_image /\
  chat w' = chat w /\ activeModel w' = activeModel w /\
  currentModelName w' = currentModelName w /\
  activeCache w' = activeCache w /\
  (calls w' = calls w \/
   exists parts, calls w' = calls w ++ [GenerateImage parts (aspectRatio w)] /\
                 last parts = Some (PText (sv_text vars))).
Proof.
  intros w vars w'. split; [reflexivity|].
  apply (image_send_leaves_session_alone (Sample.backend [] None true) 3
           vars [] w).
  reflexivity.
Defined.

(* ------------------------------------------------------------------ *)
(** ** Switching the model at a send *)
(* ------------------------------------------------------------------ *)

Lemma startNewChatSession_settled B name h w key :
  aiClient w = Some key ->
  (forall l, deleteAnswer B l <> Hang) ->
  exists s w',
    startNewChatSession B name None h w = (Ok tt, w') /\
    chat w' = Some s /\
    calls w' = calls w ++ teardownCalls w ++ [ChatsCreate s] /\
    cs_model s = backendModel name /\ cs_history s = h /\
    cs_cachedContent s = None /\ activeCache w' = None /\
    aiClient w' = aiClient w.
Proof.
  intros Hai Hdel. unfold startNewChatSession, teardownCalls.
  rewrite bind_run. cbn [getW]. rewrite Hai.
  rewrite bind_run. cbn [modify]. rewrite bind_run.
  destruct (activeCache w) as [c|] eqn:Hc; cbn [Js.truthyO negb].
  - rewrite deleteAndClear_settled by apply Hdel.
    cbn. eexists _, _. split; [reflexivity|]. cbn.
    rewrite <- app_assoc. by repeat split.
  - cbn. eexists _, _. split; [reflexivity|]. cbn. by repeat split.
Qed.

(** X16.  When the model resolved for a turn is not the model in use (and
    is not the image model), the session is recreated before anything else
    the send puts on the wire: after the teardown of the active cache, if
    there is one, the first call of [mutationFn] creates a session for the
    resolved model, bound to no cache and replaying the history of the
    conversation; whatever follows, the resolved model is the model in use
    afterwards. *)
Theorem model_switch_precedes_the_stream (B : Backend) (fuel : nat)
  (vars : SendVars) (h : list Content) (w : World) (key : string)
  (c : Conversation) :
  aiClient w = Some key ->
  (forall l, deleteAnswer B l <> Hang) ->
  conversationsMap w !! sv_targetConversationId vars = Some c ->
  Js.present (activeStreamingRef w)
  && negb (refIs (activeStreamingRef w) (sv_targetConversationId vars))
  = false ->
  selectedModel w <> gemini_2_5_flash_image ->
  activeModel w <> targetModelOf w (sv_text vars) (sv_files vars) ->
  let target := targetModelOf w (sv_text vars) (sv_files vars) in
  let w' := snd (mutationFn B fuel vars h w) in
  activeModel w' = target /\
  exists s rest,
    calls w' = calls w ++ teardownCalls w ++ ChatsCreate s :: rest /\
    cs_model s = backendModel (modelName target) /\
    cs_history s = h /\ cs_cachedContent s = None.
Proof.
  intros Hai Hdel Hconv Hguard Himg Hne. cbn zeta.
  unfold mutationFn. rewrite bind_run. cbn [getW]. rewrite Hconv, Hguard.
  rewrite bind_run.
  set (w1 := snd (when (((0 <? length (sv_files vars))%nat
                         || hasUrl (sv_text vars)) && negb (isProSession w))
                       (modify (set_isProSession true)) w)).
  assert (when (((0 <? length (sv_files vars))%nat
                 || hasUrl (sv_text vars)) && negb (isProSession w))
               (modify (set_isProSession true)) w = (Ok tt, w1)) as ->.
  { subst w1. by destruct (_ && negb (isProSession w)). }
  assert (aiClient w1 = Some key /\ calls w1 = calls w /\
          teardownCalls w1 = teardownCalls w) as (Hai1 & Hc1 & Ht1).
  { subst w1. by destruct (_ && negb (isProSession w)). }
  clearbody w1. rewrite bind_run.
  set (target := targetModelOf w (sv_text vars) (sv_files vars)) in *.
  rewrite (bool_decide_eq_false_2 (selectedModel w = gemini_2_5_flash_image))
    by done.
  rewrite (bool_decide_eq_false_2 (activeModel w = target)) by done.
  cbn [negb andb when]. rewrite bind_run.
  destruct (startNewChatSession_settled B (modelName target) h w1 key
              Hai1 Hdel) as (s & w2 & -> & Hs & Hc2 & Hm & Hh & Hcc & _ & _).
  cbn [modify].
  set (P := fun w' : World =>
              activeModel w' = target /\
              exists rest,
                calls w' = calls w ++ teardownCalls w ++ ChatsCreate s :: rest).
  assert (P (set_activeModel target w2)) as HP.
  { split; [done|]. exists []. cbn. by rewrite Hc2, Hc1, Ht1. }
  assert (P (snd ((streamGeminiResponse B fuel (sv_text vars) (sv_files vars)
                     (guardedUpdate (sv_targetConversationId vars))
                     (statusUpdate (sv_targetConversationId vars))
                   ≫= fun usage =>
                   mret (usage, sv_targetConversationId vars))
                    (set_activeModel target w2)))) as [H1 [rest H2]].
  { revert HP. apply pres_bind; [|intros ?; apply pres_ret].
    assert (forall cid ch w0, P w0 -> P (updateStreamingMessage cid ch w0))
      as Hpatch by (by intros ??? [? [r ?]]; split; [|exists r]).
    apply pres_streamGeminiResponse.
    - intros c0 w0 [? [r Hr]]. split; [done|]. exists (r ++ [c0]). cbn.
      by rewrite Hr, <- !app_assoc.
    - by intros ?? [? [r ?]]; split; [|exists r].
    - by intros ?? [? [r ?]]; split; [|exists r].
    - by intros ?? [? [r ?]]; split; [|exists r].
    - intros ch. by apply pres_guardedUpdate.
    - intros st. by apply pres_statusUpdate. }
  split; [exact H1|]. by exists s, rest.
Qed.

Lemma model_switch_precedes_the_stream_witness :
  let B := Sample.backend [Sample.rawOf [Sample.textPart "Hi"] None] None
                          true in
  let vars := {| sv_text := "see https://example.org"; sv_files := [];
                 sv_userMessage :=
                   mkUserMessage Sample.clockA "see https://example.org" [];
                 sv_aiMessagePlaceholder := mkPlaceholder Sample.clockA;
                 sv_targetConversationId := "A" |} in
  let w' := snd (mutationFn B 3 vars [] Sample.world) in
  activeModel w' = gemini_2_5_pro /\
  exists s rest,
    calls w' = calls Sample.world ++ teardownCalls Sample.world
               ++ ChatsCreate s :: rest /\
    cs_model s = backendModel (modelName gemini_2_5_pro) /\
    cs_history s = [] /\ cs_cachedContent s = None.
Proof.
  intros B vars w'.
  apply (model_switch_precedes_the_stream B 3 vars [] Sample.world "key"
           Sample.convA);
    try reflexivity; discriminate.
Defined.

(* ------------------------------------------------------------------ *)
(** ** The handlers of the conversation list *)
(* ------------------------------------------------------------------ *)

Lemma mutateConversations_accepted B cs w :
  storageAccepts B ->
  snd (mutateConversations B cs w) =
  setQueryData cs (set_chatHistoryItem (storedPayload cs)
                                       (setQueryData cs w)).
Proof.
  intros [Hset Hrem].
  unfold mutateConversations, updateConversationsMutation, saveConversations,
    storedPayload.
  cbn [snd]. destruct (0 <? length cs)%nat.
  - by rewrite Hset.
  - by rewrite Hrem.
Qed.

Lemma conversationsMap_fresh (c : Conversation) (cs : list Conversation)
  (w : World) :
  queryData w = Some (c :: cs) -> conv_id c ∉ map conv_id cs ->
  conversationsMap w !! conv_id c = Some c.
Proof.
  intros Hq Hfresh. unfold conversationsMap, conversations. rewrite Hq.
  cbn [default from_option map id].
  rewrite reverse_cons, list_to_map_snoc; [apply lookup_insert_eq|].
  rewrite fmap_reverse, elem_of_reverse.
  assert ((map (fun c => (conv_id c, c)) cs).*1 = map conv_id cs) as ->; [|done].
  clear. induction cs as [|x cs IH]; [done|]. cbn. by rewrite IH.
Qed.

(** X17.  With a key, a client and a store that accepts the write,
    [handleNewChat] puts a conversation made of the greeting alone, titled
    [New Chat] and set to the selected model, in front of the list,
    makes it the active one, clears the escalation flag, and opens a
    session for the selected model that replays no history and is bound
    to no cache; the active cache is dropped. *)
Theorem handleNewChat_opens_a_fresh_conversation (B : Backend) (now : Clock)
  (w : World) (key client : string) :
  apiKey w = Some key -> key <> "" -> aiClient w = Some client ->
  storageAccepts B -> teardownSettles B ->
  pretty (dateNow now) ∉ map conv_id (conversations w) ->
  let w' := handleNewChat B now w in
  let fresh := freshConversation now (selectedModel w) in
  conversations w' = fresh :: conversations w /\
  activeConversation w' = Some fresh /\
  isProSession w' = false /\ activeModel w' = selectedModel w /\
  activeCache w' = None /\
  exists s, chat w' = Some s /\ cs_history s = [] /\
    cs_model s = backendModel (modelName (selectedModel w)) /\
    cs_cachedContent s = None.
Proof.
  intros Hkey Hne Hai Hst Hdel Hfresh. cbn zeta.
  unfold handleNewChat, handleNewChatIn. rewrite Hkey.
  assert (Js.truthy key = true) as Ht by by destruct key.
  cbn [Js.truthyO]. rewrite Ht. cbn [negb].
  rewrite (mutateConversations_accepted B _ w Hst).
  set (w2 := set_isProSession false (set_activeConversationId _ _)).
  assert (aiClient w2 = Some client) as Hai2 by done.
  destruct (startNewChatSession_settled B (modelName (selectedModel w)) [] w2
              client Hai2 Hdel)
    as (s & w3 & Hrun & Hs & Hc & Hm & Hh & Hcc & Hac & _).
  rewrite Hrun. cbn [snd].
  assert (queryData w3 = queryData w2
          /\ activeConversationId w3 = activeConversationId w2
          /\ isProSession w3 = isProSession w2) as (Q1 & Q2 & Q3).
  { pose proof (pres_startNewChatSession B
                  (fun w' => queryData w' = queryData w2
                             /\ activeConversationId w' = activeConversationId w2
                             /\ isProSession w' = isProSession w2)) as Hp.
    specialize (Hp ltac:(done) ltac:(done) ltac:(done) ltac:(done)
                   (modelName (selectedModel w)) None [] w2
                   ltac:(done)).
    by rewrite Hrun in Hp. }
  split; [|split].
  - unfold conversations. cbn. by rewrite Q1.
  - unfold activeConversation. cbn [activeConversationId set_activeModel].
    rewrite Q2. subst w2. cbn [activeConversationId set_isProSession
                              set_activeConversationId default from_option id].
    apply (conversationsMap_fresh
             (freshConversation now (selectedModel w)) (conversations w)).
    + cbn. by rewrite Q1.
    + exact Hfresh.
  - cbn. rewrite Q3, Hac, Hs. repeat split; try done. by exists s.
Qed.

Lemma sample_storageAccepts chunks err ok :
  storageAccepts (Sample.backend chunks err ok).
Proof. by split. Qed.

Lemma sample_teardownSettles chunks err ok :
  teardownSettles (Sample.backend chunks err ok).
Proof. intros l. by destruct ok. Qed.

Lemma handleNewChat_opens_a_fresh_conversation_witness :
  let B := Sample.backend [] None true in
  let w' := handleNewChat B Sample.clockA Sample.world in
  let fresh := freshConversation Sample.clockA gemini_2_5_flash in
  conversations w' = [fresh; Sample.convA; Sample.convB] /\
  activeConversation w' = Some fresh /\
  isProSession w' = false /\ activeModel w' = gemini_2_5_flash /\
  activeCache w' = None /\
  exists s, chat w' = Some s /\ cs_history s = [] /\
    cs_model s = backendModel (modelName gemini_2_5_flash) /\
    cs_cachedContent s = None.
Proof.
  intros B w' fresh.
  apply (handleNewChat_opens_a_fresh_conversation B Sample.clockA
           Sample.world "key" "key");
    [reflexivity | discriminate | reflexivity
    | apply sample_storageAccepts | apply sample_teardownSettles |].
  assert (pretty (dateNow Sample.clockA) = "1000") as -> by (by vm_compute).
  cbn. rewrite !not_elem_of_cons. repeat split; try discriminate.
  apply not_elem_of_nil.
Defined.

Lemma startNewChatSession_frame B name cached h w :
  let w' := snd (startNewChatSession B name cached h w) in
  queryData w' = queryData w /\
  activeConversationId w' = activeConversationId w /\
  isProSession w' = isProSession w /\
  selectedModel w' = selectedModel w /\
  activeModel w' = activeModel w /\
  chatHistoryItem w' = chatHistoryItem w.
Proof.
  cbn zeta.
  by apply (pres_startNewChatSession B
              (fun w' => queryData w' = queryData w /\
                         activeConversationId w' = activeConversationId w /\
                         isProSession w' = isProSession w /\
                         selectedModel w' = selectedModel w /\
                         activeModel w' = activeModel w /\
                         chatHistoryItem w' = chatHistoryItem w)).
Qed.

(** X18.  Selecting a conversation of the list makes it the active one,
    sets the selected model and the model in use to its model, and opens a
    session for that model that replays the history of its messages and
    is bound to no cache, dropping the active cache; the list and the
    escalation flag are left as they were.  An identifier that is not in
    the list changes nothing. *)
Theorem select_replays_the_history (B : Backend) (id : string) (w : World)
  (c : Conversation) (client : string) :
  conversationsMap w !! id = Some c ->
  aiClient w = Some client -> teardownSettles B ->
  let w' := handleSelectConversation B id w in
  activeConversationId w' = Some id /\
  selectedModel w' = model c /\ activeModel w' = model c /\
  queryData w' = queryData w /\ isProSession w' = isProSession w /\
  activeCache w' = None /\
  (exists s, chat w' = Some s /\
     cs_history s = mapMessagesToHistory (messages c) /\
     cs_model s = backendModel (modelName (model c)) /\
     cs_cachedContent s = None) /\
  forall other, conversationsMap w !! other = None ->
                handleSelectConversation B other w = w.
Proof.
  intros Hc Hai Hdel. cbn zeta. unfold handleSelectConversation.
  rewrite Hc.
  set (w1 := set_selectedModel (model c) (set_activeConversationId _ w)).
  destruct (startNewChatSession_settled B (modelName (model c))
              (mapMessagesToHistory (messages c)) w1 client Hai Hdel)
    as (s & w2 & Hrun & Hs & _ & Hm & Hh & Hcc & Hac & _).
  pose proof (startNewChatSession_frame B (modelName (model c)) None
                (mapMessagesToHistory (messages c)) w1) as Hf.
  cbn zeta in Hf. rewrite Hrun in *. cbn [snd] in *.
  destruct Hf as (F1 & F2 & F3 & F4 & F5 & F6).
  cbn. rewrite F1, F2, F3, F4, Hac, Hs. repeat split; try done.
  - by exists s.
  - by intros other ->.
Qed.

Lemma select_replays_the_history_witness :
  let B := Sample.backend [] None true in
  let w' := handleSelectConversation B "A" Sample.world in
  activeConversationId w' = Some "A" /\
  selectedModel w' = model Sample.convA /\
  activeModel w' = model Sample.convA /\
  queryData w' = queryData Sample.world /\
  isProSession w' = isProSession Sample.world /\
  activeCache w' = None /\
  (exists s, chat w' = Some s /\
     cs_history s = mapMessagesToHistory (messages Sample.convA) /\
     cs_model s = backendModel (modelName (model Sample.convA)) /\
     cs_cachedContent s = None) /\
  forall other, conversationsMap Sample.world !! other = None ->
                handleSelectConversation B other Sample.world = Sample.world.
Proof.
  intros B w'.
  apply (select_replays_the_history B "A" Sample.world Sample.convA "key");
    [by vm_compute | reflexivity | apply sample_teardownSettles].
Defined.

(** X19.  A confirmed deletion that the store accepts removes the
    conversations of that identifier and keeps the others in order; when
    some are left, deleting the active conversation makes the first one
    left active, with its model and a session replaying its history, while
    deleting another conversation leaves the active conversation, the
    session and the call log as they were.  A deletion that is not
    confirmed changes nothing. *)
Theorem delete_keeps_the_other_conversations (B : Backend) (id : string)
  (now : Clock) (w : World) (client : string) (next : Conversation)
  (others : list Conversation) :
  storageAccepts B -> aiClient w = Some client -> teardownSettles B ->
  List.filter (fun c => negb (String.eqb (conv_id c) id)) (conversations w)
  = next :: others ->
  let w' := handleDeleteConversation B id true now w in
  handleDeleteConversation B id false now w = w /\
  conversations w' = next :: others /\
  chatHistoryItem w' = storedPayload (next :: others) /\
  if refIs (activeConversationId w) id
  then activeConversationId w' = Some (conv_id next) /\
       selectedModel w' = model next /\ activeModel w' = model next /\
       exists s, chat w' = Some s /\
         cs_history s = mapMessagesToHistory (messages next)
  else activeConversationId w' = activeConversationId w /\
       selectedModel w' = selectedModel w /\
       chat w' = chat w /\ calls w' = calls w.
Proof.
  intros Hst Hai Hdel Hleft. cbn zeta. split; [done|].
  unfold handleDeleteConversation. cbn [negb]. rewrite Hleft.
  rewrite (mutateConversations_accepted B _ w Hst).
  destruct (refIs (activeConversationId w) id).
  - set (w1 := set_selectedModel (model next) (set_activeConversationId _ _)).
    assert (aiClient w1 = Some client) as Hai1 by done.
    destruct (startNewChatSession_settled B (modelName (model next))
                (mapMessagesToHistory (messages next)) w1 client Hai1 Hdel)
      as (s & w2 & Hrun & Hs & _ & Hm & Hh & Hcc & Hac & _).
    pose proof (startNewChatSession_frame B (modelName (model next)) None
                  (mapMessagesToHistory (messages next)) w1) as Hf.
    cbn zeta in Hf. rewrite Hrun in *. cbn [snd] in *.
    destruct Hf as (F1 & F2 & F3 & F4 & F5 & F6).
    unfold conversations. cbn. rewrite F1, F2, F4, F6, Hs.
    repeat split; try done. by exists s.
  - by repeat split.
Qed.

Lemma delete_keeps_the_other_conversations_witness :
  let B := Sample.backend [] None true in
  let w' := handleDeleteConversation B "A" true Sample.clockA Sample.world in
  handleDeleteConversation B "A" false Sample.clockA Sample.world
  = Sample.world /\
  conversations w' = [Sample.convB] /\
  chatHistoryItem w' = storedPayload [Sample.convB] /\
  if refIs (activeConversationId Sample.world) "A"
  then activeConversationId w' = Some (conv_id Sample.convB) /\
       selectedModel w' = model Sample.convB /\
       activeModel w' = model Sample.convB /\
       exists s, chat w' = Some s /\
         cs_history s = mapMessagesToHistory (messages Sample.convB)
  else activeConversationId w' = activeConversationId Sample.world /\
       selectedModel w' = selectedModel Sample.world /\
       chat w' = chat Sample.world /\ calls w' = calls Sample.world.
Proof.
  intros B w'.
  apply (delete_keeps_the_other_conversations B "A" Sample.clockA
           Sample.world "key" Sample.convB []);
    [apply sample_storageAccepts | reflexivity
    | apply sample_teardownSettles | reflexivity].
Defined.

(** X20.  Changing the model while a conversation is active, with a store
    that accepts the write, changes the model of the conversations that
    carry the active identifier and of no other, and leaves every
    identifier, title and message as it was; the new model becomes the
    selected model and the model in use, the escalation flag is kept, and
    the session is reopened on the history of the conversation, or on no
    history when the conversation still opens with the greeting. *)
Theorem model_change_touches_only_the_model (B : Backend) (m : ModelId)
  (now : Clock) (w : World) (c : Conversation) (client : string) :
  activeConversation w = Some c ->
  storageAccepts B -> aiClient w = Some client -> teardownSettles B ->
  let w' := handleModelChange B m now w in
  map conv_id (conversations w') = map conv_id (conversations w) /\
  map conv_title (conversations w') = map conv_title (conversations w) /\
  map messages (conversations w') = map messages (conversations w) /\
  map model (conversations w') =
    map (fun x => if refIs (activeConversationId w) (conv_id x) then m
                  else model x) (conversations w) /\
  selectedModel w' = m /\ activeModel w' = m /\
  isProSession w' = isProSession w /\
  activeConversationId w' = activeConversationId w /\
  exists s, chat w' = Some s /\
    cs_model s = backendModel (modelName m) /\
    cs_history s =
      match messages c with
      | first :: _ =>
          if Js.startsWith (msg_id first) "initial-" then []
          else mapMessagesToHistory (messages c)
      | [] => mapMessagesToHistory (messages c)
      end.
Proof.
  intros Hc Hst Hai Hdel. cbn zeta. unfold handleModelChange. rewrite Hc.
  rewrite (mutateConversations_accepted B _ _ Hst).
  set (h := if match messages c with
               | m0 :: _ => Js.startsWith (msg_id m0) "initial-"
               | [] => false
               end then [] else mapMessagesToHistory (messages c)).
  set (w1 := setQueryData _ _).
  assert (aiClient w1 = Some client) as Hai1 by done.
  destruct (startNewChatSession_settled B (modelName m) h w1 client Hai1 Hdel)
    as (s & w2 & Hrun & Hs & _ & Hm & Hh & Hcc & Hac & _).
  pose proof (startNewChatSession_frame B (modelName m) None h w1) as Hf.
  cbn zeta in Hf. rewrite Hrun in *. cbn [snd] in *.
  destruct Hf as (F1 & F2 & F3 & F4 & F5 & F6).
  unfold conversations at 1 3 5 7. cbn. rewrite F1, F2, F3, F4, Hs.
  subst w1. cbn. rewrite !map_map.
  split; [apply map_ext; intros x; by destruct (refIs _ _)|].
  split; [apply map_ext; intros x; by destruct (refIs _ _)|].
  split; [apply map_ext; intros x; by destruct (refIs _ _)|].
  split; [apply map_ext; intros x; by destruct (refIs _ _)|].
  repeat split; try done. exists s. split; [done|]. split; [done|].
  rewrite Hh. subst h. destruct (messages c) as [|m0 l]; [done|].
  by destruct (Js.startsWith _ _).
Qed.

Lemma model_change_touches_only_the_model_witness :
  let B := Sample.backend [] None true in
  let w' := handleModelChange B gemini_2_5_pro Sample.clockA Sample.world in
  map conv_id (conversations w') = ["A"; "B"] /\
  map model (conversations w') = [gemini_2_5_pro; gemini_2_5_flash] /\
  selectedModel w' = gemini_2_5_pro /\ activeModel w' = gemini_2_5_pro.
Proof.
  intros B w'.
  destruct (model_change_touches_only_the_model B gemini_2_5_pro
              Sample.clockA Sample.world Sample.convA "key")
    as (H1 & _ & _ & H4 & H5 & H6 & _);
    [by vm_compute | apply sample_storageAccepts | reflexivity
    | apply sample_teardownSettles |].
  split; [exact H1|]. split; [exact H4|]. split; [exact H5 | exact H6].
Defined.

(* ------------------------------------------------------------------ *)
(** ** The start of a send *)
(* ------------------------------------------------------------------ *)

(** X21.  [onMutate] moves the conversation of the send to the front of
    the list and appends the user's message and the placeholder to its
    messages, which replace the greeting of a conversation that still
    opens with it; the other conversations keep their order; the context
    it returns holds the list as it was and the active identifier. *)
Theorem onMutate_moves_the_conversation_to_the_front (vars : SendVars)
  (now : Clock) (w : World) (cid : string) (before after : list Conversation)
  (c : Conversation) :
  activeConversationId w = Some cid -> cid <> "" ->
  queryData w = Some (before ++ c :: after) ->
  conv_id c = cid -> Forall (fun x => conv_id x <> cid) before ->
  let r := onMutate vars now w in
  conversations (snd r) =
    with_messages
      ((match messages c with
        | first :: _ =>
            if Js.startsWith (msg_id first) "initial" then []
            else messages c
        | [] => []
        end) ++ [sv_userMessage vars; sv_aiMessagePlaceholder vars]) c
    :: before ++ after /\
  previousConversations (fst r) = Some (before ++ c :: after) /\
  ctx_conversationId (fst r) = Some cid /\
  startTime (fst r) = performanceNow now.
Proof.
  intros Hid Hne Hq Hc Hbefore. cbn zeta. unfold onMutate.
  rewrite Hid, Hq.
  assert (Js.truthy cid = true) as -> by by destruct cid.
  cbn [negb].
  assert (findIndex (fun x => String.eqb (conv_id x) cid) (before ++ c :: after)
          = Some (length before)) as ->.
  { clear -Hc Hbefore. induction Hbefore as [|x l Hx _ IH]; cbn.
    - by rewrite Hc, String.eqb_refl.
    - apply String.eqb_neq in Hx. by rewrite Hx, IH. }
  rewrite list_lookup_middle by done.
  unfold conversations. cbn.
  rewrite (delete_middle before after c).
  repeat split; try done. f_equal. f_equal.
  destruct (messages c) as [|first l]; [done|].
  by destruct (Js.startsWith _ _).
Qed.

Lemma onMutate_moves_the_conversation_to_the_front_witness :
  let vars := {| sv_text := "hello"; sv_files := [];
                 sv_userMessage := mkUserMessage Sample.clockA "hello" [];
                 sv_aiMessagePlaceholder := mkPlaceholder Sample.clockA;
                 sv_targetConversationId := "B" |} in
  let w := set_activeConversationId (Some "B") Sample.world in
  let r := onMutate vars Sample.clockA w in
  map conv_id (conversations (snd r)) = ["B"; "A"] /\
  previousConversations (fst r) = Some [Sample.convA; Sample.convB].
Proof.
  intros vars w r.
  destruct (onMutate_moves_the_conversation_to_the_front vars Sample.clockA w
              "B" [Sample.convA] [] Sample.convB)
    as (H1 & H2 & _);
    [reflexivity | discriminate | reflexivity | reflexivity
    | by repeat constructor |].
  split; [exact (f_equal (map conv_id) H1) | exact H2].
Defined.

Lemma updateConversationsMutation_frame B cs w :
  let w' := snd (updateConversationsMutation B cs w) in
  started w' = started w /\ activeStreamingRef w' = activeStreamingRef w /\
  isLoading w' = isLoading w /\ calls w' = calls w /\ chat w' = chat w /\
  activeConversationId w' = activeConversationId w /\
  isProSession w' = isProSession w /\ aiClient w' = aiClient w /\
  activeCache w' = activeCache w /\ apiKey w' = apiKey w.
Proof.
  cbn zeta. unfold updateConversationsMutation, saveConversations.
  destruct (0 <? length cs)%nat.
  - destruct (setItemOutcome B _); [done|by destruct (queryData w)..].
  - destruct (removeItemThrows B); [by destruct (queryData w) | done].
Qed.

(** X22.  A send that [handleSendMessage] accepts asks for a title only
    when the conversation has no message of the user yet: it then starts
    the title generation on the text when the text is not blank, and
    otherwise, for files alone, a write of the list of the render with the
    conversation retitled [Chat with Files]; on any later send it starts
    the send alone.  The send is the last mutation started.  The handler
    itself leaves the list untouched and takes the token and the loading
    flag. *)
Theorem title_is_requested_on_the_first_message_only (B : Backend)
  (txt : string) (fs : list File) (now : Clock) (w w' : World)
  (vars : SendVars) (h : list Content) (c : Conversation) :
  handleSendMessage B txt fs now w = (Some (vars, h), w') ->
  activeConversation w = Some c ->
  activeStreamingRef w' = Some (sv_targetConversationId vars) /\
  isLoading w' = true /\
  h = mapMessagesToHistory (messages c) /\
  queryData w' = queryData w /\
  started w' =
    started w ++
    (if noUserMessage c then
       if Js.truthy txt && negb (Js.isBlank txt)
       then [GenerateChatTitle txt (sv_targetConversationId vars)]
       else if (0 <? length (sv_files vars))%nat
            then [UpdateConversations
                    (retitle (sv_targetConversationId vars)
                             "Chat with Files" (conversations w))]
            else []
     else []) ++
    [SendMessage vars].
Proof.
  unfold handleSendMessage, noUserMessage.
  destruct (negb (Js.truthyO (apiKey w))); [discriminate|].
  destruct (0 <? length (errors (validateFiles fs)))%nat; [discriminate|].
  intros Hrun Hc. rewrite Hc in Hrun.
  destruct (activeConversationId w) as [cid|]; [|discriminate].
  destruct (negb (Js.truthy cid)); [discriminate|].
  destruct (_ && negb (refIs _ _)); [discriminate|].
  destruct (length (List.filter _ (messages c)) =? 0)%nat;
    cbn [andb] in *.
  - destruct (Js.truthy txt && negb (Js.isBlank txt)); cbn [orb] in *.
    + injection Hrun as <- <- <-. cbn. rewrite <- app_assoc.
      by repeat split.
    + destruct (0 <? length (valid (validateFiles fs)))%nat eqn:Ef;
        injection Hrun as <- <- <-; cbn -[Nat.ltb];
        rewrite ?Ef, <- ?app_assoc; by repeat split.
  - injection Hrun as <- <- <-. by repeat split.
Qed.

Lemma title_is_requested_on_the_first_message_only_witness :
  let B := Sample.backend [] None true in
  let w := set_activeConversationId (Some "B") Sample.world in
  exists vars h w',
    handleSendMessage B "" [Sample.photo] Sample.clockA w
    = (Some (vars, h), w') /\
    queryData w' = queryData w /\
    started w' =
      [UpdateConversations
         (retitle "B" "Chat with Files" [Sample.convA; Sample.convB]);
       SendMessage vars].
Proof.
  intros B w. eexists _, _, _. split; [reflexivity|].
  destruct (title_is_requested_on_the_first_message_only B "" [Sample.photo]
              Sample.clockA w _ _ _ Sample.convB eq_refl)
    as (_ & _ & _ & H1 & H2); [by vm_compute|].
  split; [exact H1 | exact H2].
Defined.

(* ------------------------------------------------------------------ *)
(** ** The token and the loading flag *)
(* ------------------------------------------------------------------ *)

(** The state predicate "token and loading flag are those of [w0]". *)
Lemma mutationFn_keeps_token B fuel vars h w :
  let w' := snd (mutationFn B fuel vars h w) in
  activeStreamingRef w' = activeStreamingRef w /\ isLoading w' = isLoading w.
Proof.
  cbn zeta.
  by apply (pres_mutationFn B
              (fun w' => activeStreamingRef w' = activeStreamingRef w /\
                         isLoading w' = isLoading w)).
Qed.

Lemma startNewChatSession_keeps_token B name cached h w :
  let w' := snd (startNewChatSession B name cached h w) in
  activeStreamingRef w' = activeStreamingRef w /\ isLoading w' = isLoading w.
Proof.
  cbn zeta.
  by apply (pres_startNewChatSession B
              (fun w' => activeStreamingRef w' = activeStreamingRef w /\
                         isLoading w' = isLoading w)).
Qed.

Lemma mutateConversations_keeps_token B cs w :
  let w' := snd (mutateConversations B cs w) in
  activeStreamingRef w' = activeStreamingRef w /\ isLoading w' = isLoading w.
Proof.
  cbn zeta. unfold mutateConversations. cbn [snd].
  destruct (updateConversationsMutation_frame B cs w) as (_ & H1 & H2 & _).
  by split.
Qed.

Lemma onSuccess_keeps_token B res ctx now w :
  let w' := snd (onSuccess B res ctx now w) in
  activeStreamingRef w' = activeStreamingRef w /\ isLoading w' = isLoading w.
Proof.
  cbn zeta. unfold onSuccess.
  destruct (ctx_conversationId ctx) as [cid|]; [|done].
  destruct (_ && String.eqb _ _); [|done].
  rewrite bind_run. cbn [getW]. rewrite bind_run.
  destruct (updateConversationsMutation_frame B
              (mapConversation cid
                 (finalizeMessage (fst res)
                    (performanceNow now -
                     (if (startTime ctx =? 0)%Z then performanceNow now
                      else startTime ctx))%Z (formattedTimestamp now))
                 (default [] (queryData w))) w) as (_ & H1 & H2 & _).
  by destruct (updateConversationsMutation B _ w) as [[?| |] w1].
Qed.

Lemma onError_keeps_token B e ctx now w :
  let w' := onError B e ctx now w in
  activeStreamingRef w' = activeStreamingRef w /\ isLoading w' = isLoading w.
Proof.
  cbn zeta. unfold onError.
  set (w1 := match previousConversations ctx with
             | Some prev => setQueryData prev w
             | None => w
             end).
  assert (activeStreamingRef w1 = activeStreamingRef w /\
          isLoading w1 = isLoading w) as [E1 E2]
    by (subst w1; by destruct (previousConversations ctx)).
  destruct (ctx_conversationId ctx) as [cid|]; [|done].
  destruct (Js.truthy cid); [|done].
  destruct (updateConversationsMutation_frame B
              (mapConversation cid
                 (errorMessageInto (errorTextFor e) (formattedTimestamp now))
                 (default [] (queryData w1))) w1) as (_ & H1 & H2 & _).
  split; congruence.
Qed.

Lemma onMutate_keeps_token vars now w :
  let r := onMutate vars now w in
  activeStreamingRef (snd r) = activeStreamingRef w /\
  isLoading (snd r) = isLoading w /\
  ctx_conversationId (fst r) = activeConversationId w.
Proof.
  cbn zeta. unfold onMutate.
  destruct (activeConversationId w) as [cid|]; [|done].
  destruct (queryData w) as [prev|]; [|done].
  destruct (negb (Js.truthy cid)); [done|].
  destruct (findIndex _ prev) as [i|]; [|done].
  by destruct (prev !! i).
Qed.

(** A send that was started with the token and the loading flag taken for
    the active conversation gives both back when it settles. *)
Lemma sendStart_keeps_token B write vars now w :
  let r := sendStart B write vars now w in
  activeStreamingRef (snd r) = activeStreamingRef w /\
  isLoading (snd r) = isLoading w /\
  ctx_conversationId (fst r) = activeConversationId w.
Proof.
  cbn zeta. unfold sendStart, writeOnMutate.
  destruct write as [cs|]; [|apply onMutate_keeps_token].
  destruct (onMutate_keeps_token vars now (setQueryData cs w))
    as (M1 & M2 & M3).
  destruct (onMutate vars now (setQueryData cs w)) as [ctx wb].
  cbn [fst snd] in *. unfold writeSettle, saveConversations.
  destruct (0 <? length cs)%nat.
  - destruct (setItemOutcome B _); [done | by destruct (queryData w)..].
  - destruct (removeItemThrows B); [by destruct (queryData w) | done].
Qed.

Lemma sendMessageMutation_releases B fuel write vars h clk0 clk1 w cid :
  activeConversationId w = Some cid -> cid <> "" ->
  activeStreamingRef w = Some cid -> isLoading w = true ->
  tokenUnderLoading (sendMessageMutation B fuel write vars h clk0 clk1 w).
Proof.
  intros Hid Hne Href Hload. unfold sendMessageMutation, sendAfterMutate.
  destruct (sendStart_keeps_token B write vars clk0 w) as (M1 & M2 & M3).
  destruct (sendStart B write vars clk0 w) as [ctx w1]. cbn [fst snd] in *.
  assert (forall w2, activeStreamingRef w2 = Some cid ->
            tokenUnderLoading (onSettled ctx w2)) as Hsettle.
  { intros w2 H2. left. unfold onSettled. rewrite M3, Hid, H2.
    assert (Js.truthy cid = true) as -> by by destruct cid.
    cbn. by rewrite String.eqb_refl. }
  destruct (mutationFn_keeps_token B fuel vars h w1) as [F1 F2].
  destruct (mutationFn B fuel vars h w1) as [[res|e|] w2]; cbn [snd] in *.
  - destruct (onSuccess_keeps_token B res ctx clk1 w2) as [S1 S2].
    destruct (onSuccess B res ctx clk1 w2) as [[[]|e|] w3]; cbn [snd] in *.
    + apply Hsettle. congruence.
    + apply Hsettle.
      destruct (onError_keeps_token B e ctx clk1 w3) as [E1 _]. congruence.
    + right. congruence.
  - apply Hsettle.
    destruct (onError_keeps_token B e ctx clk1 w2) as [E1 _]. congruence.
  - right. congruence.
Qed.

Lemma handleSendMessage_takes_token B txt fs now w :
  match handleSendMessage B txt fs now w with
  | (Some (vars, h), w') =>
      exists cid, activeConversationId w' = Some cid /\ cid <> "" /\
                  activeStreamingRef w' = Some cid /\ isLoading w' = true
  | (None, w') =>
      activeStreamingRef w' = activeStreamingRef w /\
      isLoading w' = isLoading w
  end.
Proof.
  unfold handleSendMessage.
  destruct (negb (Js.truthyO (apiKey w))); [done|].
  destruct (0 <? length (errors (validateFiles fs)))%nat; [done|].
  destruct (activeConversation w) as [c|]; [|done].
  destruct (activeConversationId w) as [cid|] eqn:Hid; [|done].
  destruct (negb (Js.truthy cid)) eqn:Ht; [done|].
  destruct (_ && negb (refIs _ _)); [done|].
  exists cid.
  assert (cid <> "") as Hne by (intros ->; discriminate).
  destruct (_ && (_ || _)); [destruct (_ && negb _)|]; cbn;
    by repeat split.
Qed.

Lemma handleNewChatIn_keeps_token B cs m now w :
  let w' := handleNewChatIn B cs m now w in
  activeStreamingRef w' = activeStreamingRef w /\ isLoading w' = isLoading w.
Proof.
  cbn zeta. unfold handleNewChatIn.
  destruct (negb (Js.truthyO (apiKey w))); [done|]. cbn.
  match goal with
  | |- context [startNewChatSession B ?n ?c ?h ?w0] =>
      destruct (startNewChatSession_keeps_token B n c h w0) as [H1 H2]
  end.
  rewrite H1, H2. cbn.
  apply mutateConversations_keeps_token.
Qed.

Lemma step_keeps_token B fuel e w :
  tokenUnderLoading w -> tokenUnderLoading (step B fuel e w).
Proof.
  intros Hw. destruct e as [txt fs clk0 clk1|now|id|m now|id confirmed now];
    cbn [step].
  - unfold sendFromInput.
    destruct (_ && negb (isLoading w || _)) eqn:Hgate; [|done].
    pose proof (handleSendMessage_takes_token B txt fs clk0 w) as Hh.
    destruct (handleSendMessage B txt fs clk0 w) as [[[vars h]|] w1].
    + destruct Hh as (cid & H1 & H2 & H3 & H4).
      by apply (sendMessageMutation_releases B fuel _ vars h clk0 clk1 w1
                  cid).
    + destruct Hh as [H1 H2]. unfold tokenUnderLoading. by rewrite H1, H2.
  - destruct (handleNewChatIn_keeps_token B (conversations w)
                (selectedModel w) now w) as [H1 H2].
    unfold handleNewChat, tokenUnderLoading. by rewrite H1, H2.
  - unfold handleSelectConversation.
    destruct (conversationsMap w !! id) as [c|]; [|done]. cbn.
    match goal with
    | |- context [startNewChatSession B ?n ?c ?h ?w0] =>
        destruct (startNewChatSession_keeps_token B n c h w0) as [H1 H2]
    end.
    unfold tokenUnderLoading. cbn. by rewrite H1, H2.
  - unfold handleModelChange.
    destruct (activeConversation w) as [c|].
    + match goal with
      | |- context [startNewChatSession B ?n ?c ?h ?w0] =>
          destruct (startNewChatSession_keeps_token B n c h w0) as [H1 H2]
      end.
      unfold tokenUnderLoading.
      cbn [activeStreamingRef isLoading set_activeModel]. rewrite H1, H2.
      match goal with
      | |- context [mutateConversations B ?cs ?w0] =>
          destruct (mutateConversations_keeps_token B cs w0) as [H3 H4]
      end.
      by rewrite H3, H4.
    + destruct (handleNewChatIn_keeps_token B (conversations w)
                  (selectedModel w) now w) as [H1 H2].
      unfold tokenUnderLoading. cbn. by rewrite H1, H2.
  - unfold handleDeleteConversation. destruct confirmed; [|done]. cbn [negb].
    match goal with
    | |- context [mutateConversations B ?cs ?w0] =>
        destruct (mutateConversations_keeps_token B cs w0) as [H3 H4]
    end.
    destruct (refIs (activeConversationId w) id).
    + destruct (List.filter _ (conversations w)) as [|next rest].
      * match goal with
        | |- context [handleNewChatIn B ?cs ?m ?n ?w0] =>
            destruct (handleNewChatIn_keeps_token B cs m n w0) as [H1 H2]
        end.
        unfold tokenUnderLoading. by rewrite H1, H2, H3, H4.
      * match goal with
        | |- context [startNewChatSession B ?n ?c ?h ?w0] =>
            destruct (startNewChatSession_keeps_token B n c h w0) as [H1 H2]
        end.
        unfold tokenUnderLoading.
        cbn [activeStreamingRef isLoading set_activeModel]. rewrite H1, H2.
        cbn [activeStreamingRef isLoading set_selectedModel
             set_activeConversationId].
        by rewrite H3, H4.
    + unfold tokenUnderLoading. by rewrite H3, H4.
Qed.

(** X23.  The token is held only while the loading flag is raised, and
    every run of user actions keeps it so, whatever the backend and the
    store answer: whenever the input is enabled no stream holds the token,
    so that the concurrency guard has nothing to turn away when a message
    is sent from the input. *)
Theorem run_keeps_token_under_loading (B : Backend) (fuel : nat)
  (es : list Event) (w : World) :
  tokenUnderLoading w -> tokenUnderLoading (run B fuel es w).
Proof.
  unfold run. revert w. induction es as [|e es IH]; intros w Hw; [done|].
  cbn [fold_left]. by apply IH, step_keeps_token.
Qed.

Lemma run_keeps_token_under_loading_witness :
  let B := Sample.backend [Sample.rawOf [Sample.textPart "Hi"] None] None
                          true in
  tokenUnderLoading Sample.world /\
  tokenUnderLoading
    (run B 3 [EvSend "hello" [] Sample.clockA Sample.clockB;
              EvSelect "B";
              EvSend "again" [Sample.photo] Sample.clockC Sample.clockD]
         Sample.world).
Proof.
  intros B.
  pose proof (or_introl eq_refl : tokenUnderLoading Sample.world) as H.
  split; [exact H|].
  by apply (run_keeps_token_under_loading B 3).
Defined.

(* ------------------------------------------------------------------ *)
(** ** Titles *)
(* ------------------------------------------------------------------ *)

Lemma countChar_app c a b :
  countChar c (a +:+ b) = countChar c a + countChar c b.
Proof.
  induction a as [|d a IH]; [done|].
  change (countChar c (String d (a +:+ b))
          = countChar c (String d a) + countChar c b).
  cbn [countChar]. rewrite IH. lia.
Qed.

Lemma removeAll_none c s : countChar c (JsText.removeAll c s) = 0.
Proof.
  induction s as [|d s IH]; [done|]. cbn [JsText.removeAll].
  destruct (Ascii.eqb d c) eqn:E; [done|]. cbn [countChar]. by rewrite E.
Qed.

Lemma splitFrom_pieces sep s acc :
  countChar sep acc = 0 ->
  Forall (fun p => countChar sep p = 0) (JsText.splitFrom sep s acc).
Proof.
  revert acc. induction s as [|c s IH]; intros acc Hacc; cbn [JsText.splitFrom].
  - by repeat constructor.
  - destruct (Ascii.eqb c sep) eqn:E.
    + constructor; [done|]. by apply IH.
    + apply IH. rewrite countChar_app, Hacc. cbn. by rewrite E.
Qed.

Lemma joinWith_count sep (l : list string) :
  Forall (fun p => countChar sep p = 0) l ->
  countChar sep (JsText.joinWith (String sep "") l) = pred (length l).
Proof.
  induction 1 as [|p l Hp Hl IH]; [done|].
  cbn [JsText.joinWith]. destruct l as [|q l]; [done|].
  rewrite !countChar_app, Hp, IH. cbn [countChar length pred].
  rewrite Ascii.eqb_refl. lia.
Qed.

Lemma firstWords_spaces s : countChar " " (firstWords s) <= 4.
Proof.
  unfold firstWords.
  rewrite (joinWith_count " "%char).
  - rewrite length_take. lia.
  - apply Forall_take, splitFrom_pieces. done.
Qed.

(** X24.  With a client, [generateChatTitle] makes one request, carrying
    the prompt, and never fails.  When the backend answers with a text, the
    title is that text trimmed and freed of every double quote; when the
    backend rejects the request or answers without a text, the title is
    made of the first five space-separated pieces of the prompt, or is
    [Untitled Chat] when these are empty: it is then not empty and holds
    at most four spaces. *)
Theorem generateChatTitle_outcomes (gen : Generate) (prompt : string)
  (w : World) (key : string) :
  aiClient w = Some key ->
  let r := generateChatTitle gen prompt w in
  snd r = [titleRequest key prompt] /\
  match gen (titleRequest key prompt) with
  | Ok (Some raw) =>
      fst r = Ok (cleanTitle raw) /\ countChar QUOTE (cleanTitle raw) = 0
  | Hang => fst r = Hang
  | _ =>
      exists t, fst r = Ok t /\ t <> "" /\ countChar " " t <= 4 /\
        t = if Js.truthy (firstWords prompt) then firstWords prompt
            else "Untitled Chat"
  end.
Proof.
  intros Hai. cbn zeta. unfold generateChatTitle, titleRequest. rewrite Hai.
  assert (exists t,
            Ok (Js.orElse (Some (firstWords prompt)) "Untitled Chat") = Ok t /\
            t <> "" /\ countChar " " t <= 4 /\
            t = if Js.truthy (firstWords prompt) then firstWords prompt
                else "Untitled Chat") as Hfb.
  { eexists. split; [reflexivity|]. split; [by apply orElse_nonempty|].
    cbn [Js.orElse]. split; [|done].
    destruct (Js.truthy (firstWords prompt)); [apply firstWords_spaces|].
    cbn. lia. }
  destruct (gen _) as [[raw|]| |]; cbn [fst snd]; split; try done.
  split; [done|]. apply removeAll_none.
Qed.

Lemma generateChatTitle_outcomes_witness :
  let gen : Generate := fun _ => Throw "503" in
  let r := generateChatTitle gen "plan a trip to Cebu in May please"
                             Sample.world in
  fst r = Ok "plan a trip to Cebu" /\ length (snd r) = 1.
Proof.
  intros gen r.
  destruct (generateChatTitle_outcomes gen
              "plan a trip to Cebu in May please" Sample.world "key" eq_refl)
    as [H1 H2].
  split; [|exact (f_equal length H1)].
  destruct H2 as (t & H2 & _ & _ & ->). exact H2.
Defined.

Lemma append_nonempty_l (a b : string) : a <> "" -> a +:+ b <> "".
Proof. by destruct a. Qed.

Lemma joinWith_nonempty sep x (l : list string) :
  x <> "" -> JsText.joinWith sep (x :: l) <> "".
Proof.
  intros Hx. cbn [JsText.joinWith]. destruct l; [done|].
  by apply append_nonempty_l.
Qed.

Lemma contextLine_nonempty m : contextLine m <> "".
Proof.
  unfold contextLine. apply append_nonempty_l. by destruct (sender m).
Qed.

Lemma conversationContext_empty ms :
  Js.truthy (conversationContext ms) =
  negb (bool_decide (List.filter usableForTitle ms = [])).
Proof.
  unfold conversationContext.
  destruct (List.filter usableForTitle ms) as [|m l]; [done|].
  cbn [take map]. rewrite bool_decide_eq_false_2 by done. cbn [negb].
  pose proof (joinWith_nonempty (NEWLINE +:+ NEWLINE) (contextLine m)
                (map contextLine (take 3 l)) (contextLine_nonempty m)) as H.
  by destruct (JsText.joinWith _ _).
Qed.

Lemma take_filter_app {A} (p : A -> bool) (n : nat) (l extra : list A) :
  n <= length (List.filter p l) ->
  take n (List.filter p (l ++ extra)) = take n (List.filter p l).
Proof.
  intros H. rewrite List.filter_app. by rewrite take_app_le.
Qed.

(** X25.  With a client, [generateTitleFromHistory] never fails.  When
    no message other than the greeting has text or files, it answers
    [Untitled Chat] without any request; otherwise it makes one request,
    whose contents are not empty and are built from the first four such
    messages alone: messages added after these do not change it. *)
Theorem title_from_history_reads_four_messages (gen : Generate)
  (ms extra : list Message) (w : World) (key : string) :
  aiClient w = Some key ->
  let r := generateTitleFromHistory gen ms w in
  (forall e, fst r <> Throw e) /\
  match List.filter usableForTitle ms with
  | [] => r = (Ok "Untitled Chat", [])
  | _ :: _ =>
      exists req, snd r = [req] /\ gr_apiKey req = key /\
        gr_contents req = conversationContext ms /\ gr_contents req <> "" /\
        gr_instruction req = Some TitleGenerationFromHistory
  end /\
  (if (4 <=? length (List.filter usableForTitle ms))%nat
   then conversationContext (ms ++ extra) = conversationContext ms
   else True).
Proof.
  intros Hai. cbn zeta. unfold generateTitleFromHistory. rewrite Hai.
  rewrite conversationContext_empty.
  split; [|split].
  - destruct (List.filter usableForTitle ms) as [|m l] eqn:Ef.
    + by rewrite bool_decide_eq_true_2.
    + rewrite bool_decide_eq_false_2 by done. cbn [negb].
      by destruct (gen _) as [[raw|]| |].
  - destruct (List.filter usableForTitle ms) as [|m l] eqn:Ef.
    + by rewrite bool_decide_eq_true_2.
    + rewrite bool_decide_eq_false_2 by done. cbn [negb].
      eexists. split; [by destruct (gen _) as [[raw|]| |]|].
      cbn. repeat split; try done.
      pose proof (conversationContext_empty ms) as H. rewrite Ef in H.
      rewrite bool_decide_eq_false_2 in H by done.
      intros E. rewrite E in H. discriminate.
  - destruct (4 <=? length _)%nat eqn:E; [|done].
    apply Nat.leb_le in E. unfold conversationContext.
    by rewrite take_filter_app.
Qed.

Lemma title_from_history_reads_four_messages_witness :
  let gen : Generate := fun _ => Ok (Some " Greetings ") in
  let r := generateTitleFromHistory gen [Sample.question; Sample.greeting]
                                    Sample.world in
  fst r = Ok "Greetings" /\
  map gr_contents (snd r) =
    ["User: Hi" +:+ NEWLINE +:+ NEWLINE +:+ "AI: Welcome back."].
Proof.
  intros gen r.
  destruct (title_from_history_reads_four_messages gen
              [Sample.question; Sample.greeting] [] Sample.world "key" eq_refl)
    as (_ & (req & H1 & _ & H2 & _) & _).
  split; [reflexivity|].
  change (map gr_contents (snd r) = [conversationContext
                                       [Sample.question; Sample.greeting]]).
  rewrite <- H2. exact (f_equal (map gr_contents) H1).
Defined.

(* ------------------------------------------------------------------ *)
(** ** The key *)
(* ------------------------------------------------------------------ *)
















(* ------------------------------------------------------------------ *)
(** ** Start-up *)
(* ------------------------------------------------------------------ *)

Lemma initializeAiClient_settled B key w :
  teardownSettles B ->
  exists w1, initializeAiClient B key w = (Ok tt, w1) /\
    aiClient w1 = Some key /\ chat w1 = None /\
    queryData w1 = queryData w /\ isProSession w1 = isProSession w /\
    apiKey w1 = apiKey w /\ selectedModel w1 = selectedModel w /\
    (activeCache w1 = None \/ activeCache w1 = activeCache w).
Proof.
  intros Hdel. unfold initializeAiClient. rewrite bind_run. cbn [getW].
  rewrite bind_run.
  destruct (activeCache w) as [c|] eqn:Hc; [destruct (aiClient w)|].
  - rewrite deleteAndClear_settled by apply Hdel. cbn.
    eexists. split; [reflexivity|]. cbn. by auto 10.
  - cbn. eexists. split; [reflexivity|]. cbn. by auto 10.
  - cbn. eexists. split; [reflexivity|]. cbn. by auto 10.
Qed.

(** X27.  At start-up a stored key that the backend does not accept is
    forgotten: it is removed from the store and from the state, the key
    dialog is opened with the stale-key message, and nothing else is
    touched: no client, no session, no transport call, and the start-up
    is left to be run again once a key is entered. *)
Theorem stale_key_is_forgotten (B : Backend) (gen : Generate) (now : Clock)
  (sh : Shell) (key e : string) :
  isInitialized sh = false -> apiKey (sh_world sh) = Some key -> key <> "" ->
  gen (verifyRequest key) = Throw e ->
  let sh' := initializeApp B gen now sh in
  storedApiKey sh' = None /\
  sh_world sh' = set_showApiKeyModal true (set_apiKey None (sh_world sh)) /\
  apiKeyError sh' = Some STALE_KEY_ERROR /\ isInitialized sh' = false /\
  (requests sh' = requests sh \/
   requests sh' = requests sh ++ [verifyRequest key]).
Proof.
  intros Hinit Hkey Hne Hgen. cbn zeta. unfold initializeApp.
  rewrite Hinit, Hkey.
  assert (Js.truthy key = true) as Ht by by destruct key.
  rewrite Ht. cbn [negb]. unfold verifyApiKey. rewrite Ht. cbn [negb orb].
  destruct (Js.truthy (Js.trim key)); cbn [negb].
  - fold (verifyRequest key). rewrite Hgen. cbn. by auto 10.
  - cbn. rewrite app_nil_r. by auto 10.
Qed.

Lemma stale_key_is_forgotten_witness :
  let gen : Generate := fun _ => Throw "API key not valid" in
  let sh := {| sh_world := Sample.world; storedApiKey := Some "key";
               tempApiKey := "key"; isVerifyingApiKey := false;
               apiKeyError := None; renamingConversationId := None;
               isInitialized := false; requests := [] |} in
  let sh' := initializeApp (Sample.backend [] None true) gen Sample.clockA
                           sh in
  storedApiKey sh' = None /\ apiKey (sh_world sh') = None /\
  showApiKeyModal (sh_world sh') = true /\ calls (sh_world sh') = [] /\
  isInitialized sh' = false.
Proof.
  intros gen sh sh'.
  destruct (stale_key_is_forgotten (Sample.backend [] None true) gen
              Sample.clockA sh "key" "API key not valid")
    as (H1 & H2 & _ & H4 & _); try reflexivity; [discriminate|].
  split; [exact H1|]. split; [exact (f_equal apiKey H2)|].
  split; [exact (f_equal showApiKeyModal H2)|].
  split; [exact (f_equal calls H2) | exact H4].
Defined.

(** X28.  At start-up, with a stored key that the backend accepts and a
    stored list that is not empty, the client is created with that key,
    the first conversation of the list becomes the active one, its model
    becomes the selected model and the model in use, and a session is
    opened that replays its history; the list is left as it was, and
    running the start-up again changes nothing. *)
Theorem startup_resumes_the_first_conversation (B : Backend) (gen : Generate)
  (now : Clock) (sh : Shell) (key : string) (raw : option string)
  (c : Conversation) (rest : list Conversation) :
  isInitialized sh = false -> apiKey (sh_world sh) = Some key ->
  Js.trim key <> "" -> gen (verifyRequest key) = Ok raw ->
  conversations (sh_world sh) = c :: rest -> teardownSettles B ->
  let sh' := initializeApp B gen now sh in
  let w' := sh_world sh' in
  isInitialized sh' = true /\ aiClient w' = Some key /\
  activeConversationId w' = Some (conv_id c) /\
  selectedModel w' = model c /\ activeModel w' = model c /\
  queryData w' = queryData (sh_world sh) /\ activeCache w' = None /\
  (exists s, chat w' = Some s /\
     cs_history s = mapMessagesToHistory (messages c) /\
     cs_model s = backendModel (modelName (model c))) /\
  requests sh' = requests sh ++ [verifyRequest key] /\
  initializeApp B gen now sh' = sh'.
Proof.
  intros Hinit Hkey Hne Hgen Hcs Hdel. cbn zeta.
  set (sh' := initializeApp B gen now sh).
  assert (isInitialized sh' = true -> initializeApp B gen now sh' = sh')
    as Hidem.
  { intros E. unfold initializeApp at 1. by rewrite E. }
  assert (isInitialized sh' = true /\ aiClient (sh_world sh') = Some key /\
          activeConversationId (sh_world sh') = Some (conv_id c) /\
          selectedModel (sh_world sh') = model c /\
          activeModel (sh_world sh') = model c /\
          queryData (sh_world sh') = queryData (sh_world sh) /\
          activeCache (sh_world sh') = None /\
          (exists s, chat (sh_world sh') = Some s /\
             cs_history s = mapMessagesToHistory (messages c) /\
             cs_model s = backendModel (modelName (model c))) /\
          requests sh' = requests sh ++ [verifyRequest key]) as Hmain.
  { clear Hidem. subst sh'. unfold initializeApp.
    rewrite Hinit, Hkey.
    assert (Js.truthy (Js.trim key) = true) as Htt
      by (by destruct (Js.trim key)).
    assert (Js.truthy key = true) as Ht.
    { destruct key; [discriminate | done]. }
    rewrite Ht. cbn [negb]. unfold verifyApiKey. rewrite Ht, Htt.
    cbn [negb orb]. fold (verifyRequest key). rewrite Hgen. cbn [fst snd].
    unfold startSession.
    destruct (initializeAiClient_settled B key (sh_world sh) Hdel)
      as (w1 & -> & A1 & A2 & A3 & A4 & A5 & A6 & A7).
    rewrite Hcs.
    set (w2 := set_selectedModel (model c) (set_activeConversationId _ w1)).
    assert (aiClient w2 = Some key) as Hai2 by done.
    destruct (startNewChatSession_settled B (modelName (model c))
                (mapMessagesToHistory (messages c)) w2 key Hai2 Hdel)
      as (s & w3 & Hrun & Hs & _ & Hm & Hh & _ & Hac & Hai3).
    pose proof (startNewChatSession_frame B (modelName (model c)) None
                  (mapMessagesToHistory (messages c)) w2) as Hf.
    cbn zeta in Hf. rewrite Hrun in *. cbn [snd] in *.
    destruct Hf as (F1 & F2 & F3 & F4 & F5 & F6).
    cbn. rewrite Hai3, F1, F2, F4, Hac, Hs. subst w2. cbn.
    repeat split; try done. by exists s. }
  destruct Hmain as (H1 & H2 & H3 & H4 & H5 & H6 & H7 & H8 & H9).
  repeat split; try done. by apply Hidem.
Qed.

Lemma startup_resumes_the_first_conversation_witness :
  let gen : Generate := fun _ => Ok (Some "ok") in
  let sh := {| sh_world := set_aiClient None
                             (set_chat None
                                (set_activeConversationId None Sample.world));
               storedApiKey := Some "key";
               tempApiKey := "key"; isVerifyingApiKey := false;
               apiKeyError := None; renamingConversationId := None;
               isInitialized := false; requests := [] |} in
  let sh' := initializeApp (Sample.backend [] None true) gen Sample.clockA
                           sh in
  isInitialized sh' = true /\ aiClient (sh_world sh') = Some "key" /\
  activeConversationId (sh_world sh') = Some "A" /\
  initializeApp (Sample.backend [] None true) gen Sample.clockA sh' = sh'.
Proof.
  intros gen sh sh'.
  destruct (startup_resumes_the_first_conversation
              (Sample.backend [] None true) gen Sample.clockA sh "key"
              (Some "ok") Sample.convA [Sample.convB])
    as (H1 & H2 & H3 & _ & _ & _ & _ & _ & _ & H10);
    try reflexivity; [discriminate | apply sample_teardownSettles |].
  split; [exact H1|]. split; [exact H2|]. split; [exact H3 | exact H10].
Defined.

(* ------------------------------------------------------------------ *)
(** ** Files alone as the first message *)
(* ------------------------------------------------------------------ *)

Lemma quiet_messagesOf cid cs :
  quiet cs ->
  Forall (fun m => isStreamingPlaceholder m = false) (messagesOf cid cs).
Proof.
  unfold quiet, messagesOf. induction 1 as [|c cs Hc _ IH]; [constructor|].
  cbn [List.filter]. destruct (String.eqb (conv_id c) cid); [|done].
  cbn [map concat]. by apply Forall_app.
Qed.

Lemma quiet_retitle cid t cs : quiet cs -> quiet (retitle cid t cs).
Proof.
  unfold quiet, retitle. intros H. apply Forall_fmap.
  eapply Forall_impl; [exact H|]. intros c Hc. cbn.
  by destruct (String.eqb (conv_id c) cid).
Qed.

Lemma mutationFn_quiet B fuel vars h X w :
  quiet X -> queryData w = Some X ->
  queryData (snd (mutationFn B fuel vars h w)) = Some X.
Proof.
  intros HX. apply (pres_mutationFn B (fun w => queryData w = Some X));
    try done.
  intros cid c w0 Hq. unfold updateStreamingMessage. rewrite Hq.
  cbn [default from_option].
  by rewrite patchConversations_none by by apply quiet_messagesOf.
Qed.

Lemma onSuccess_quiet B res ctx now X w :
  quiet X -> queryData w = Some X ->
  queryData (snd (onSuccess B res ctx now w)) = Some X.
Proof.
  intros HX Hq. unfold onSuccess.
  destruct (ctx_conversationId ctx) as [cid|]; [|done].
  destruct (_ && _); [|done].
  rewrite bind_run. cbn [getW]. rewrite bind_run, Hq. cbn [default from_option].
  rewrite mapConversation_none; [|by apply quiet_messagesOf|].
  - pose proof (updateConversationsMutation_same B X w Hq) as H.
    change (id X) with X.
    by destruct (updateConversationsMutation B X w) as [[a| |] w'].
  - intros m Hm. unfold finalizeMessage. by rewrite Hm.
Qed.

Lemma onSettled_queryData ctx w : queryData (onSettled ctx w) = queryData w.
Proof.
  unfold onSettled. destruct (ctx_conversationId ctx) as [cid|]; [|done].
  by destruct (_ && _).
Qed.

Lemma sendAfterMutate_quiet B fuel vars h ctx clk1 w X Y cid :
  quiet X -> quiet Y -> queryData w = Some X ->
  previousConversations ctx = Some Y -> ctx_conversationId ctx = Some cid ->
  queryData (sendAfterMutate B fuel vars h ctx clk1 w) = Some X \/
  queryData (sendAfterMutate B fuel vars h ctx clk1 w) = Some Y.
Proof.
  intros HX HY Hq Hprev Hcid. unfold sendAfterMutate.
  pose proof (mutationFn_quiet B fuel vars h X w HX Hq) as H2.
  assert (forall e w0, queryData (onSettled ctx (onError B e ctx clk1 w0))
                       = Some Y) as Herr.
  { intros e w0. rewrite onSettled_queryData.
    apply (onError_restores_snapshot B e ctx clk1 w0 Y cid); try done.
    by apply quiet_messagesOf. }
  destruct (mutationFn B fuel vars h w) as [[res|e|] w2]; cbn [snd] in *.
  - pose proof (onSuccess_quiet B res ctx clk1 X w2 HX H2) as H3.
    destruct (onSuccess B res ctx clk1 w2) as [[[]|e|] w3]; cbn [snd] in *.
    + left. by rewrite onSettled_queryData.
    + by right.
    + by left.
  - by right.
  - by left.
Qed.

Lemma onMutate_snapshot vars now w :
  previousConversations (fst (onMutate vars now w)) = queryData w /\
  ctx_conversationId (fst (onMutate vars now w)) = activeConversationId w.
Proof.
  unfold onMutate.
  destruct (activeConversationId w) as [cid|]; [|done].
  destruct (queryData w) as [prev|]; [|done].
  destruct (negb (Js.truthy cid)); [done|].
  destruct (findIndex _ prev) as [i|]; [|done].
  by destruct (prev !! i).
Qed.

Lemma retitle_messages cid t cs :
  map messages (retitle cid t cs) = map messages cs.
Proof.
  unfold retitle. rewrite map_map. apply map_ext. intros c.
  by destruct (String.eqb (conv_id c) cid).
Qed.

Lemma writeSettle_queryData B T L w :
  (queryData (writeSettle B T (Some L) w) = Some T \/
   queryData (writeSettle B T (Some L) w) = Some L) /\
  (storageAccepts B -> queryData (writeSettle B T (Some L) w) = Some T).
Proof.
  unfold writeSettle, saveConversations.
  destruct (0 <? length T)%nat eqn:El.
  - destruct (setItemOutcome B _) eqn:Eo; cbn;
      (split; [tauto|]); intros [Ha _]; rewrite Ha in Eo; done.
  - destruct (removeItemThrows B) eqn:Eo; cbn;
      (split; [tauto|]); intros [_ Ha]; rewrite Ha in Eo; done.
Qed.

(** X29.  A first message made of files alone does not survive its own
    title write.  On a conversation without a user message, a send with
    blank text and accepted files starts the [Chat with Files] write and
    the send together; the list of the write was computed before the send
    inserted the user message and the placeholder, and the write stores
    it (or, rejected by the store, restores its own snapshot) once both
    have set out.  From a list that holds no placeholder, and whatever
    the backend answers, the list at the end of the send is the list
    before the send, retitled or not: every conversation holds the
    messages it held, so the user message and the response are not among
    them.  With a store that accepts the write the list is the retitled
    one. *)
Theorem files_alone_lose_the_first_message (B : Backend) (fuel : nat)
  (txt : string) (fs : list File) (clk0 clk1 : Clock) (w : World)
  (c : Conversation) (cid : string) :
  Js.truthyO (apiKey w) = true ->
  isLoading w = false -> activeStreamingRef w = None ->
  activeConversationId w = Some cid -> cid <> "" ->
  activeConversation w = Some c -> noUserMessage c = true ->
  Js.truthy txt && negb (Js.isBlank txt) = false ->
  fs <> [] -> errors (validateFiles fs) = [] ->
  quiet (conversations w) ->
  let w' := sendFromInput B fuel txt fs clk0 clk1 w in
  let titled := retitle cid "Chat with Files" (conversations w) in
  (conversations w' = titled \/ conversations w' = conversations w) /\
  map messages (conversations w') = map messages (conversations w) /\
  (storageAccepts B -> conversations w' = titled).
Proof.
  intros Hkey Hload Href Hid Hne Hc Hnone Hblank Hfs Herr Hquiet. cbn zeta.
  pose proof (errors_nil_all_valid fs Herr) as Hvalid.
  assert (exists L, queryData w = Some L) as [L HL].
  { destruct (queryData w) as [L|] eqn:E; [by exists L|].
    unfold activeConversation, conversationsMap, conversations in Hc.
    rewrite E in Hc. cbn in Hc. by rewrite lookup_empty in Hc. }
  assert (conversations w = L) as HcL by (unfold conversations; by rewrite HL).
  rewrite HcL in *.
  set (T := retitle cid "Chat with Files" L).
  assert (quiet T) as HT by (by apply quiet_retitle).
  assert ((0 <? length fs)%nat = true) as Hlen by (by destruct fs).
  assert (exists w',
    sendFromInput B fuel txt fs clk0 clk1 w = w' /\
    (queryData w' = Some T \/ queryData w' = Some L) /\
    (storageAccepts B -> queryData w' = Some T)) as (w' & -> & Hq & Hacc).
  { eexists. split; [reflexivity|].
    unfold sendFromInput. rewrite Hblank, Hlen, Hload, Hkey.
    cbn [orb negb andb].
    unfold handleSendMessage.
    rewrite Hkey, Herr, Hvalid, Hc, Hid, Href, Hblank, Hlen.
    unfold noUserMessage in Hnone. rewrite Hnone.
    assert (Js.truthy cid = true) as ->.
    { unfold Js.truthy. by destruct (String.eqb_spec cid ""). }
    cbn [negb length Nat.ltb Nat.leb Js.present andb orb].
    cbn [started set_started set_activeStreamingRef set_isLoading
         set_fileErrors].
    rewrite <- !app_assoc, drop_app_length. cbn [app omap writeStarted head].
    rewrite HcL. fold (retitle cid "Chat with Files" L). fold T.
    set (vars := {| sv_text := txt; sv_files := fs;
                    sv_userMessage := mkUserMessage clk0 txt fs;
                    sv_aiMessagePlaceholder := mkPlaceholder clk0;
                    sv_targetConversationId := cid |}).
    set (w1 := set_started _ _).
    assert (queryData w1 = Some L /\ activeConversationId w1 = Some cid)
      as (Hq1 & Hid1) by done.
    change (writeStarted [UpdateConversations T; SendMessage vars])
      with (Some T).
    unfold sendMessageMutation, sendStart, writeOnMutate. rewrite Hq1.
    destruct (onMutate_snapshot vars clk0 (setQueryData T w1)) as [Hprev Hctx].
    change (queryData (setQueryData T w1)) with (Some T) in Hprev.
    change (activeConversationId (setQueryData T w1))
      with (activeConversationId w1) in Hctx.
    rewrite Hid1 in Hctx.
    destruct (onMutate vars clk0 (setQueryData T w1)) as [ctx wb].
    cbn [fst snd] in *.
    destruct (writeSettle_queryData B T L wb) as [Hqc Haccc].
    set (wc := writeSettle B T (Some L) wb) in *.
    split.
    - destruct Hqc as [Hqc|Hqc].
      + destruct (sendAfterMutate_quiet B fuel vars
                    (mapMessagesToHistory (messages c)) ctx clk1 wc T T cid
                    HT HT Hqc Hprev Hctx); tauto.
      + destruct (sendAfterMutate_quiet B fuel vars
                    (mapMessagesToHistory (messages c)) ctx clk1 wc L T cid
                    Hquiet HT Hqc Hprev Hctx); tauto.
    - intros Ha. specialize (Haccc Ha).
      destruct (sendAfterMutate_quiet B fuel vars
                  (mapMessagesToHistory (messages c)) ctx clk1 wc T T cid
                  HT HT Haccc Hprev Hctx); tauto. }
  unfold conversations.
  split; [destruct Hq as [-> | ->]; cbn; tauto|].
  split; [destruct Hq as [-> | ->]; cbn; [apply retitle_messages | done]|].
  intros Ha. by rewrite (Hacc Ha).
Qed.

Lemma files_alone_lose_the_first_message_witness :
  let B := Sample.backend [] None true in
  let w := set_activeConversationId (Some "B") Sample.world in
  let w' := sendFromInput B 3 "" [Sample.photo] Sample.clockA Sample.clockB
                          w in
  map messages (conversations w') = map messages (conversations w).
Proof.
  intros B w w'.
  destruct (files_alone_lose_the_first_message B 3 "" [Sample.photo]
              Sample.clockA Sample.clockB w Sample.convB "B")
    as (_ & H & _);
    [first [reflexivity | discriminate | vm_compute; repeat constructor] ..
    | exact H].
Defined.

(* ------------------------------------------------------------------ *)
(** ** The draft *)
(* ------------------------------------------------------------------ *)

(** X30.  [handleSend] clears the draft whenever its own guard lets the
    send through, whether or not [handleSendMessage] accepts it: when the
    send is turned away (no active conversation, a refused file) the text
    and the staged files are gone all the same, while no mutation was
    started and the conversation list is as it was. *)
Theorem refused_send_still_clears_the_draft (B : Backend) (fuel : nat)
  (clk0 clk1 : Clock) (st : InputState) (w w1 : World) :
  canSend st w = true ->
  handleSendMessage B (in_text st) (in_files st) clk0 w = (None, w1) ->
  let r := handleSend B fuel clk0 clk1 st w in
  in_text (fst r) = "" /\ in_files (fst r) = [] /\
  fileInputKey (fst r) = S (fileInputKey st) /\
  snd r = w1 /\ started (snd r) = started w /\
  queryData (snd r) = queryData w /\ calls (snd r) = calls w /\
  isLoading (snd r) = false.
Proof.
  intros Hgate Hrefused. cbn zeta. unfold handleSend. rewrite Hgate.
  cbn [fst snd]. unfold sendFromInput.
  unfold canSend in Hgate. rewrite Hgate, Hrefused.
  apply andb_prop in Hgate as [_ Hidle].
  apply negb_true_iff, orb_false_iff in Hidle as [Hidle _].
  revert Hrefused. unfold handleSendMessage.
  destruct (negb (Js.truthyO (apiKey w)));
    [intros [= <-]; by repeat split|].
  destruct (0 <? length (errors (validateFiles (in_files st))))%nat;
    [intros [= <-]; by repeat split|].
  destruct (activeConversation w); [|intros [= <-]; by repeat split].
  destruct (activeConversationId w) as [cid|];
    [|intros [= <-]; by repeat split].
  destruct (negb (Js.truthy cid)); [intros [= <-]; by repeat split|].
  destruct (_ && negb (refIs _ _)); [intros [= <-]; by repeat split|].
  discriminate.
Qed.

Lemma refused_send_still_clears_the_draft_witness :
  let B := Sample.backend [] None true in
  let w := set_activeConversationId None Sample.world in
  let st := {| in_text := "hello"; in_files := []; isOptimizing := false;
               fileInputKey := 0 |} in
  let r := handleSend B 3 Sample.clockA Sample.clockB st w in
  canSend st w = true /\
  in_text (fst r) = "" /\ in_files (fst r) = [] /\
  started (snd r) = started w /\ queryData (snd r) = queryData w.
Proof.
  intros B w st r. split; [reflexivity|].
  destruct (refused_send_still_clears_the_draft B 3 Sample.clockA
              Sample.clockB st w (set_fileErrors [] w) eq_refl eq_refl)
    as (H1 & H2 & _ & _ & H5 & H6 & _).
  by repeat split.
Defined.
